(** * Replit-tgBot: routing, transports and credential store

    A shallow embedding of the fallback router ([router/hybrid_router.py]),
    the two socket transports ([api/websocket_client.py],
    [api/direct_api_client.py]) and the encrypted credential store
    ([auth/token_manager.py]), with the properties of the design document
    stated over them.

    Conventions of the embedding:
    - Python [int]s are [Z]; [str] is [string]; [bytes] is [list Byte.byte].
    - A Python [dict] keyed by strings is a [gmap string _].
    - A call that may raise is given the type [outcome A].
    - Everything the program obtains from outside (sockets, the browser,
      the clock, the file system) is supplied as an explicit argument. *)

From Stdlib Require Import ZArith.
From stdpp Require Import gmap strings list pretty.

Local Set Warnings "-register-all".
Local Open Scope string_scope.
Local Open Scope list_scope.
Local Open Scope Z_scope.

(** ** Python values *)

(** Result of a call that either returns or raises [Exception(msg)]. *)
Inductive outcome (A : Type) : Type :=
  | Returns (a : A)
  | Raises (msg : string).
Arguments Returns {A} a.
Arguments Raises {A} msg.

(** JSON-shaped Python values: what [json.loads] yields and what the
    authentication bundles are made of.  [JNull] is [None]. *)
Inductive json : Type :=
  | JNull
  | JBool (b : bool)
  | JNum (z : Z)
  | JStr (s : string)
  | JList (l : list json)
  | JDict (kvs : list (string * json)).

(** Python truthiness, as used by [if x:] and [if not x:]. *)
Definition truthy (v : json) : bool :=
  match v with
  | JNull => false
  | JBool b => b
  | JNum z => negb (z =? 0)
  | JStr s => negb (String.eqb s EmptyString)
  | JList l => match l with [] => false | _ => true end
  | JDict kvs => match kvs with [] => false | _ => true end
  end.

(** [d.get(k)] on the association list of a dict: [None] when absent. *)
Fixpoint assoc_get (k : string) (kvs : list (string * json)) : json :=
  match kvs with
  | [] => JNull
  | (k', v) :: rest => if String.eqb k k' then v else assoc_get k rest
  end.

(** [k in d] with the value, on the association list of a dict. *)
Fixpoint assoc_find (k : string) (kvs : list (string * json)) : option json :=
  match kvs with
  | [] => None
  | (k', v) :: rest => if String.eqb k k' then Some v else assoc_find k rest
  end.

(** Truthiness of an optional string ([None] and [''] are falsy). *)
Definition truthy_str (o : option string) : bool :=
  match o with
  | None => false
  | Some s => negb (String.eqb s EmptyString)
  end.

(** [x is not None] *)
Definition present {A : Type} (o : option A) : bool :=
  match o with
  | None => false
  | Some _ => true
  end.

(** [str(x)] of an optional string, as an f-string interpolates it. *)
Definition py_str (o : option string) : string :=
  match o with
  | None => "None"
  | Some s => s
  end.

(** [needle in haystack] on strings. *)
Definition contains (needle haystack : string) : bool :=
  match String.index 0 needle haystack with
  | Some _ => true
  | None => false
  end.

(** ** Credential store: [auth/token_manager.py] *)

Module TokenManager.

(** The tokens file as the process sees it. *)
Inductive file : Type :=
  | Absent                               (* os.path.exists is False *)
  | Unreadable                           (* open(..., 'rb') raises *)
  | Stored (data : list Byte.byte).

(** [self.tokens] together with the file it is persisted to. *)
Record t : Type := mk {
  tokens : gmap string json;
  tokens_file : file;
}.

Definition set_tokens (m : gmap string json) (tm : t) : t :=
  {| tokens := m; tokens_file := tokens_file tm |}.

Definition set_tokens_file (f : file) (tm : t) : t :=
  {| tokens := tokens tm; tokens_file := f |}.

(** What becomes of the file when [save_tokens] opens it with mode ['wb']
    and writes the encrypted data. *)
Inductive writing : Type :=
  | Written                (* open, write and close all succeed *)
  | Refused                (* open raises: the file is left as it was *)
  | Broken (kept : nat).   (* open has truncated the file, then the write or
                              the close raises with [kept] bytes on disk *)

Section Cipher.

(** [self.cipher.encrypt(json.dumps(self.tokens).encode())] *)
Variable encrypt_json : gmap string json -> outcome (list Byte.byte).
(** [json.loads(self.cipher.decrypt(encrypted_data).decode())] *)
Variable decrypt_json : list Byte.byte -> outcome (gmap string json).

(** [load_tokens]: a missing file leaves [self.tokens] alone; any
    exception while reading or decrypting is swallowed and the mapping
    is set to [{}]. *)
Definition load_tokens (tm : t) : t :=
  match tokens_file tm with
  | Absent => tm
  | Unreadable => set_tokens ∅ tm
  | Stored data =>
      match decrypt_json data with
      | Returns m => set_tokens m tm
      | Raises _ => set_tokens ∅ tm
      end
  end.

(** [save_tokens]: [w] is the fate of [open(self.tokens_file, 'wb')] and of
    the write that follows.  Returns [True] on success, [False] when
    anything raised: the encryption, the [open], or the write after the
    [open] has emptied the file. *)
Definition save_tokens (w : writing) (tm : t) : t * bool :=
  match encrypt_json (tokens tm) with
  | Returns data =>
      match w with
      | Written => (set_tokens_file (Stored data) tm, true)
      | Refused => (tm, false)
      | Broken kept => (set_tokens_file (Stored (take kept data)) tm, false)
      end
  | Raises _ => (tm, false)
  end.

(** [__init__]: [makedirs] and [setup] are the outcomes of
    [os.makedirs] and [setup_encryption], both of which propagate their
    exception; then [self.tokens = {}] and [load_tokens()]. *)
Definition init (makedirs setup : outcome unit) (disk : file) : outcome t :=
  match makedirs with
  | Raises e => Raises e
  | Returns _ =>
      match setup with
      | Raises e => Raises e
      | Returns _ => Returns (load_tokens {| tokens := ∅; tokens_file := disk |})
      end
  end.

(** [store_user_tokens]: [now] is [int(time.time())]. *)
Definition store_user_tokens (user_id : string) (auth_data : json)
    (now : Z) (writable : writing) (tm : t) : t * bool :=
  let entry := JDict [("data", auth_data); ("stored_at", JNum now)] in
  save_tokens writable (set_tokens (<[user_id := entry]> (tokens tm)) tm).

(** [delete_user_tokens] *)
Definition delete_user_tokens (user_id : string) (writable : writing)
    (tm : t) : t * bool :=
  match tokens tm !! user_id with
  | Some _ => save_tokens writable (set_tokens (delete user_id (tokens tm)) tm)
  | None => (tm, false)
  end.

End Cipher.

(** [get_user_tokens]: [self.tokens.get(user_id)], [None] when the entry
    is missing or falsy, otherwise [entry.get('data')], which raises
    [AttributeError] on an entry that is not a dict. *)
Definition get_user_tokens (user_id : string) (tm : t) : outcome json :=
  match tokens tm !! user_id with
  | None => Returns JNull
  | Some entry =>
      if truthy entry then
        match entry with
        | JDict kvs => Returns (assoc_get "data" kvs)
        | _ => Raises "AttributeError"
        end
      else Returns JNull
  end.

(** [is_token_valid]: [now] is [int(time.time())].  A missing or falsy
    entry is not valid.  [entry.get('stored_at', 0)] is 0 only when the
    key is absent, and must be a number (a bool counts as 0 or 1) for the
    subtraction not to raise. *)
Definition is_token_valid (user_id : string) (max_age now : Z) (tm : t)
    : outcome bool :=
  match tokens tm !! user_id with
  | None => Returns false
  | Some entry =>
      if truthy entry then
        match entry with
        | JDict kvs =>
            match assoc_find "stored_at" kvs with
            | None => Returns (now - 0 <? max_age)
            | Some (JNum stored_at) => Returns (now - stored_at <? max_age)
            | Some (JBool b) =>
                Returns (now - (if b then 1 else 0) <? max_age)
            | Some _ => Raises "TypeError"
            end
        | _ => Raises "AttributeError"
        end
      else Returns false
  end.

End TokenManager.

(** ** Fallback router: [router/hybrid_router.py] *)

Module Router.

Inductive RouterMethod : Type :=
  | DIRECT_API
  | WEBSOCKET_API
  | BROWSER_AUTOMATION
  | AUTO.

Global Instance RouterMethod_eq_dec : EqDecision RouterMethod.
Proof. solve_decision. Defined.

(** The attributes of a [HybridRouter].  A client attribute is [true]
    when it holds a client object and [false] when it is [None]; the
    router itself only ever tests these attributes for truthiness.  The
    shared [TokenManager] is carried in the state. *)
Record HybridRouter : Type := mk {
  user_id : string;
  token_manager : TokenManager.t;
  method : RouterMethod;
  ws_client : bool;
  direct_client : bool;
  browser_client : bool;
  last_method_used : option RouterMethod;
  direct_api_failures : Z;
  max_direct_api_failures : Z;
  websocket_failures : Z;
  max_websocket_failures : Z;
  browser_failures : Z;
  max_browser_failures : Z;
  successful_api_calls : Z;
  total_api_calls : Z;
  auth_data : json;
}.

Definition set_token_manager (v : TokenManager.t) (r : HybridRouter) :=
  mk (user_id r) v (method r) (ws_client r) (direct_client r)
     (browser_client r) (last_method_used r) (direct_api_failures r)
     (max_direct_api_failures r) (websocket_failures r)
     (max_websocket_failures r) (browser_failures r)
     (max_browser_failures r) (successful_api_calls r) (total_api_calls r)
     (auth_data r).

Definition set_ws_client (v : bool) (r : HybridRouter) :=
  mk (user_id r) (token_manager r) (method r) v (direct_client r)
     (browser_client r) (last_method_used r) (direct_api_failures r)
     (max_direct_api_failures r) (websocket_failures r)
     (max_websocket_failures r) (browser_failures r)
     (max_browser_failures r) (successful_api_calls r) (total_api_calls r)
     (auth_data r).

Definition set_direct_client (v : bool) (r : HybridRouter) :=
  mk (user_id r) (token_manager r) (method r) (ws_client r) v
     (browser_client r) (last_method_used r) (direct_api_failures r)
     (max_direct_api_failures r) (websocket_failures r)
     (max_websocket_failures r) (browser_failures r)
     (max_browser_failures r) (successful_api_calls r) (total_api_calls r)
     (auth_data r).

Definition set_browser_client (v : bool) (r : HybridRouter) :=
  mk (user_id r) (token_manager r) (method r) (ws_client r)
     (direct_client r) v (last_method_used r) (direct_api_failures r)
     (max_direct_api_failures r) (websocket_failures r)
     (max_websocket_failures r) (browser_failures r)
     (max_browser_failures r) (successful_api_calls r) (total_api_calls r)
     (auth_data r).

Definition set_last_method_used (v : option RouterMethod) (r : HybridRouter) :=
  mk (user_id r) (token_manager r) (method r) (ws_client r)
     (direct_client r) (browser_client r) v (direct_api_failures r)
     (max_direct_api_failures r) (websocket_failures r)
     (max_websocket_failures r) (browser_failures r)
     (max_browser_failures r) (successful_api_calls r) (total_api_calls r)
     (auth_data r).

Definition set_direct_api_failures (v : Z) (r : HybridRouter) :=
  mk (user_id r) (token_manager r) (method r) (ws_client r)
     (direct_client r) (browser_client r) (last_method_used r) v
     (max_direct_api_failures r) (websocket_failures r)
     (max_websocket_failures r) (browser_failures r)
     (max_browser_failures r) (successful_api_calls r) (total_api_calls r)
     (auth_data r).

Definition set_websocket_failures (v : Z) (r : HybridRouter) :=
  mk (user_id r) (token_manager r) (method r) (ws_client r)
     (direct_client r) (browser_client r) (last_method_used r)
     (direct_api_failures r) (max_direct_api_failures r) v
     (max_websocket_failures r) (browser_failures r)
     (max_browser_failures r) (successful_api_calls r) (total_api_calls r)
     (auth_data r).

Definition set_browser_failures (v : Z) (r : HybridRouter) :=
  mk (user_id r) (token_manager r) (method r) (ws_client r)
     (direct_client r) (browser_client r) (last_method_used r)
     (direct_api_failures r) (max_direct_api_failures r)
     (websocket_failures r) (max_websocket_failures r) v
     (max_browser_failures r) (successful_api_calls r) (total_api_calls r)
     (auth_data r).

Definition set_successful_api_calls (v : Z) (r : HybridRouter) :=
  mk (user_id r) (token_manager r) (method r) (ws_client r)
     (direct_client r) (browser_client r) (last_method_used r)
     (direct_api_failures r) (max_direct_api_failures r)
     (websocket_failures r) (max_websocket_failures r) (browser_failures r)
     (max_browser_failures r) v (total_api_calls r) (auth_data r).

Definition set_total_api_calls (v : Z) (r : HybridRouter) :=
  mk (user_id r) (token_manager r) (method r) (ws_client r)
     (direct_client r) (browser_client r) (last_method_used r)
     (direct_api_failures r) (max_direct_api_failures r)
     (websocket_failures r) (max_websocket_failures r) (browser_failures r)
     (max_browser_failures r) (successful_api_calls r) v (auth_data r).

Definition set_auth_data (v : json) (r : HybridRouter) :=
  mk (user_id r) (token_manager r) (method r) (ws_client r)
     (direct_client r) (browser_client r) (last_method_used r)
     (direct_api_failures r) (max_direct_api_failures r)
     (websocket_failures r) (max_websocket_failures r) (browser_failures r)
     (max_browser_failures r) (successful_api_calls r) (total_api_calls r) v.

(** [__init__] with the thresholds as arguments (the source fixes all
    three at 3).  [self.auth_data] is what the store returns for the
    user; a raising lookup propagates. *)
Definition init (uid : string) (tm : TokenManager.t) (m : RouterMethod)
    (max_d max_w max_b : Z) : outcome HybridRouter :=
  match TokenManager.get_user_tokens uid tm with
  | Returns a =>
      Returns (mk uid tm m false false false None 0 max_d 0 max_w 0 max_b 0 0 a)
  | Raises e => Raises e
  end.

(** [_determine_method]: the chosen method and the router afterwards
    (only the breaker reset changes it). *)
Definition _determine_method (r : HybridRouter) : RouterMethod * HybridRouter :=
  if negb (bool_decide (method r = AUTO)) then (method r, r)
  else if direct_client r && (0 <? successful_api_calls r)
          && (direct_api_failures r <? max_direct_api_failures r)
  then (DIRECT_API, r)
  else if ws_client r && (0 <? successful_api_calls r)
          && (websocket_failures r <? max_websocket_failures r)
  then (WEBSOCKET_API, r)
  else if direct_api_failures r <? max_direct_api_failures r
  then (DIRECT_API, r)
  else if websocket_failures r <? max_websocket_failures r
  then (WEBSOCKET_API, r)
  else if browser_failures r <? max_browser_failures r
  then (BROWSER_AUTOMATION, r)
  else (DIRECT_API,
        set_browser_failures 0
          (set_websocket_failures 0 (set_direct_api_failures 0 r))).

(** Transport operations the router invokes; [send_message] reports the
    ones it made, in order. *)
Inductive call : Type :=
  | DirectConnect | DirectSend | DirectWait
  | WsIsConnected | WsClose | WsConnect | WsSend | WsWait
  | BrowserStart | BrowserExtractOnStart | BrowserSend | BrowserExtract.

Global Instance call_eq_dec : EqDecision call.
Proof. solve_decision. Defined.

(** The strategy a transport operation belongs to. *)
Definition strategy_of (c : call) : RouterMethod :=
  match c with
  | DirectConnect | DirectSend | DirectWait => DIRECT_API
  | WsIsConnected | WsClose | WsConnect | WsSend | WsWait => WEBSOCKET_API
  | BrowserStart | BrowserExtractOnStart | BrowserSend | BrowserExtract =>
      BROWSER_AUTOMATION
  end.

(** Position in the fixed escalation order. *)
Definition rank (m : RouterMethod) : nat :=
  match m with
  | DIRECT_API => 0
  | WEBSOCKET_API => 1
  | BROWSER_AUTOMATION => 2
  | AUTO => 3
  end%nat.

(** What the transports, the clock and the file system answer during one
    [send_message] call.  Each field is the outcome of the operation of the
    same name, should the router reach it.  A message id or a response is
    [None] or a string; [wait_for_response] answers [None] on a timeout. *)
Record Transports : Type := {
  direct_connect : outcome bool;
  direct_send : outcome (option string);
  direct_wait : outcome (option string);
  ws_is_connected : bool;
  ws_close : outcome unit;
  ws_connect : outcome bool;
  ws_send : outcome (option string);
  ws_wait : outcome (option string);
  browser_initialized : bool;            (* browser_client.initialized *)
  browser_new : outcome unit;            (* the client constructor *)
  browser_start : outcome bool;
  browser_extract_on_start : outcome json;
  browser_send : outcome (option string);
  browser_extract : outcome json;
  clock_on_start : Z;                    (* int(time.time()) in _init_browser *)
  writable_on_start : TokenManager.writing;
  clock : Z;                             (* int(time.time()) in send_message *)
  writable : TokenManager.writing;
}.

(** What [send_message] returns is a string; the constructor records at
    which [return] it was produced. *)
Inductive result : Type :=
  | Success (m : RouterMethod) (response : string)
  | Failure (text : string).

Definition returned (res : result) : string :=
  match res with
  | Success _ s => s
  | Failure s => s
  end.

Section Send.

Variable encrypt_json : gmap string json -> outcome (list Byte.byte).

(** [self.auth_data = auth_data; self.token_manager.store_user_tokens(...)]
    under [if auth_data:]. *)
Definition remember_auth (a : json) (now : Z) (w : TokenManager.writing)
    (r : HybridRouter)
    : HybridRouter :=
  if truthy a then
    set_token_manager
      (fst (TokenManager.store_user_tokens encrypt_json (user_id r) a now w
              (token_manager r)))
      (set_auth_data a r)
  else r.

Definition _init_direct_api (r : HybridRouter) (env : Transports)
    : HybridRouter * bool * list call :=
  if direct_client r then (r, true, [])
  else
    match direct_connect env with
    | Returns true => (set_direct_client true r, true, [DirectConnect])
    | Returns false | Raises _ =>
        (set_direct_client false
           (set_direct_api_failures (direct_api_failures r + 1) r),
         false, [DirectConnect])
    end.

(** The part of [_init_websocket_api] after the check of an existing client. *)
Definition _connect_websocket (r : HybridRouter) (env : Transports)
    : HybridRouter * bool * list call :=
  match ws_connect env with
  | Returns true => (set_ws_client true r, true, [WsConnect])
  | Returns false | Raises _ =>
      (set_ws_client false
         (set_websocket_failures (websocket_failures r + 1) r),
       false, [WsConnect])
  end.

Definition _init_websocket_api (r : HybridRouter) (env : Transports)
    : HybridRouter * bool * list call :=
  if ws_client r then
    if ws_is_connected env then (r, true, [WsIsConnected])
    else
      match ws_close env with
      | Returns _ =>
          let '(r1, ok, t) := _connect_websocket r env in
          (r1, ok, [WsIsConnected; WsClose] ++ t)
      | Raises _ =>
          (set_ws_client false
             (set_websocket_failures (websocket_failures r + 1) r),
           false, [WsIsConnected; WsClose])
      end
  else _connect_websocket r env.

Definition _init_browser (r : HybridRouter) (env : Transports)
    : HybridRouter * bool * list call :=
  if browser_client r && browser_initialized env then (r, true, [])
  else
    match browser_new env with
    | Raises _ =>
        (set_browser_failures (browser_failures r + 1) r, false, [])
    | Returns _ =>
        let r1 := set_browser_client true r in
        match browser_start env with
        | Returns true =>
            match browser_extract_on_start env with
            | Returns a =>
                (remember_auth a (clock_on_start env) (writable_on_start env) r1,
                 true, [BrowserStart; BrowserExtractOnStart])
            | Raises _ =>
                (set_browser_failures (browser_failures r1 + 1) r1, false,
                 [BrowserStart; BrowserExtractOnStart])
            end
        | Returns false | Raises _ =>
            (set_browser_failures (browser_failures r1 + 1) r1, false,
             [BrowserStart])
        end
    end.

(** The body of [if method == RouterMethod.DIRECT_API:]; [None] when
    control falls out of the block towards the WebSocket API. *)
Definition try_direct (r : HybridRouter) (env : Transports)
    : HybridRouter * option result * list call :=
  let '(r1, initialized, t) := _init_direct_api r env in
  if initialized then
    match direct_send env with
    | Raises _ =>
        (set_direct_api_failures (direct_api_failures r1 + 1) r1, None,
         t ++ [DirectSend])
    | Returns message_id =>
        if truthy_str message_id then
          match direct_wait env with
          | Raises _ =>
              (set_direct_api_failures (direct_api_failures r1 + 1) r1, None,
               t ++ [DirectSend; DirectWait])
          | Returns response =>
              if truthy_str response then
                (set_successful_api_calls (successful_api_calls r1 + 1)
                   (set_direct_api_failures 0 r1),
                 Some (Success DIRECT_API (py_str response)),
                 t ++ [DirectSend; DirectWait])
              else (r1, None, t ++ [DirectSend; DirectWait])
          end
        else (r1, None, t ++ [DirectSend])
    end
  else (r1, None, t).

(** The body of [if method == RouterMethod.WEBSOCKET_API:]. *)
Definition try_websocket (r : HybridRouter) (env : Transports)
    : HybridRouter * option result * list call :=
  let '(r1, initialized, t) := _init_websocket_api r env in
  if initialized then
    match ws_send env with
    | Raises _ =>
        (set_websocket_failures (websocket_failures r1 + 1) r1, None,
         t ++ [WsSend])
    | Returns message_id =>
        if truthy_str message_id then
          match ws_wait env with
          | Raises _ =>
              (set_websocket_failures (websocket_failures r1 + 1) r1, None,
               t ++ [WsSend; WsWait])
          | Returns response =>
              if truthy_str response then
                (set_successful_api_calls (successful_api_calls r1 + 1)
                   (set_websocket_failures 0 r1),
                 Some (Success WEBSOCKET_API (py_str response)),
                 t ++ [WsSend; WsWait])
              else (r1, None, t ++ [WsSend; WsWait])
          end
        else (r1, None, t ++ [WsSend])
    end
  else (r1, None, t).

(** The body of [if method == RouterMethod.BROWSER_AUTOMATION:].  Every
    exception it raises is caught by the [except] around the whole of
    [send_message], which returns ["Error: ..."]. *)
Definition try_browser (r : HybridRouter) (env : Transports)
    : HybridRouter * result * list call :=
  let '(r1, initialized, t) := _init_browser r env in
  if negb initialized then
    (r1, Failure ("Error: " +:+ "Failed to initialize browser client"), t)
  else
    match browser_send env with
    | Raises e => (r1, Failure ("Error: " +:+ e), t ++ [BrowserSend])
    | Returns response =>
        if truthy_str response && negb (contains "Error:" (py_str response))
        then
          let r2 := set_browser_failures 0 r1 in
          match browser_extract env with
          | Raises e =>
              (r2, Failure ("Error: " +:+ e), t ++ [BrowserSend; BrowserExtract])
          | Returns a =>
              (remember_auth a (clock env) (writable env) r2,
               Success BROWSER_AUTOMATION (py_str response),
               t ++ [BrowserSend; BrowserExtract])
          end
        else
          (set_browser_failures (browser_failures r1 + 1) r1,
           Failure ("Error: " +:+ "Browser automation failed: "
                      +:+ py_str response),
           t ++ [BrowserSend])
    end.

(** The three [if method == ...] blocks in sequence, entered with the
    current value of the local variable [method]. *)
Definition from_browser (m : RouterMethod) (r : HybridRouter)
    (env : Transports) : HybridRouter * result * list call :=
  if bool_decide (m = BROWSER_AUTOMATION) then try_browser r env
  else
    (r, Failure "Failed to get a response from Replit Agent through any method.",
     []).

Definition from_websocket (m : RouterMethod) (r : HybridRouter)
    (env : Transports) : HybridRouter * result * list call :=
  if bool_decide (m = WEBSOCKET_API) then
    let '(r1, res, t) := try_websocket r env in
    match res with
    | Some x => (r1, x, t)
    | None =>
        let '(r2, x, t2) :=
          from_browser BROWSER_AUTOMATION
            (set_last_method_used (Some BROWSER_AUTOMATION) r1) env in
        (r2, x, t ++ t2)
    end
  else from_browser m r env.

Definition from_direct (m : RouterMethod) (r : HybridRouter)
    (env : Transports) : HybridRouter * result * list call :=
  if bool_decide (m = DIRECT_API) then
    let '(r1, res, t) := try_direct r env in
    match res with
    | Some x => (r1, x, t)
    | None =>
        let '(r2, x, t2) :=
          from_websocket WEBSOCKET_API
            (set_last_method_used (Some WEBSOCKET_API) r1) env in
        (r2, x, t ++ t2)
    end
  else from_websocket m r env.

(** [send_message(text, on_update)].  The callback is only handed on to the
    transports, whose answers are in [env]. *)
Definition send_message (r : HybridRouter) (text : string) (env : Transports)
    : HybridRouter * result * list call :=
  let '(m, r0) := _determine_method r in
  let r1 := set_total_api_calls (total_api_calls r0 + 1)
              (set_last_method_used (Some m) r0) in
  from_direct m r1 env.

(** [close()]: whatever closing the clients does, the references are
    cleared afterwards. *)
Definition close (r : HybridRouter) : HybridRouter :=
  set_browser_client false (set_ws_client false (set_direct_client false r)).

(** A session: [send_message] calls and [close] calls in sequence. *)
Inductive op : Type :=
  | Send (text : string) (env : Transports)
  | Close.

Fixpoint run (ops : list op) (r : HybridRouter)
    : HybridRouter * list result :=
  match ops with
  | [] => (r, [])
  | Send text env :: rest =>
      let '(r1, res, _) := send_message r text env in
      let '(r2, rs) := run rest r1 in
      (r2, res :: rs)
  | Close :: rest => run rest (close r)
  end.

End Send.

End Router.

(** ** Callbacks and what a transport does with them *)

(** A callback is known by a name; calling it is recorded as an event that
    carries the request it was registered for and the text it was given. *)
Definition callback : Type := nat.

Inductive event : Type :=
  | Update (cb : callback) (message_id : string) (chunk : string)
  | Complete (cb : callback) (message_id : string) (text : string)
  | SetResult (message_id : string) (text : string).   (* future.set_result *)

(** The chunks handed to update callbacks of one request, in order. *)
Fixpoint updates_for (message_id : string) (evs : list event) : list string :=
  match evs with
  | [] => []
  | Update _ m chunk :: rest =>
      if String.eqb m message_id then chunk :: updates_for message_id rest
      else updates_for message_id rest
  | _ :: rest => updates_for message_id rest
  end.

(** Concatenation of texts in order. *)
Fixpoint join (chunks : list string) : string :=
  match chunks with
  | [] => EmptyString
  | s :: rest => s +:+ join rest
  end.

(** ** Persistent socket transport: [api/websocket_client.py] *)

Module WebSocketClient.

Inductive ConnectionState : Type :=
  | DISCONNECTED
  | CONNECTING
  | CONNECTED
  | HANDSHAKING
  | NO_CONNECTION
  | BACKING_OFF
  | ERROR
  | CLOSED.

Global Instance ConnectionState_eq_dec : EqDecision ConnectionState.
Proof. solve_decision. Defined.

(** An entry of [self.responses].  Clock readings ([time.time()]) are
    integers, in microseconds. *)
Record PendingRequest : Type := {
  content : string;
  complete : bool;
  created_at : Z;
  updated_at : Z;
}.

(** An entry of [self.handlers]: which of the two keys are present. *)
Record Handlers : Type := {
  on_update : option callback;
  on_complete : option callback;
}.

Record ReplitWebSocketClient : Type := mk {
  state : ConnectionState;
  responses : gmap string PendingRequest;
  handlers : gmap string Handlers;
  client_id : string;
  session_id : string;
  token_cluster : string;
  backoff_time : Z;
  max_backoff_time : Z;
  reconnect_attempts : Z;
  max_reconnect_attempts : Z;
}.

Definition set_state (v : ConnectionState) (c : ReplitWebSocketClient) :=
  mk v (responses c) (handlers c) (client_id c) (session_id c)
     (token_cluster c) (backoff_time c) (max_backoff_time c)
     (reconnect_attempts c) (max_reconnect_attempts c).

Definition set_responses (v : gmap string PendingRequest)
    (c : ReplitWebSocketClient) :=
  mk (state c) v (handlers c) (client_id c) (session_id c)
     (token_cluster c) (backoff_time c) (max_backoff_time c)
     (reconnect_attempts c) (max_reconnect_attempts c).

Definition set_handlers (v : gmap string Handlers)
    (c : ReplitWebSocketClient) :=
  mk (state c) (responses c) v (client_id c) (session_id c)
     (token_cluster c) (backoff_time c) (max_backoff_time c)
     (reconnect_attempts c) (max_reconnect_attempts c).

Definition set_params (cid sid cluster : string) (c : ReplitWebSocketClient) :=
  mk (state c) (responses c) (handlers c) cid sid cluster (backoff_time c)
     (max_backoff_time c) (reconnect_attempts c) (max_reconnect_attempts c).

Definition set_reconnect_attempts (v : Z) (c : ReplitWebSocketClient) :=
  mk (state c) (responses c) (handlers c) (client_id c) (session_id c)
     (token_cluster c) (backoff_time c) (max_backoff_time c) v
     (max_reconnect_attempts c).

(** [__init__]: [cid] and [sid] are [auth_data.get('client_id', '')] and
    [auth_data.get('session_id', '')]. *)
Definition init (cid sid : string) : ReplitWebSocketClient :=
  mk DISCONNECTED ∅ ∅ cid sid "picard" 1 30 0 5.

(** What the network answers during one [connect()]. *)
Record Link : Type := {
  extracted : string * string * string;  (* ids after _extract_connection_params *)
  dial : outcome unit;                   (* websockets.connect *)
  handshake : outcome unit;              (* ws.send of the handshake *)
}.

(** [_extract_connection_params]: the three parameters as the search of
    the authentication bundle leaves them, and whether both ids are set. *)
Definition _extract_connection_params (c : ReplitWebSocketClient) (l : Link)
    : ReplitWebSocketClient * bool :=
  let '(cid, sid, cluster) := extracted l in
  (set_params cid sid cluster c,
   negb (String.eqb cid EmptyString) && negb (String.eqb sid EmptyString)).

(** The [try] block of [connect]. *)
Definition open_socket (c : ReplitWebSocketClient) (l : Link)
    : ReplitWebSocketClient * bool :=
  match dial l with
  | Raises _ => (set_state NO_CONNECTION c, false)
  | Returns _ =>
      match handshake l with
      | Raises _ => (set_state NO_CONNECTION (set_state HANDSHAKING c), false)
      | Returns _ =>
          (set_reconnect_attempts 0
             (set_state CONNECTED (set_state HANDSHAKING c)), true)
      end
  end.

Definition connect (c : ReplitWebSocketClient) (l : Link)
    : ReplitWebSocketClient * bool :=
  if bool_decide (state c = CONNECTING) || bool_decide (state c = CONNECTED)
  then (c, true)
  else
    let c1 := set_state CONNECTING c in
    if String.eqb (client_id c1) EmptyString || String.eqb (session_id c1) EmptyString then
      let '(c2, found) := _extract_connection_params c1 l in
      if found then open_socket c2 l else (set_state ERROR c2, false)
    else open_socket c1 l.

(** [reconnect]: the client afterwards, the value returned, and the delay
    passed to [asyncio.sleep] when there was one.  [2 ** (n - 1)] is an
    integer because [n] is at least 1 after the increment of a counter
    that starts at 0. *)
Definition reconnect (c : ReplitWebSocketClient) (l : Link)
    : ReplitWebSocketClient * bool * option Z :=
  if max_reconnect_attempts c <=? reconnect_attempts c then
    (set_state ERROR c, false, None)
  else
    let c1 :=
      set_state BACKING_OFF
        (set_reconnect_attempts (reconnect_attempts c + 1) c) in
    let backoff :=
      Z.min (backoff_time c1 * 2 ^ (reconnect_attempts c1 - 1))
            (max_backoff_time c1) in
    let '(c2, ok) := connect c1 l in
    (c2, ok, Some backoff).

(** An inbound message after [json.loads].  [other] stands for everything
    the loop only logs: text that is not JSON, ['state'] messages, unknown
    types, and messages whose fields raise when used. *)
Inductive frame : Type :=
  | agentResponse (message_id : string) (chunk : string)
  | agentResponseComplete (message_id : string)
  | other.

(** One iteration of the [async for] in [_process_messages]; [now] is the
    reading of [time.time()]. *)
Definition process_message (now : Z) (f : frame) (c : ReplitWebSocketClient)
    : ReplitWebSocketClient * list event :=
  match f with
  | agentResponse mid chunk =>
      match responses c !! mid with
      | Some p =>
          let p' := {| content := content p +:+ chunk;
                       complete := complete p;
                       created_at := created_at p;
                       updated_at := now |} in
          (set_responses (<[mid := p']> (responses c)) c,
           match handlers c !! mid with
           | Some {| on_update := Some cb |} => [Update cb mid chunk]
           | _ => []
           end)
      | None => (c, [])
      end
  | agentResponseComplete mid =>
      match responses c !! mid with
      | Some p =>
          let p' := {| content := content p;
                       complete := true;
                       created_at := created_at p;
                       updated_at := updated_at p |} in
          (set_responses (<[mid := p']> (responses c)) c,
           match handlers c !! mid with
           | Some {| on_complete := Some cb |} => [Complete cb mid (content p)]
           | _ => []
           end)
      | None => (c, [])
      end
  | other => (c, [])
  end.

(** The [async for] loop over the messages the socket delivers, each with
    the clock reading at its arrival. *)
Fixpoint process_messages (frames : list (Z * frame))
    (c : ReplitWebSocketClient) : ReplitWebSocketClient * list event :=
  match frames with
  | [] => (c, [])
  | (now, f) :: rest =>
      let '(c1, ev) := process_message now f c in
      let '(c2, evs) := process_messages rest c1 in
      (c2, ev ++ evs)
  end.

(** How the message stream ends. *)
Inductive stream_end : Type :=
  | Finished                      (* the iteration ends without an exception *)
  | ConnectionClosed (l : Link)   (* websockets.exceptions.ConnectionClosed *)
  | Crashed.                      (* any other exception *)

(** [_process_messages]: the loop, then the handler of the exception that
    ended it, if one did. *)
Definition _process_messages (frames : list (Z * frame)) (e : stream_end)
    (c : ReplitWebSocketClient) : ReplitWebSocketClient * list event :=
  let '(c1, evs) := process_messages frames c in
  match e with
  | Finished => (c1, evs)
  | ConnectionClosed l =>
      (fst (fst (reconnect (set_state NO_CONNECTION c1) l)), evs)
  | Crashed => (set_state ERROR c1, evs)
  end.

Section Hash.

(** Python's [hash] on strings: fixed within a process, unknown otherwise. *)
Variable hash : string -> Z.

(** [f"msg_{int(time.time() * 1000)}_{hash(text) % 10000}"], from a clock
    reading in microseconds. *)
Definition generate_message_id (now : Z) (text : string) : string :=
  "msg_" +:+ pretty (now ÷ 1000) +:+ "_" +:+ pretty (hash text `mod` 10000).

(** The clock readings and network answers of one [send_message]. *)
Record Sending : Type := {
  clock_id : Z;
  clock_created : Z;
  clock_updated : Z;
  link : Link;
  transmit : outcome unit;     (* ws.send of the prompt *)
}.

Definition send_message (c : ReplitWebSocketClient) (text : string)
    (message_id : option string) (update complete_cb : option callback)
    (env : Sending) : ReplitWebSocketClient * option string :=
  let mid :=
    match message_id with
    | Some m => m
    | None => generate_message_id (clock_id env) text
    end in
  let fresh := {| content := EmptyString; complete := false;
                  created_at := clock_created env;
                  updated_at := clock_updated env |} in
  let c1 := set_responses (<[mid := fresh]> (responses c)) c in
  let c2 :=
    if present update || present complete_cb then
      set_handlers
        (<[mid := {| on_update := update; on_complete := complete_cb |}]>
           (handlers c1)) c1
    else c1 in
  let '(c3, ok) :=
    if bool_decide (state c2 = CONNECTED) then (c2, true)
    else connect c2 (link env) in
  if ok then
    match transmit env with
    | Returns _ => (c3, Some mid)
    | Raises _ => (c3, None)
    end
  else (c3, None).

End Hash.

(** What happens while [wait_for_response] sleeps: the listener task
    handles a message, or the connection state is changed under it. *)
Inductive activity : Type :=
  | Arrives (now : Z) (f : frame)
  | Becomes (s : ConnectionState).

Fixpoint during (acts : list activity) (c : ReplitWebSocketClient)
    : ReplitWebSocketClient * list event :=
  match acts with
  | [] => (c, [])
  | Arrives now f :: rest =>
      let '(c1, ev) := process_message now f c in
      let '(c2, evs) := during rest c1 in
      (c2, ev ++ evs)
  | Becomes s :: rest => during rest (set_state s c)
  end.

(** One turn of the polling loop: the clock reading of the timeout test
    and what happens during the following [asyncio.sleep(0.1)]. *)
Record tick : Type := {
  reading : Z;
  sleep : list activity;
}.

(** The [while] loop of [wait_for_response].  [None] when the schedule
    ends with the loop still polling. *)
Fixpoint poll (ticks : list tick) (c : ReplitWebSocketClient)
    (message_id : string) (start_time timeout : Z)
    : option (ReplitWebSocketClient * outcome (option string)) :=
  match responses c !! message_id with
  | None => Some (c, Raises "KeyError")
  | Some p =>
      if complete p then Some (c, Returns (Some (content p)))
      else
        match ticks with
        | [] => None
        | tk :: rest =>
            if timeout <? reading tk - start_time then Some (c, Returns None)
            else if bool_decide (state c = ERROR)
                    || bool_decide (state c = CLOSED)
            then Some (c, Returns None)
            else poll rest (fst (during (sleep tk) c)) message_id
                   start_time timeout
        end
  end.

(** [wait_for_response(message_id, timeout)]; [start_time] is the first
    clock reading and [timeout] is in the unit of the clock. *)
Definition wait_for_response (c : ReplitWebSocketClient)
    (message_id : string) (timeout start_time : Z) (ticks : list tick)
    : option (ReplitWebSocketClient * outcome (option string)) :=
  match responses c !! message_id with
  | None => Some (c, Returns None)
  | Some _ => poll ticks c message_id start_time timeout
  end.

End WebSocketClient.

(** ** Token socket transport: [api/direct_api_client.py] *)

Module DirectAPIClient.

(** What is stored under ['on_complete']: the caller's callback, or the
    [on_complete_wrapper] that [wait_for_response] installs around what was
    stored before. *)
Inductive completion : Type :=
  | UserCallback (cb : callback)
  | Wrapper (original : option completion).

(** An entry of [self.message_callbacks]. *)
Record Callbacks : Type := {
  on_update : option callback;
  on_complete : option completion;
  timestamp : Z;
}.

Record ReplitDirectAPIClient : Type := mk {
  initialized : bool;
  ws : bool;                                (* a socket object or None *)
  connection_established : bool;            (* the asyncio.Event *)
  message_callbacks : gmap string Callbacks;
}.

Definition set_message_callbacks (v : gmap string Callbacks)
    (c : ReplitDirectAPIClient) :=
  mk (initialized c) (ws c) (connection_established c) v.

Definition set_connection (i w e : bool) (c : ReplitDirectAPIClient) :=
  mk i w e (message_callbacks c).

Definition init : ReplitDirectAPIClient := mk false false false ∅.

(** [connect]: [Raises] when no authentication data can be loaded,
    [Returns false] after a failed attempt (which ends in [close()]),
    [Returns true] once the server has confirmed the connection. *)
Definition connect (c : ReplitDirectAPIClient) (answer : outcome bool)
    : ReplitDirectAPIClient * outcome bool :=
  match answer with
  | Raises e => (c, Raises e)
  | Returns true => (set_connection true true true c, Returns true)
  | Returns false => (set_connection false false false c, Returns false)
  end.

(** Calling what is stored under ['on_complete'] with [text]. *)
Fixpoint invoke (k : completion) (message_id text : string) : list event :=
  match k with
  | UserCallback cb => [Complete cb message_id text]
  | Wrapper original =>
      match original with
      | Some k' => invoke k' message_id text
      | None => []
      end ++ [SetResult message_id text]
  end.

(** An inbound message after [json.loads]; [message_id] is
    [data.get('messageId')] and the text is [data.get('content', '')]. *)
Inductive frame : Type :=
  | connection_established_frame
  | agent_stream (message_id : option string) (chunk : string)
  | agent_response (message_id : option string) (text : string)
  | other.

(** One iteration of the [async for] in [_process_messages]. *)
Definition process_message (f : frame) (c : ReplitDirectAPIClient)
    : ReplitDirectAPIClient * list event :=
  match f with
  | connection_established_frame =>
      (mk (initialized c) (ws c) true (message_callbacks c), [])
  | agent_stream message_id chunk =>
      if truthy_str message_id then
        match message_callbacks c !! py_str message_id with
        | Some {| on_update := Some cb |} =>
            (c, [Update cb (py_str message_id) chunk])
        | _ => (c, [])
        end
      else (c, [])
  | agent_response message_id text =>
      if truthy_str message_id then
        match message_callbacks c !! py_str message_id with
        | Some {| on_complete := Some k |} =>
            (set_message_callbacks
               (delete (py_str message_id) (message_callbacks c)) c,
             invoke k (py_str message_id) text)
        | _ => (c, [])
        end
      else (c, [])
  | other => (c, [])
  end.

Fixpoint process_messages (frames : list frame) (c : ReplitDirectAPIClient)
    : ReplitDirectAPIClient * list event :=
  match frames with
  | [] => (c, [])
  | f :: rest =>
      let '(c1, ev) := process_message f c in
      let '(c2, evs) := process_messages rest c1 in
      (c2, ev ++ evs)
  end.

(** [_process_messages]: the loop, then the [finally] clause. *)
Definition _process_messages (frames : list frame) (c : ReplitDirectAPIClient)
    : ReplitDirectAPIClient * list event :=
  if ws c then
    let '(c1, evs) := process_messages frames c in
    (mk false (ws c1) false (message_callbacks c1), evs)
  else (c, []).

(** The answers of the outside world during one [send_message]. *)
Record Sending : Type := {
  reconnect : outcome bool;    (* connect(), when it is needed *)
  uuid : string;               (* utils.generate_uuid() *)
  now : Z;                     (* time.time() *)
  transmit : outcome unit;     (* ws.send of the query *)
}.

Definition send_message (c : ReplitDirectAPIClient) (text : string)
    (update complete_cb : option callback) (env : Sending)
    : ReplitDirectAPIClient * outcome string :=
  let '(c1, connected) :=
    if negb (initialized c) || negb (ws c) then connect c (reconnect env)
    else (c, Returns true) in
  match connected with
  | Raises e => (c1, Raises e)
  | Returns false => (c1, Raises "Failed to connect to WebSocket")
  | Returns true =>
      let message_id := uuid env in
      let entry := {| on_update := update;
                      on_complete := UserCallback <$> complete_cb;
                      timestamp := now env |} in
      let c2 :=
        set_message_callbacks (<[message_id := entry]> (message_callbacks c1))
          c1 in
      match transmit env with
      | Returns _ => (c2, Returns message_id)
      | Raises e =>
          (set_message_callbacks (delete message_id (message_callbacks c2)) c2,
           Raises e)
      end
  end.

(** The text a [SetResult] event gives to the future of [message_id]. *)
Fixpoint resolved (message_id : string) (evs : list event) : option string :=
  match evs with
  | [] => None
  | SetResult m text :: rest =>
      if String.eqb m message_id then Some text else resolved message_id rest
  | _ :: rest => resolved message_id rest
  end.

(** [asyncio.wait_for(response_future, timeout)]: the listener handles the
    messages that arrive before the deadline, one at a time, until one of
    them sets the future; [None] is [asyncio.TimeoutError]. *)
Fixpoint await (arrivals : list frame) (c : ReplitDirectAPIClient)
    (message_id : string)
    : ReplitDirectAPIClient * option string * list event :=
  match arrivals with
  | [] => (c, None, [])
  | f :: rest =>
      let '(c1, ev) := process_message f c in
      match resolved message_id ev with
      | Some text => (c1, Some text, ev)
      | None =>
          let '(c2, r, evs) := await rest c1 message_id in
          (c2, r, ev ++ evs)
      end
  end.

(** [wait_for_response(message_id, timeout)]; [arrivals] are the messages
    the socket delivers within [timeout]. *)
Definition wait_for_response (c : ReplitDirectAPIClient) (message_id : string)
    (arrivals : list frame)
    : ReplitDirectAPIClient * option string * list event :=
  match message_callbacks c !! message_id with
  | None => (c, None, [])
  | Some cbs =>
      let wrapped := {| on_update := on_update cbs;
                        on_complete := Some (Wrapper (on_complete cbs));
                        timestamp := timestamp cbs |} in
      let c1 :=
        set_message_callbacks (<[message_id := wrapped]> (message_callbacks c))
          c in
      let '(c2, r, evs) := await arrivals c1 message_id in
      (set_message_callbacks (delete message_id (message_callbacks c2)) c2,
       r, evs)
  end.

End DirectAPIClient.

(** ** Text formatting: [utils.py] and [telegram_bot.py] *)

(** A Python [str] where the number of its characters matters: the list
    of its code points.  ([len] and slicing count code points; a Rocq
    [string] counts bytes, and a character outside ASCII takes several.) *)
Definition unicode : Type := list N.

(** The text of a literal all of whose characters are ASCII. *)
Definition ascii_text (s : string) : unicode :=
  Ascii.N_of_ascii <$> String.list_ascii_of_string s.

Module Utils.

(** The limit [MAX_LENGTH] of [format_response_for_telegram]. *)
Definition MAX_LENGTH : nat := 4000.

(** [format_response_for_telegram(text)], the same function in [utils.py]
    and in [telegram_bot.py]: [''] for a falsy text, the text itself when
    it has at most [MAX_LENGTH] characters, otherwise
    [text[:MAX_LENGTH - 3] + "..."]. *)
Definition format_response_for_telegram (text : unicode) : unicode :=
  match text with
  | [] => []
  | _ :: _ =>
      if (length text <=? MAX_LENGTH)%nat then text
      else take (MAX_LENGTH - 3) text ++ ascii_text "..."
  end.

End Utils.

Module TelegramBot.

(** The segment length of the fallback in [handle_message]. *)
Definition SEGMENT : nat := 4000.

(** [if chunk:] *)
Definition nonempty (chunk : unicode) : bool :=
  match chunk with
  | [] => false
  | _ :: _ => true
  end.

(** The segments that the fallback of [handle_message] sends when editing
    the reply fails: [text[i:i+4000]] for [i] in [range(0, len(text), 4000)],
    those that are not empty. *)
Definition segments (text : unicode) : list unicode :=
  List.filter nonempty
    (List.map (fun k => take SEGMENT (drop (k * SEGMENT) text))
       (seq 0 ((length text + (SEGMENT - 1)) / SEGMENT))).

(** [UPDATE_INTERVAL], one second in the unit of the clock
    (microseconds). *)
Definition UPDATE_INTERVAL : Z := 1000000.

(** The two variables that [update_callback] shares with
    [process_message]. *)
Record Stream : Type := {
  response_buffer : unicode;
  last_update_time : Z;
}.

(** A call of [edit_message_text]: when, with which text, and whether it
    returned rather than raised. *)
Record edit : Type := {
  at_time : Z;
  shown : unicode;
  accepted : bool;
}.

(** [update_callback(content)] of [handle_message]: [current_time] is the
    reading of [time.time()] and [edit_ok] says whether
    [edit_message_text] returns. *)
Definition update_callback (content : unicode) (current_time : Z)
    (edit_ok : bool) (s : Stream) : Stream * list edit :=
  let buffer := response_buffer s ++ content in
  if UPDATE_INTERVAL <=? current_time - last_update_time s then
    ({| response_buffer := buffer;
        last_update_time :=
          if edit_ok then current_time else last_update_time s |},
     [{| at_time := current_time;
         shown := Utils.format_response_for_telegram buffer;
         accepted := edit_ok |}])
  else
    ({| response_buffer := buffer; last_update_time := last_update_time s |},
     []).

(** The updates of one response, in order: each chunk with the clock
    reading and the fate of the edit at its arrival. *)
Fixpoint updates (chunks : list (unicode * Z * bool)) (s : Stream)
    : Stream * list edit :=
  match chunks with
  | [] => (s, [])
  | (content, current_time, edit_ok) :: rest =>
      let '(s1, e) := update_callback content current_time edit_ok s in
      let '(s2, es) := updates rest s1 in
      (s2, e ++ es)
  end.

(** What a user is finally shown for a router response: the formatted
    text, or a fixed notice when that is empty or only blank; [blank] is
    [str.isspace]. *)
Definition final_text (blank : unicode -> bool) (response : unicode)
    : unicode :=
  let formatted := Utils.format_response_for_telegram response in
  if negb (nonempty formatted) || blank formatted then
    ascii_text "I received an empty response from Replit AI. Please try again or reset your session with /reset."
  else formatted.

End TelegramBot.

(** ** Vocabulary of the properties *)

(** The tokens file cannot be loaded: it is missing, cannot be read, or
    does not decrypt. *)
Definition load_fails (decrypt_json : list Byte.byte -> outcome (gmap string json))
    (disk : TokenManager.file) : Prop :=
  match disk with
  | TokenManager.Absent | TokenManager.Unreadable => True
  | TokenManager.Stored data => exists e, decrypt_json data = Raises e
  end.

(** A call answered [True]. *)
Definition answered_true (o : outcome bool) : bool :=
  match o with
  | Returns true => true
  | _ => false
  end.

(** A call that returned rather than raised. *)
Definition came_back {A : Type} (o : outcome A) : bool :=
  match o with
  | Returns _ => true
  | Raises _ => false
  end.

(** Every transport is out of reach: no connection can be made and the
    browser does not start. *)
Definition unreachable (env : Router.Transports) : bool :=
  negb (answered_true (Router.direct_connect env))
  && negb (answered_true (Router.ws_connect env))
  && negb (Router.browser_initialized env)
  && (negb (came_back (Router.browser_new env))
      || negb (answered_true (Router.browser_start env))).

(** A socket transport that accepts the message and then gives no
    answer: [send_message] returns a message id and [wait_for_response]
    returns [None], which is what its timeout produces. *)
Definition times_out (send wait : outcome (option string)) : bool :=
  match send, wait with
  | Returns (Some message_id), Returns None =>
      negb (String.eqb message_id EmptyString)
  | _, _ => false
  end.

(** Every strategy fails, the two socket strategies without raising: both
    are connected and time out, and the browser does not start. *)
Definition silent (env : Router.Transports) : bool :=
  answered_true (Router.direct_connect env)
  && times_out (Router.direct_send env) (Router.direct_wait env)
  && Router.ws_is_connected env
  && answered_true (Router.ws_connect env)
  && times_out (Router.ws_send env) (Router.ws_wait env)
  && negb (Router.browser_initialized env)
  && (negb (came_back (Router.browser_new env))
      || negb (answered_true (Router.browser_start env))).

(** A router in automatic mode that has never counted a success, whose
    two socket counters stand at zero and whose browser counter stands at
    [k], with the direct threshold at [n]. *)
Definition quiet (k n : Z) (r : Router.HybridRouter) : Prop :=
  Router.method r = Router.AUTO
  /\ Router.successful_api_calls r = 0
  /\ Router.direct_api_failures r = 0
  /\ Router.websocket_failures r = 0
  /\ Router.browser_failures r = k
  /\ Router.max_direct_api_failures r = n.

(** The breaker reset: the three failure counters back to zero. *)
Definition reset_counters (r : Router.HybridRouter) : Router.HybridRouter :=
  Router.set_browser_failures 0
    (Router.set_websocket_failures 0 (Router.set_direct_api_failures 0 r)).

(** The strategy of the first transport operation of a call, if any. *)
Definition first_strategy (t : list Router.call) : option Router.RouterMethod :=
  Router.strategy_of <$> head t.

(** A router in automatic mode holding no socket client, whose three
    counters all stand at [k] with all three thresholds at [n]. *)
Definition all_at (k n : Z) (r : Router.HybridRouter) : Prop :=
  Router.method r = Router.AUTO
  /\ Router.direct_client r = false
  /\ Router.ws_client r = false
  /\ Router.direct_api_failures r = k
  /\ Router.websocket_failures r = k
  /\ Router.browser_failures r = k
  /\ Router.max_direct_api_failures r = n
  /\ Router.max_websocket_failures r = n
  /\ Router.max_browser_failures r = n.

(** Whether a result counts towards [successful_api_calls]. *)
Definition counted (res : Router.result) : Z :=
  match res with
  | Router.Success Router.DIRECT_API _ => 1
  | Router.Success Router.WEBSOCKET_API _ => 1
  | _ => 0
  end.

(** What a successful return leaves behind: the counter of the strategy
    that answered is zero. *)
Definition counter_cleared (r' : Router.HybridRouter) (res : Router.result) : Prop :=
  match res with
  | Router.Success Router.DIRECT_API _ => Router.direct_api_failures r' = 0
  | Router.Success Router.WEBSOCKET_API _ => Router.websocket_failures r' = 0
  | Router.Success Router.BROWSER_AUTOMATION _ => Router.browser_failures r' = 0
  | _ => True
  end.

Definition accounted (r r' : Router.HybridRouter) (res : Router.result) : Prop :=
  Router.successful_api_calls r' = Router.successful_api_calls r + counted res
  /\ counter_cleared r' res.

(** The operations of each strategy, in the order the router makes them. *)
Definition direct_calls : list Router.call :=
  [Router.DirectConnect; Router.DirectSend; Router.DirectWait].

Definition websocket_calls : list Router.call :=
  [Router.WsIsConnected; Router.WsClose; Router.WsConnect; Router.WsSend;
   Router.WsWait].

Definition browser_calls : list Router.call :=
  [Router.BrowserStart; Router.BrowserExtractOnStart; Router.BrowserSend;
   Router.BrowserExtract].

(** Every operation of a trace belongs to strategy [m] or to one before it
    in the escalation order. *)
Definition within (m : Router.RouterMethod) (t : list Router.call) : Prop :=
  Forall (fun c => (Router.rank (Router.strategy_of c) <= Router.rank m)%nat) t.

(** The texts given to completion callbacks of request [message_id] agree
    with a buffer that starts at [buf] and grows by every chunk given to an
    update callback of that request. *)
Fixpoint consistent (message_id buf : string) (evs : list event) : Prop :=
  match evs with
  | [] => True
  | Update _ m chunk :: rest =>
      consistent message_id
        (if String.eqb m message_id then buf +:+ chunk else buf) rest
  | Complete _ m text :: rest =>
      (m = message_id -> text = buf) /\ consistent message_id buf rest
  | SetResult _ _ :: rest => consistent message_id buf rest
  end.

(** The failure counter and the threshold of a strategy. *)
Definition failures_of (m : Router.RouterMethod) (r : Router.HybridRouter) : Z :=
  match m with
  | Router.DIRECT_API => Router.direct_api_failures r
  | Router.WEBSOCKET_API => Router.websocket_failures r
  | Router.BROWSER_AUTOMATION => Router.browser_failures r
  | Router.AUTO => 0
  end.

Definition threshold_of (m : Router.RouterMethod) (r : Router.HybridRouter) : Z :=
  match m with
  | Router.DIRECT_API => Router.max_direct_api_failures r
  | Router.WEBSOCKET_API => Router.max_websocket_failures r
  | Router.BROWSER_AUTOMATION => Router.max_browser_failures r
  | Router.AUTO => 0
  end.

(** Every operation of a trace belongs to strategy [m] or to one after it
    in the escalation order. *)
Definition not_before (m : Router.RouterMethod) (t : list Router.call) : Prop :=
  Forall (fun c => (Router.rank m <= Router.rank (Router.strategy_of c))%nat) t.

(** What no call changes: the user, the pinned method and the thresholds. *)
Definition settings_kept (r r' : Router.HybridRouter) : Prop :=
  Router.user_id r' = Router.user_id r
  /\ Router.method r' = Router.method r
  /\ Router.max_direct_api_failures r' = Router.max_direct_api_failures r
  /\ Router.max_websocket_failures r' = Router.max_websocket_failures r
  /\ Router.max_browser_failures r' = Router.max_browser_failures r.

(** How one block moves its failure counter: not at all, up by one, or
    back to zero. *)
Definition step_of (x x' : Z) : Prop := x' = x \/ x' = x + 1 \/ x' = 0.

(** Counters and statistics as they are in every session that starts from
    a new router. *)
Definition sane (r : Router.HybridRouter) : Prop :=
  0 <= Router.direct_api_failures r
  /\ 0 <= Router.websocket_failures r
  /\ 0 <= Router.browser_failures r
  /\ 0 <= Router.successful_api_calls r
  /\ Router.successful_api_calls r <= Router.total_api_calls r.

(** The number of [send_message] calls of a session. *)
Fixpoint sends (ops : list Router.op) : Z :=
  match ops with
  | [] => 0
  | Router.Send _ _ :: rest => 1 + sends rest
  | Router.Close :: rest => sends rest
  end.

(** What the router records about the result it returns: the strategy
    that answered, with a non-empty answer, or the browser strategy
    together with a text that starts with ["Error: "]. *)
Definition reported (r' : Router.HybridRouter) (res : Router.result) : Prop :=
  match res with
  | Router.Success m s =>
      m <> Router.AUTO
      /\ Router.last_method_used r' = Some m
      /\ s <> EmptyString
  | Router.Failure s =>
      Router.last_method_used r' = Some Router.BROWSER_AUTOMATION
      /\ String.prefix "Error: " s = true
  end.

(** The file holds an encryption of the mapping that is in memory. *)
Definition in_sync (encrypt_json : gmap string json -> outcome (list Byte.byte))
    (tm : TokenManager.t) : Prop :=
  exists data,
    encrypt_json (TokenManager.tokens tm) = Returns data
    /\ TokenManager.tokens_file tm = TokenManager.Stored data.

(** The file holds only the first bytes of an encryption of the mapping
    that is in memory: what a write that broke off leaves behind. *)
Definition cut_short (encrypt_json : gmap string json -> outcome (list Byte.byte))
    (tm : TokenManager.t) : Prop :=
  exists data kept,
    encrypt_json (TokenManager.tokens tm) = Returns data
    /\ TokenManager.tokens_file tm = TokenManager.Stored (take kept data).

(** The request an event belongs to. *)
Definition event_id (e : event) : string :=
  match e with
  | Update _ m _ => m
  | Complete _ m _ => m
  | SetResult m _ => m
  end.

(** The request an inbound message of the persistent socket names. *)
Definition frame_id (f : WebSocketClient.frame) : option string :=
  match f with
  | WebSocketClient.agentResponse m _ => Some m
  | WebSocketClient.agentResponseComplete m => Some m
  | WebSocketClient.other => None
  end.

(** The chunks for one request among what happens during a wait. *)
Fixpoint chunks_for (message_id : string)
    (acts : list WebSocketClient.activity) : list string :=
  match acts with
  | [] => []
  | WebSocketClient.Arrives _ (WebSocketClient.agentResponse m chunk) :: rest =>
      if String.eqb m message_id then chunk :: chunks_for message_id rest
      else chunks_for message_id rest
  | _ :: rest => chunks_for message_id rest
  end.

(** The text of the first [agent:response] message for a request. *)
Fixpoint first_response (message_id : string)
    (arrivals : list DirectAPIClient.frame) : option string :=
  match arrivals with
  | [] => None
  | DirectAPIClient.agent_response (Some m) text :: rest =>
      if String.eqb m message_id then Some text
      else first_response message_id rest
  | _ :: rest => first_response message_id rest
  end.

(** Every edit of a list is attempted at least [UPDATE_INTERVAL] after the
    last one that went through, [last] being the time of the one before
    the list. *)
Fixpoint spaced (last : Z) (edits : list TelegramBot.edit) : Prop :=
  match edits with
  | [] => True
  | e :: rest =>
      TelegramBot.UPDATE_INTERVAL <= TelegramBot.at_time e - last
      /\ spaced (if TelegramBot.accepted e then TelegramBot.at_time e else last)
           rest
  end.

(** ** Sample sessions *)

(** A cipher whose output is of no interest. *)
Definition null_cipher (m : gmap string json) : outcome (list Byte.byte) :=
  Returns [].

Definition empty_store : TokenManager.t :=
  {| TokenManager.tokens := ∅; TokenManager.tokens_file := TokenManager.Absent |}.

(** [HybridRouter("u1", token_manager)] over an empty store. *)
Definition fresh_router : Router.HybridRouter :=
  Router.mk "u1" empty_store Router.AUTO false false false None
    0 3 0 3 0 3 0 0 JNull.

(** The answers of the transports in one call, with the browser client not
    yet started and its bundle empty. *)
Definition answers (dc : outcome bool) (ds dw : outcome (option string))
    (wc : outcome bool) (ws ww : outcome (option string))
    (bs : outcome bool) (bm : outcome (option string)) : Router.Transports :=
  {| Router.direct_connect := dc;
     Router.direct_send := ds;
     Router.direct_wait := dw;
     Router.ws_is_connected := true;
     Router.ws_close := Returns tt;
     Router.ws_connect := wc;
     Router.ws_send := ws;
     Router.ws_wait := ww;
     Router.browser_initialized := false;
     Router.browser_new := Returns tt;
     Router.browser_start := bs;
     Router.browser_extract_on_start := Returns JNull;
     Router.browser_send := bm;
     Router.browser_extract := Returns JNull;
     Router.clock_on_start := 1700000000;
     Router.writable_on_start := TokenManager.Written;
     Router.clock := 1700000000;
     Router.writable := TokenManager.Written |}.

(** Both socket transports connect, accept the message and time out; the
    browser does not start. *)
Definition timeouts : Router.Transports :=
  answers (Returns true) (Returns (Some "7f3c")) (Returns None)
          (Returns true) (Returns (Some "msg_1_2")) (Returns None)
          (Returns false) (Raises "closed").

(** Nothing can be reached. *)
Definition offline : Router.Transports :=
  answers (Returns false) (Raises "closed") (Raises "closed")
          (Returns false) (Raises "closed") (Raises "closed")
          (Returns false) (Raises "closed").

(** The direct API accepts the message and then stays silent until
    [wait_for_response] times out; the WebSocket API answers. *)
Definition direct_silent_websocket_answers : Router.Transports :=
  answers (Returns true) (Returns (Some "7f3c")) (Returns None)
          (Returns true) (Returns (Some "msg_1_2")) (Returns (Some "hi"))
          (Returns false) (Raises "closed").

(** The direct API answers. *)
Definition direct_answers : Router.Transports :=
  answers (Returns true) (Returns (Some "7f3c")) (Returns (Some "hi"))
          (Returns false) (Raises "closed") (Raises "closed")
          (Returns false) (Raises "closed").

(** The direct API cannot connect, the WebSocket API connects and then
    times out, the browser does not start. *)
Definition only_websocket_connects : Router.Transports :=
  answers (Returns false) (Raises "closed") (Raises "closed")
          (Returns true) (Returns (Some "msg_1_2")) (Returns None)
          (Returns false) (Raises "closed").

(** The direct API cannot connect; the WebSocket API answers. *)
Definition websocket_answers : Router.Transports :=
  answers (Returns false) (Raises "closed") (Raises "closed")
          (Returns true) (Returns (Some "msg_1_2"))
          (Returns (Some "hello-response"))
          (Returns false) (Raises "closed").

(** Only the browser works. *)
Definition only_browser_answers : Router.Transports :=
  answers (Returns false) (Raises "closed") (Raises "closed")
          (Returns false) (Raises "closed") (Raises "closed")
          (Returns true) (Returns (Some "hi")).

(** Only the browser works, and its session yields a credential bundle. *)
Definition sample_bundle : json :=
  JDict [("cookies", JDict [("connect.sid", JStr "s-81c2")])].

Definition browser_answers_with_bundle : Router.Transports :=
  {| Router.direct_connect := Returns false;
     Router.direct_send := Raises "closed";
     Router.direct_wait := Raises "closed";
     Router.ws_is_connected := true;
     Router.ws_close := Returns tt;
     Router.ws_connect := Returns false;
     Router.ws_send := Raises "closed";
     Router.ws_wait := Raises "closed";
     Router.browser_initialized := false;
     Router.browser_new := Returns tt;
     Router.browser_start := Returns true;
     Router.browser_extract_on_start := Returns JNull;
     Router.browser_send := Returns (Some "hi");
     Router.browser_extract := Returns sample_bundle;
     Router.clock_on_start := 1700000000;
     Router.writable_on_start := TokenManager.Written;
     Router.clock := 1700000005;
     Router.writable := TokenManager.Written |}.

(** A store that holds credentials of user ["u2"], saved at 1700000000. *)
Definition store_with_u2 : TokenManager.t :=
  fst (TokenManager.store_user_tokens null_cipher "u2" sample_bundle
         1700000000 TokenManager.Written empty_store).

(** A decryption that gives back the mapping [m]. *)
Definition recalling (m : gmap string json) (data : list Byte.byte)
    : outcome (gmap string json) :=
  Returns m.

(** A cipher whose output has four bytes. *)
Definition four_bytes (m : gmap string json) : outcome (list Byte.byte) :=
  Returns [Byte.x67; Byte.x41; Byte.x42; Byte.x43].

(** The store of user ["u2"] saved with that cipher. *)
Definition saved_store : TokenManager.t :=
  fst (TokenManager.store_user_tokens four_bytes "u2" sample_bundle
         1700000000 TokenManager.Written empty_store).

(** A response that starts to stream at 1700000000 s: two chunks, 0.4 s
    and 1.2 s later, the first with a character outside ASCII. *)
Definition stream_start : TelegramBot.Stream :=
  {| TelegramBot.response_buffer := [];
     TelegramBot.last_update_time := 1700000000000000 |}.

Definition two_chunks : list (unicode * Z * bool) :=
  [([72; 233]%N, 1700000000400000, true);
   ([108; 108; 111]%N, 1700000001200000, true)].

(** A network on which connecting succeeds. *)
Definition good_link : WebSocketClient.Link :=
  {| WebSocketClient.extracted := ("client-1", "session-1", "picard");
     WebSocketClient.dial := Returns tt;
     WebSocketClient.handshake := Returns tt |}.

(** A persistent-socket client after a successful [connect()]. *)
Definition connected_client : WebSocketClient.ReplitWebSocketClient :=
  fst (WebSocketClient.connect (WebSocketClient.init "client-1" "session-1")
         good_link).

(** A [send_message] that goes through, with every clock reading at [t]
    microseconds. *)
Definition sending_at (t : Z) : WebSocketClient.Sending :=
  {| WebSocketClient.clock_id := t;
     WebSocketClient.clock_created := t;
     WebSocketClient.clock_updated := t;
     WebSocketClient.link := good_link;
     WebSocketClient.transmit := Returns tt |}.

(** A stand-in for Python's [hash]. *)
Definition sample_hash (s : string) : Z := Z.of_nat (String.length s) + 4237.

(** A token-socket client on which a request ["7f3c"] was sent with an
    update callback (1) and a completion callback (2). *)
Definition direct_client_with_request : DirectAPIClient.ReplitDirectAPIClient :=
  fst (DirectAPIClient.send_message DirectAPIClient.init "hello"
         (Some 1%nat) (Some 2%nat)
         {| DirectAPIClient.reconnect := Returns true;
            DirectAPIClient.uuid := "7f3c";
            DirectAPIClient.now := 1700000000000000;
            DirectAPIClient.transmit := Returns tt |}).

(** * Properties *)

(** ** Credential store *)

Section TokenManagerFacts.

Variable encrypt_json : gmap string json -> outcome (list Byte.byte).
Variable decrypt_json : list Byte.byte -> outcome (gmap string json).

Lemma save_tokens_preserves_tokens w tm :
  TokenManager.tokens (fst (TokenManager.save_tokens encrypt_json w tm))
  = TokenManager.tokens tm.
Proof.
  unfold TokenManager.save_tokens.
  destruct (encrypt_json _); [destruct w|]; reflexivity.
Qed.

Lemma get_after_store u b now w tm :
  TokenManager.get_user_tokens u
    (fst (TokenManager.store_user_tokens encrypt_json u b now w tm))
  = Returns b.
Proof.
  unfold TokenManager.get_user_tokens, TokenManager.store_user_tokens.
  rewrite save_tokens_preserves_tokens. simpl.
  rewrite lookup_insert_eq. reflexivity.
Qed.

Lemma get_after_delete u w tm :
  TokenManager.get_user_tokens u
    (fst (TokenManager.delete_user_tokens encrypt_json u w tm))
  = Returns JNull.
Proof.
  unfold TokenManager.get_user_tokens, TokenManager.delete_user_tokens.
  destruct (TokenManager.tokens tm !! u) eqn:E.
  - rewrite save_tokens_preserves_tokens. simpl.
    rewrite lookup_delete_eq. reflexivity.
  - simpl. rewrite E. reflexivity.
Qed.

Lemma get_other_after_store u v b now w tm :
  u <> v ->
  TokenManager.get_user_tokens v
    (fst (TokenManager.store_user_tokens encrypt_json u b now w tm))
  = TokenManager.get_user_tokens v tm.
Proof.
  intros Hne.
  unfold TokenManager.get_user_tokens, TokenManager.store_user_tokens.
  rewrite save_tokens_preserves_tokens. simpl.
  rewrite lookup_insert_ne by done. reflexivity.
Qed.

(** C8. Storing a bundle [b] for user [u] and then reading [u] returns
    exactly [b]; after deleting [u], reading [u] returns [None].  Both hold
    whether or not the file could be written. *)
Theorem store_get_delete_roundtrip u b now w w' tm :
  TokenManager.get_user_tokens u
    (fst (TokenManager.store_user_tokens encrypt_json u b now w tm))
  = Returns b
  /\ TokenManager.get_user_tokens u
       (fst (TokenManager.delete_user_tokens encrypt_json u w'
          (fst (TokenManager.store_user_tokens encrypt_json u b now w tm))))
     = Returns JNull
  /\ TokenManager.get_user_tokens u
       (fst (TokenManager.delete_user_tokens encrypt_json u w' tm))
     = Returns JNull.
Proof.
  split; [apply get_after_store|].
  split; apply get_after_delete.
Qed.

Lemma load_tokens_of_failure disk :
  load_fails decrypt_json disk ->
  TokenManager.tokens
    (TokenManager.load_tokens decrypt_json
       {| TokenManager.tokens := ∅; TokenManager.tokens_file := disk |})
  = ∅.
Proof.
  unfold TokenManager.load_tokens. simpl.
  destruct disk as [| |data]; simpl; try reflexivity.
  intros [e He]. rewrite He. reflexivity.
Qed.

(** C10. When the tokens file is missing, unreadable or does not decrypt,
    constructing the manager still succeeds (given that the storage
    directory and the cipher could be set up), its mapping is empty, and
    reading any user returns [None] without raising. *)
Theorem load_failure_gives_empty_store disk :
  load_fails decrypt_json disk ->
  exists tm,
    TokenManager.init decrypt_json (Returns tt) (Returns tt) disk = Returns tm
    /\ TokenManager.tokens tm = ∅
    /\ forall u, TokenManager.get_user_tokens u tm = Returns JNull.
Proof.
  intros Hfail. eexists. split; [reflexivity|].
  pose proof (load_tokens_of_failure disk Hfail) as Hempty.
  split; [exact Hempty|].
  intros u. unfold TokenManager.get_user_tokens.
  rewrite Hempty, lookup_empty. reflexivity.
Qed.

End TokenManagerFacts.

(** A cipher that rejects every file, for a concrete instance. *)
Lemma load_failure_gives_empty_store_witness :
  exists tm,
    TokenManager.init (fun _ => Raises "InvalidToken") (Returns tt) (Returns tt)
      (TokenManager.Stored [Byte.x00]) = Returns tm
    /\ TokenManager.tokens tm = ∅
    /\ forall u, TokenManager.get_user_tokens u tm = Returns JNull.
Proof.
  apply (load_failure_gives_empty_store (fun _ => Raises "InvalidToken")
           (TokenManager.Stored [Byte.x00])).
  simpl. exists "InvalidToken". reflexivity.
Defined.

(** ** Router *)

Section RouterFacts.

Import Router.

Variable encrypt_json : gmap string json -> outcome (list Byte.byte).

Ltac split_cases :=
  repeat (case_match; simplify_eq/=); try done; try lia.

(** *** Strategy selection *)

Lemma determine_method_breaker r :
  method r = AUTO ->
  max_direct_api_failures r <= direct_api_failures r ->
  max_websocket_failures r <= websocket_failures r ->
  max_browser_failures r <= browser_failures r ->
  _determine_method r = (DIRECT_API, reset_counters r).
Proof.
  intros Hm Hd Hw Hb. unfold _determine_method. rewrite Hm. simpl.
  apply Z.ltb_ge in Hd, Hw, Hb. rewrite Hd, Hw, Hb.
  rewrite !andb_false_r. reflexivity.
Qed.

Lemma determine_method_below r :
  method r = AUTO ->
  direct_client r = false -> ws_client r = false ->
  direct_api_failures r < max_direct_api_failures r ->
  _determine_method r = (DIRECT_API, r).
Proof.
  intros Hm Hd Hw Hlt. unfold _determine_method. rewrite Hm, Hd, Hw. simpl.
  apply Z.ltb_lt in Hlt. rewrite Hlt. reflexivity.
Qed.

Lemma determine_method_successful r :
  successful_api_calls (snd (_determine_method r)) = successful_api_calls r.
Proof. unfold _determine_method. split_cases. Qed.

(** *** The first operation of a call *)

Lemma try_direct_first r env :
  first_strategy (snd (try_direct r env)) = Some DIRECT_API.
Proof.
  unfold try_direct, _init_direct_api. split_cases.
Qed.

Lemma from_direct_first r env :
  first_strategy (snd (from_direct encrypt_json DIRECT_API r env))
  = Some DIRECT_API.
Proof.
  unfold from_direct. simpl.
  pose proof (try_direct_first r env) as H.
  destruct (try_direct r env) as [[r1 res] t]. simpl in H.
  destruct res as [x|]; simpl; [exact H|].
  destruct (from_websocket _ _ _ _) as [[r2 x] t2]. simpl.
  destruct t as [|c t]; [discriminate H|exact H].
Qed.

(** The breaker itself.  Whenever all three failure counters have reached
    their thresholds and no strategy is pinned, [_determine_method] zeroes
    the three
    counters and returns the first strategy; the [send_message] call that
    makes this selection proceeds from the first strategy on the reset
    router, and the first transport operation it makes belongs to the
    first strategy. *)
Theorem breaker_reset_restarts_from_first r text env :
  method r = AUTO ->
  max_direct_api_failures r <= direct_api_failures r ->
  max_websocket_failures r <= websocket_failures r ->
  max_browser_failures r <= browser_failures r ->
  _determine_method r = (DIRECT_API, reset_counters r)
  /\ direct_api_failures (reset_counters r) = 0
  /\ websocket_failures (reset_counters r) = 0
  /\ browser_failures (reset_counters r) = 0
  /\ send_message encrypt_json r text env
     = from_direct encrypt_json DIRECT_API
         (set_total_api_calls (total_api_calls r + 1)
            (set_last_method_used (Some DIRECT_API) (reset_counters r))) env
  /\ first_strategy (snd (send_message encrypt_json r text env))
     = Some DIRECT_API.
Proof.
  intros Hm Hd Hw Hb.
  pose proof (determine_method_breaker r Hm Hd Hw Hb) as Hsel.
  assert (Hsend : send_message encrypt_json r text env
     = from_direct encrypt_json DIRECT_API
         (set_total_api_calls (total_api_calls r + 1)
            (set_last_method_used (Some DIRECT_API) (reset_counters r))) env).
  { unfold send_message. rewrite Hsel. reflexivity. }
  repeat split; try done.
  rewrite Hsend. apply from_direct_first.
Qed.

(** *** Rounds in which nothing can be reached *)

Lemma try_direct_unreachable r env :
  direct_client r = false ->
  answered_true (direct_connect env) = false ->
  try_direct r env
  = (set_direct_client false
       (set_direct_api_failures (direct_api_failures r + 1) r),
     None, [DirectConnect]).
Proof.
  intros Hc Ha. unfold try_direct, _init_direct_api. rewrite Hc.
  destruct (direct_connect env) as [[|]|]; [discriminate Ha| |]; reflexivity.
Qed.

Lemma try_websocket_unreachable r env :
  ws_client r = false ->
  answered_true (ws_connect env) = false ->
  try_websocket r env
  = (set_ws_client false
       (set_websocket_failures (websocket_failures r + 1) r),
     None, [WsConnect]).
Proof.
  intros Hc Ha.
  unfold try_websocket, _init_websocket_api, _connect_websocket. rewrite Hc.
  destruct (ws_connect env) as [[|]|]; [discriminate Ha| |]; reflexivity.
Qed.

Lemma try_browser_unreachable r env :
  browser_initialized env = false ->
  came_back (browser_new env) = false
  \/ answered_true (browser_start env) = false ->
  exists b t,
    try_browser encrypt_json r env
    = (set_browser_failures (browser_failures r + 1)
         (set_browser_client b r),
       Failure "Error: Failed to initialize browser client", t).
Proof.
  intros Hi Hs. unfold try_browser, _init_browser.
  rewrite Hi, andb_false_r.
  destruct (browser_new env) as [[]|] eqn:Hn.
  - destruct Hs as [Hs|Hs]; [discriminate Hs|].
    destruct (browser_start env) as [[|]|]; [discriminate Hs| |];
      by exists true, [BrowserStart].
  - exists (browser_client r), []. by destruct r.
Qed.

Lemma unreachable_round k n r text env :
  all_at k n r -> k < n -> unreachable env = true ->
  all_at (k + 1) n (fst (fst (send_message encrypt_json r text env))).
Proof.
  intros (Hm & Hd & Hw & Hfd & Hfw & Hfb & Hmd & Hmw & Hmb) Hlt Hun.
  unfold send_message.
  rewrite determine_method_below by (try done; lia).
  unfold unreachable in Hun.
  rewrite !andb_true_iff, orb_true_iff, !negb_true_iff in Hun.
  destruct Hun as [[[Hdc Hwc] Hbi] Hbs].
  unfold from_direct, from_websocket, from_browser. simpl.
  rewrite try_direct_unreachable by done.
  rewrite try_websocket_unreachable by done.
  match goal with
  | |- context [try_browser encrypt_json ?r' env] =>
      destruct (try_browser_unreachable r' env Hbi Hbs) as (b & t & ->)
  end.
  unfold all_at. simpl. repeat split; congruence.
Qed.

Lemma unreachable_rounds n text envs : forall k r,
  all_at k n r -> k + Z.of_nat (length envs) <= n ->
  forallb unreachable envs = true ->
  all_at (k + Z.of_nat (length envs)) n
    (fst (run encrypt_json (map (Send text) envs) r)).
Proof.
  induction envs as [|env envs IH]; intros k r Hat Hle Hall.
  - simpl. rewrite Z.add_0_r. exact Hat.
  - simpl in Hall. apply andb_true_iff in Hall as [Hun Hall].
    cbn [length] in Hle |- *. rewrite Nat2Z.inj_succ in Hle |- *.
    pose proof (unreachable_round k n r text env Hat ltac:(lia) Hun) as Hstep.
    cbn [map run].
    destruct (send_message encrypt_json r text env) as [[r1 res] t].
    simpl in Hstep.
    specialize (IH (k + 1) r1 Hstep ltac:(lia) Hall).
    destruct (run encrypt_json (map (Send text) envs) r1) as [r2 rs].
    simpl in *. replace (k + Z.succ (Z.of_nat (length envs)))
      with (k + 1 + Z.of_nat (length envs)) by lia.
    exact IH.
Qed.

Lemma init_all_at uid tm n r0 :
  init uid tm AUTO n n n = Returns r0 -> all_at 0 n r0.
Proof.
  unfold init. destruct (TokenManager.get_user_tokens uid tm); [|done].
  intros [= <-]. unfold all_at. simpl. done.
Qed.

(** With all thresholds at [n], [n] calls in which no transport can be
    reached leave every counter at [n]; the selection of the next call
    puts all three back to zero and returns the first strategy, and that
    call begins with an operation of the first strategy. *)
Corollary no_permanent_lockout (n : nat) uid tm r0 text envs :
  init uid tm AUTO (Z.of_nat n) (Z.of_nat n) (Z.of_nat n) = Returns r0 ->
  length envs = n ->
  forallb unreachable envs = true ->
  let r := fst (run encrypt_json (map (Send text) envs) r0) in
  direct_api_failures r = Z.of_nat n
  /\ websocket_failures r = Z.of_nat n
  /\ browser_failures r = Z.of_nat n
  /\ _determine_method r = (DIRECT_API, reset_counters r)
  /\ forall text' env,
       first_strategy (snd (send_message encrypt_json r text' env))
       = Some DIRECT_API.
Proof.
  intros Hinit Hlen Hall r.
  pose proof (unreachable_rounds (Z.of_nat n) text envs 0 r0
                (init_all_at _ _ _ _ Hinit) ltac:(lia) Hall) as Hat.
  rewrite Hlen in Hat. simpl in Hat. fold r in Hat.
  destruct Hat as (Hm & Hd & Hw & Hfd & Hfw & Hfb & Hmd & Hmw & Hmb).
  assert (Hsel : _determine_method r = (DIRECT_API, reset_counters r))
    by (apply determine_method_breaker; try done; lia).
  repeat split; try done.
  intros text' env. unfold send_message. rewrite Hsel.
  apply from_direct_first.
Qed.

(** *** Rounds in which the socket strategies time out *)

Lemma determine_method_quiet k n r :
  quiet k n r -> 0 < n -> _determine_method r = (DIRECT_API, r).
Proof.
  intros (Hm & Hs & Hd & _ & _ & Hmax) Hpos.
  unfold _determine_method. rewrite Hm, Hs, Hd, Hmax. simpl.
  rewrite !andb_false_r. apply Z.ltb_lt in Hpos. by rewrite Hpos.
Qed.

Lemma try_direct_silent k n r env :
  quiet k n r ->
  answered_true (direct_connect env) = true ->
  times_out (direct_send env) (direct_wait env) = true ->
  exists r1 t, try_direct r env = (r1, None, t) /\ quiet k n r1.
Proof.
  intros Hq Hc Ht. unfold try_direct, _init_direct_api.
  destruct (direct_send env) as [[mid|]|]; try discriminate Ht.
  destruct (direct_wait env) as [[resp|]|]; try discriminate Ht.
  simpl in Ht.
  destruct (direct_client r).
  - simpl. rewrite Ht. by eexists _, _.
  - destruct (direct_connect env) as [[|]|]; try discriminate Hc.
    simpl. rewrite Ht. by eexists _, _.
Qed.

Lemma try_websocket_silent k n r env :
  quiet k n r ->
  ws_is_connected env = true ->
  answered_true (ws_connect env) = true ->
  times_out (ws_send env) (ws_wait env) = true ->
  exists r1 t, try_websocket r env = (r1, None, t) /\ quiet k n r1.
Proof.
  intros Hq Hi Hc Ht.
  unfold try_websocket, _init_websocket_api, _connect_websocket.
  destruct (ws_send env) as [[mid|]|]; try discriminate Ht.
  destruct (ws_wait env) as [[resp|]|]; try discriminate Ht.
  simpl in Ht. rewrite Hi.
  destruct (ws_client r).
  - simpl. rewrite Ht. by eexists _, _.
  - destruct (ws_connect env) as [[|]|]; try discriminate Hc.
    simpl. rewrite Ht. by eexists _, _.
Qed.

Lemma silent_round k n r text env :
  quiet k n r -> 0 < n -> silent env = true ->
  snd (fst (send_message encrypt_json r text env))
  = Failure "Error: Failed to initialize browser client"
  /\ quiet (k + 1) n (fst (fst (send_message encrypt_json r text env))).
Proof.
  intros Hq Hpos Hs. unfold send_message.
  rewrite (determine_method_quiet k n r Hq Hpos).
  unfold silent in Hs.
  rewrite !andb_true_iff, orb_true_iff, !negb_true_iff in Hs.
  destruct Hs as [[[[[[Hdc Hdt] Hwi] Hwc] Hwt] Hbi] Hbs].
  set (r0 := set_total_api_calls _ _).
  assert (Hq0 : quiet k n r0) by exact Hq.
  unfold from_direct, from_websocket, from_browser. simpl.
  destruct (try_direct_silent k n r0 env Hq0 Hdc Hdt) as (r1 & t1 & -> & Hq1).
  set (r1' := set_last_method_used _ r1).
  assert (Hq1' : quiet k n r1') by exact Hq1.
  destruct (try_websocket_silent k n r1' env Hq1' Hwi Hwc Hwt)
    as (r2 & t2 & -> & Hq2).
  match goal with
  | |- context [try_browser encrypt_json ?r' env] =>
      destruct (try_browser_unreachable r' env Hbi Hbs) as (b & t & ->)
  end.
  split; [reflexivity|].
  destruct Hq2 as (Hm & Hsu & Hd & Hw & Hb & Hmax).
  unfold quiet. simpl. repeat split; congruence.
Qed.

Lemma silent_rounds n text envs : forall k r,
  quiet k n r -> 0 < n -> forallb silent envs = true ->
  snd (run encrypt_json (map (Send text) envs) r)
  = replicate (length envs)
      (Failure "Error: Failed to initialize browser client")
  /\ quiet (k + Z.of_nat (length envs)) n
       (fst (run encrypt_json (map (Send text) envs) r)).
Proof.
  induction envs as [|env envs IH]; intros k r Hq Hpos Hall.
  - simpl. by rewrite Z.add_0_r.
  - simpl in Hall. apply andb_true_iff in Hall as [Hs Hall].
    pose proof (silent_round k n r text env Hq Hpos Hs) as [Hres Hstep].
    cbn [map run length].
    destruct (send_message encrypt_json r text env) as [[r1 res] t].
    cbn [fst snd] in Hres, Hstep. subst res.
    specialize (IH (k + 1) r1 Hstep Hpos Hall) as [IHres IHq].
    destruct (run encrypt_json (map (Send text) envs) r1) as [r2 rs].
    cbn [fst snd] in *. rewrite IHres. split; [reflexivity|].
    rewrite Nat2Z.inj_succ.
    replace (k + Z.succ (Z.of_nat (length envs)))
      with (k + 1 + Z.of_nat (length envs)) by lia.
    exact IHq.
Qed.

Lemma init_quiet uid tm n r0 :
  init uid tm AUTO n n n = Returns r0 -> quiet 0 n r0.
Proof.
  unfold init. destruct (TokenManager.get_user_tokens uid tm); [|done].
  intros [= <-]. unfold quiet. simpl. done.
Qed.

(** C1. Failures that are not counted never open the breaker.  With all
    thresholds at [n], take any number of calls in each of which every
    strategy fails, the direct API and the
    WebSocket API by timing out and the browser by not starting.  Every
    call returns the error of the browser; the counters of the two socket
    strategies still read 0 and only the browser's has counted the calls;
    and the selection of the next call returns the first strategy without
    touching the counters: no reset takes place, however many such calls
    were made. *)
Theorem uncounted_failures_never_reset (n : Z) uid tm r0 text envs :
  init uid tm AUTO n n n = Returns r0 ->
  0 < n ->
  forallb silent envs = true ->
  let r := fst (run encrypt_json (map (Send text) envs) r0) in
  snd (run encrypt_json (map (Send text) envs) r0)
  = replicate (length envs)
      (Failure "Error: Failed to initialize browser client")
  /\ direct_api_failures r = 0
  /\ websocket_failures r = 0
  /\ browser_failures r = Z.of_nat (length envs)
  /\ _determine_method r = (DIRECT_API, r)
  /\ (0 < Z.of_nat (length envs) -> r <> reset_counters r).
Proof.
  intros Hinit Hpos Hall r.
  pose proof (silent_rounds n text envs 0 r0 (init_quiet _ _ _ _ Hinit)
                Hpos Hall) as [Hres Hq].
  fold r in Hq. rewrite Z.add_0_l in Hq.
  split; [exact Hres|].
  pose proof (determine_method_quiet _ _ _ Hq Hpos) as Hsel.
  destruct Hq as (Hm & Hsu & Hd & Hw & Hb & Hmax).
  repeat split; try done.
  intros Hlen Heq. apply (f_equal browser_failures) in Heq.
  simpl in Heq. lia.
Qed.

(** *** Accounting of successes *)

Lemma remember_auth_successful a now w r :
  successful_api_calls (remember_auth encrypt_json a now w r)
  = successful_api_calls r.
Proof. unfold remember_auth. by destruct (truthy a). Qed.

Lemma remember_auth_browser_failures a now w r :
  browser_failures (remember_auth encrypt_json a now w r) = browser_failures r.
Proof. unfold remember_auth. by destruct (truthy a). Qed.

Lemma try_direct_accounting r env :
  match try_direct r env with
  | (r', Some x, _) => accounted r r' x /\ exists s, x = Success DIRECT_API s
  | (r', None, _) => successful_api_calls r' = successful_api_calls r
  end.
Proof.
  unfold try_direct, _init_direct_api, accounted.
  destruct (direct_client r); [|destruct (direct_connect env) as [[|]|]];
    simpl; try done;
    (destruct (direct_send env) as [mid|]; simpl; [|done];
     destruct (truthy_str mid); simpl; [|done];
     destruct (direct_wait env) as [resp|]; simpl; [|done];
     destruct (truthy_str resp); simpl; [|done];
     split; [split; [lia|done]|by eexists]).
Qed.

Lemma try_websocket_accounting r env :
  match try_websocket r env with
  | (r', Some x, _) => accounted r r' x /\ exists s, x = Success WEBSOCKET_API s
  | (r', None, _) => successful_api_calls r' = successful_api_calls r
  end.
Proof.
  unfold try_websocket, accounted.
  assert (Hinit : successful_api_calls (fst (fst (_init_websocket_api r env)))
                  = successful_api_calls r).
  { unfold _init_websocket_api, _connect_websocket.
    destruct (ws_client r); [destruct (ws_is_connected env);
      [done|destruct (ws_close env); [|done]]|];
      by destruct (ws_connect env) as [[|]|]. }
  destruct (_init_websocket_api r env) as [[r1 ok] t]. simpl in Hinit.
  destruct ok; [|done].
  destruct (ws_send env) as [mid|]; simpl; [|done].
  destruct (truthy_str mid); simpl; [|done].
  destruct (ws_wait env) as [resp|]; simpl; [|done].
  destruct (truthy_str resp); simpl; [|done].
  split; [split; [lia|done]|by eexists].
Qed.

Lemma try_browser_accounting r env :
  match try_browser encrypt_json r env with
  | (r', x, _) =>
      accounted r r' x
      /\ match x with
         | Success m _ => m = BROWSER_AUTOMATION
         | Failure _ => True
         end
  end.
Proof.
  unfold try_browser, accounted.
  assert (Hinit : successful_api_calls (fst (fst (_init_browser encrypt_json r env)))
                  = successful_api_calls r).
  { unfold _init_browser.
    destruct (browser_client r && browser_initialized env); [done|].
    destruct (browser_new env); [|done].
    destruct (browser_start env) as [[|]|]; try done.
    destruct (browser_extract_on_start env); [|done].
    simpl. by rewrite remember_auth_successful. }
  destruct (_init_browser encrypt_json r env) as [[r1 ok] t]. simpl in Hinit.
  destruct ok; simpl; [|split; [split; [lia|done]|done]].
  destruct (browser_send env) as [resp|]; simpl;
    [|split; [split; [lia|done]|done]].
  destruct (truthy_str resp && negb (contains "Error:" (py_str resp))); simpl;
    [|split; [split; [lia|done]|done]].
  destruct (browser_extract env) as [a|]; simpl;
    [|split; [split; [lia|done]|done]].
  rewrite remember_auth_successful, remember_auth_browser_failures. simpl.
  split; [split; [lia|done]|done].
Qed.

Lemma from_browser_accounting m r env :
  match from_browser encrypt_json m r env with
  | (r', x, _) => accounted r r' x
  end.
Proof.
  unfold from_browser. case_bool_decide.
  - pose proof (try_browser_accounting r env) as Hacc.
    destruct (try_browser encrypt_json r env) as [[r' x] t]. apply Hacc.
  - unfold accounted. simpl. split; [lia|done].
Qed.

Lemma from_websocket_accounting m r env :
  match from_websocket encrypt_json m r env with
  | (r', x, _) => accounted r r' x
  end.
Proof.
  unfold from_websocket. case_bool_decide; [|apply from_browser_accounting].
  pose proof (try_websocket_accounting r env) as Hacc.
  destruct (try_websocket r env) as [[r1 [x|]] t]; [apply Hacc|].
  match goal with
  | |- context [from_browser encrypt_json ?m' ?r' env] =>
      pose proof (from_browser_accounting m' r' env) as Hb;
      destruct (from_browser encrypt_json m' r' env) as [[r2 x] t2]
  end.
  unfold accounted in *. simpl in Hb. destruct Hb as [Hb1 Hb2].
  split; [lia|done].
Qed.

Lemma from_direct_accounting m r env :
  match from_direct encrypt_json m r env with
  | (r', x, _) => accounted r r' x
  end.
Proof.
  unfold from_direct. case_bool_decide; [|apply from_websocket_accounting].
  pose proof (try_direct_accounting r env) as Hacc.
  destruct (try_direct r env) as [[r1 [x|]] t]; [apply Hacc|].
  match goal with
  | |- context [from_websocket encrypt_json ?m' ?r' env] =>
      pose proof (from_websocket_accounting m' r' env) as Hb;
      destruct (from_websocket encrypt_json m' r' env) as [[r2 x] t2]
  end.
  unfold accounted in *. simpl in Hb. destruct Hb as [Hb1 Hb2].
  split; [lia|done].
Qed.

(** A call adds one to [successful_api_calls] exactly when it returns the
    answer of the direct or of the WebSocket API, and the strategy that
    answered has its failure counter at zero afterwards. *)
Lemma send_message_accounting r text env :
  match send_message encrypt_json r text env with
  | (r', x, _) => accounted r r' x
  end.
Proof.
  unfold send_message.
  pose proof (determine_method_successful r) as Hsel.
  destruct (_determine_method r) as [m r0]. simpl in Hsel.
  match goal with
  | |- context [from_direct encrypt_json m ?r' env] =>
      pose proof (from_direct_accounting m r' env) as Hb;
      destruct (from_direct encrypt_json m r' env) as [[r2 x] t2]
  end.
  unfold accounted in *. simpl in Hb. destruct Hb as [Hb1 Hb2].
  split; [lia|done].
Qed.

(** *** The operations a call makes *)

Ltac solve_sublist :=
  solve [repeat first [apply sublist_nil | apply sublist_skip | apply sublist_cons]].

Lemma try_direct_trace r env :
  snd (try_direct r env) `sublist_of` direct_calls.
Proof.
  unfold try_direct, _init_direct_api, direct_calls.
  destruct (direct_client r); [|destruct (direct_connect env) as [[|]|]];
    simpl; try solve_sublist;
    (destruct (direct_send env) as [mid|]; simpl; [|solve_sublist];
     destruct (truthy_str mid); simpl; [|solve_sublist];
     destruct (direct_wait env) as [resp|]; simpl; [|solve_sublist];
     destruct (truthy_str resp); simpl; solve_sublist).
Qed.

Lemma _init_websocket_api_trace r env :
  snd (_init_websocket_api r env)
  `sublist_of` [WsIsConnected; WsClose; WsConnect].
Proof.
  unfold _init_websocket_api, _connect_websocket.
  destruct (ws_client r); [destruct (ws_is_connected env);
    [simpl; solve_sublist|destruct (ws_close env); [|simpl; solve_sublist]]|];
    destruct (ws_connect env) as [[|]|]; simpl; solve_sublist.
Qed.

Lemma try_websocket_trace r env :
  snd (try_websocket r env) `sublist_of` websocket_calls.
Proof.
  unfold try_websocket.
  pose proof (_init_websocket_api_trace r env) as Hinit.
  destruct (_init_websocket_api r env) as [[r1 ok] t]. simpl in Hinit.
  change websocket_calls with ([WsIsConnected; WsClose; WsConnect] ++ [WsSend; WsWait]).
  destruct ok; cbn [snd]; [|by apply sublist_inserts_r].
  destruct (ws_send env) as [mid|]; cbn [snd];
    [|apply sublist_app; [done|solve_sublist]].
  destruct (truthy_str mid); cbn [snd];
    [|apply sublist_app; [done|solve_sublist]].
  destruct (ws_wait env) as [resp|]; cbn [snd];
    [|apply sublist_app; [done|solve_sublist]].
  destruct (truthy_str resp); cbn [snd]; apply sublist_app; solve [done|solve_sublist].
Qed.

Lemma _init_browser_trace r env :
  snd (_init_browser encrypt_json r env)
  `sublist_of` [BrowserStart; BrowserExtractOnStart].
Proof.
  unfold _init_browser.
  destruct (browser_client r && browser_initialized env); [simpl; solve_sublist|].
  destruct (browser_new env); [|simpl; solve_sublist].
  destruct (browser_start env) as [[|]|]; simpl; try solve_sublist.
  destruct (browser_extract_on_start env); simpl; solve_sublist.
Qed.

Lemma try_browser_trace r env :
  snd (try_browser encrypt_json r env) `sublist_of` browser_calls.
Proof.
  unfold try_browser.
  pose proof (_init_browser_trace r env) as Hinit.
  destruct (_init_browser encrypt_json r env) as [[r1 ok] t]. simpl in Hinit.
  change browser_calls
    with ([BrowserStart; BrowserExtractOnStart] ++ [BrowserSend; BrowserExtract]).
  destruct ok; cbn [snd negb]; [|by apply sublist_inserts_r].
  destruct (browser_send env) as [resp|]; cbn [snd];
    [|apply sublist_app; [done|solve_sublist]].
  destruct (truthy_str resp && negb (contains "Error:" (py_str resp))); cbn [snd];
    [|apply sublist_app; [done|solve_sublist]].
  destruct (browser_extract env); cbn [snd]; apply sublist_app;
    solve [done|solve_sublist].
Qed.

Lemma from_browser_trace m r env :
  snd (from_browser encrypt_json m r env) `sublist_of` browser_calls.
Proof.
  unfold from_browser. case_bool_decide; [apply try_browser_trace|].
  simpl. apply sublist_nil_l.
Qed.

Lemma from_websocket_trace m r env :
  snd (from_websocket encrypt_json m r env)
  `sublist_of` websocket_calls ++ browser_calls.
Proof.
  unfold from_websocket. case_bool_decide;
    [|apply sublist_inserts_l, from_browser_trace].
  pose proof (try_websocket_trace r env) as Hw.
  destruct (try_websocket r env) as [[r1 [x|]] t]; cbn [snd] in *;
    [by apply sublist_inserts_r|].
  match goal with
  | |- context [from_browser encrypt_json ?m' ?r' env] =>
      pose proof (from_browser_trace m' r' env) as Hb;
      destruct (from_browser encrypt_json m' r' env) as [[r2 x] t2]
  end.
  cbn [snd] in *. by apply sublist_app.
Qed.

Lemma from_direct_trace m r env :
  snd (from_direct encrypt_json m r env)
  `sublist_of` direct_calls ++ websocket_calls ++ browser_calls.
Proof.
  unfold from_direct. case_bool_decide;
    [|apply sublist_inserts_l, from_websocket_trace].
  pose proof (try_direct_trace r env) as Hd.
  destruct (try_direct r env) as [[r1 [x|]] t]; cbn [snd] in *;
    [by apply sublist_inserts_r|].
  match goal with
  | |- context [from_websocket encrypt_json ?m' ?r' env] =>
      pose proof (from_websocket_trace m' r' env) as Hb;
      destruct (from_websocket encrypt_json m' r' env) as [[r2 x] t2]
  end.
  cbn [snd] in *. by apply sublist_app.
Qed.

(** The operations of one call are taken, in order, from the fixed
    sequence direct, WebSocket, browser. *)
Lemma send_message_trace r text env :
  snd (send_message encrypt_json r text env)
  `sublist_of` direct_calls ++ websocket_calls ++ browser_calls.
Proof.
  unfold send_message. destruct (_determine_method r) as [m r0].
  apply from_direct_trace.
Qed.

(** No transport operation is made twice within one call. *)
Lemma send_message_no_repeat r text env :
  NoDup (snd (send_message encrypt_json r text env)).
Proof.
  eapply sublist_NoDup; [|apply send_message_trace].
  unfold direct_calls, websocket_calls, browser_calls. simpl.
  apply (bool_decide_unpack _). by vm_compute.
Qed.

Lemma within_sublist m t l : t `sublist_of` l -> within m l -> within m t.
Proof.
  unfold within. rewrite !Forall_forall. intros Hsub Hl c Hc.
  apply Hl. eapply elem_of_sublist; eauto.
Qed.

Lemma within_browser t : within BROWSER_AUTOMATION t.
Proof.
  unfold within. apply Forall_forall. intros c _. destruct c; simpl; lia.
Qed.

Lemma from_browser_success m r env :
  match from_browser encrypt_json m r env with
  | (_, Success m' _, _) => m' = BROWSER_AUTOMATION
  | _ => True
  end.
Proof.
  unfold from_browser. case_bool_decide; [|done].
  pose proof (try_browser_accounting r env) as Hacc.
  destruct (try_browser encrypt_json r env) as [[r' [m' s|s]] t]; [|done].
  apply Hacc.
Qed.

Lemma from_websocket_success m r env :
  match from_websocket encrypt_json m r env with
  | (_, Success m' _, t) =>
      (m' = WEBSOCKET_API /\ t `sublist_of` websocket_calls)
      \/ m' = BROWSER_AUTOMATION
  | _ => True
  end.
Proof.
  unfold from_websocket. case_bool_decide.
  - pose proof (try_websocket_accounting r env) as Hacc.
    pose proof (try_websocket_trace r env) as Htr.
    destruct (try_websocket r env) as [[r1 [x|]] t]; cbn [snd] in Htr.
    + destruct Hacc as [_ [s ->]]. by left.
    + match goal with
      | |- context [from_browser encrypt_json ?m' ?r' env] =>
          pose proof (from_browser_success m' r' env) as Hb;
          destruct (from_browser encrypt_json m' r' env) as [[r2 [m2 s|s]] t2]
      end; [by right|done].
  - pose proof (from_browser_success m r env) as Hb.
    destruct (from_browser encrypt_json m r env) as [[r2 [m2 s|s]] t2];
      [by right|done].
Qed.

Lemma from_direct_success m r env :
  match from_direct encrypt_json m r env with
  | (_, Success m' _, t) => within m' t
  | _ => True
  end.
Proof.
  assert (Hdw : within WEBSOCKET_API (direct_calls ++ websocket_calls)).
  { unfold within. by repeat constructor. }
  unfold from_direct. case_bool_decide.
  - pose proof (try_direct_accounting r env) as Hacc.
    pose proof (try_direct_trace r env) as Htr.
    destruct (try_direct r env) as [[r1 [x|]] t]; cbn [snd] in Htr.
    + destruct Hacc as [_ [s ->]].
      eapply within_sublist; [exact Htr|]. unfold within. by repeat constructor.
    + match goal with
      | |- context [from_websocket encrypt_json ?m' ?r' env] =>
          pose proof (from_websocket_success m' r' env) as Hb;
          destruct (from_websocket encrypt_json m' r' env)
            as [[r2 [m2 s|s]] t2]
      end; [|done].
      destruct Hb as [[-> Hsub]| ->]; [|apply within_browser].
      eapply within_sublist; [|exact Hdw]. by apply sublist_app.
  - pose proof (from_websocket_success m r env) as Hb.
    destruct (from_websocket encrypt_json m r env) as [[r2 [m2 s|s]] t2];
      [|done].
    destruct Hb as [[-> Hsub]| ->]; [|apply within_browser].
    eapply within_sublist; [|exact Hdw]. by apply sublist_inserts_l.
Qed.

(** When a call returns the answer of a strategy, it has made no
    operation of any later strategy. *)
Lemma send_message_stops_at_success r text env :
  match send_message encrypt_json r text env with
  | (_, Success m _, t) => within m t
  | _ => True
  end.
Proof.
  unfold send_message. destruct (_determine_method r) as [m r0].
  apply from_direct_success.
Qed.

(** C2. A call that returns the answer of the browser strategy leaves
    [successful_api_calls] as it was: the browser block resets its failure
    counter and returns at once, but never increments the success counter
    that the two socket blocks increment. *)
Theorem browser_success_is_not_counted r text env r' resp t :
  send_message encrypt_json r text env
  = (r', Success BROWSER_AUTOMATION resp, t) ->
  successful_api_calls r' = successful_api_calls r
  /\ browser_failures r' = 0
  /\ within BROWSER_AUTOMATION t.
Proof.
  intros Hsend.
  pose proof (send_message_accounting r text env) as Hacc.
  rewrite Hsend in Hacc. destruct Hacc as [Hcount Hclear].
  simpl in Hcount, Hclear.
  split; [lia|]. split; [done|apply within_browser].
Qed.

(** A success of either socket strategy does all that is expected: counter
    of the strategy at zero, one more success, no later strategy tried. *)
Lemma socket_success_is_counted r text env r' m resp t :
  send_message encrypt_json r text env = (r', Success m resp, t) ->
  m = DIRECT_API \/ m = WEBSOCKET_API ->
  successful_api_calls r' = successful_api_calls r + 1
  /\ counter_cleared r' (Success m resp)
  /\ within m t.
Proof.
  intros Hsend Hm.
  pose proof (send_message_accounting r text env) as Hacc.
  pose proof (send_message_stops_at_success r text env) as Hstop.
  rewrite Hsend in Hacc, Hstop. destruct Hacc as [Hcount Hclear].
  by destruct Hm as [-> | ->].
Qed.

(** *** Failures that are not counted *)

(** C3. When the direct API accepts the message and [wait_for_response]
    then returns nothing (its timeout, or an empty text), the router moves
    on to the WebSocket API but leaves [direct_api_failures] as it was:
    only an exception or a failed initialisation increments it. *)
Theorem silent_direct_api_is_not_counted r env r1 t mid resp :
  _init_direct_api r env = (r1, true, t) ->
  direct_send env = Returns mid -> truthy_str mid = true ->
  direct_wait env = Returns resp -> truthy_str resp = false ->
  direct_api_failures r1 = direct_api_failures r
  /\ try_direct r env = (r1, None, t ++ [DirectSend; DirectWait])
  /\ from_direct encrypt_json DIRECT_API r env
     = (let '(r2, x, t2) :=
          from_websocket encrypt_json WEBSOCKET_API
            (set_last_method_used (Some WEBSOCKET_API) r1) env in
        (r2, x, (t ++ [DirectSend; DirectWait]) ++ t2)).
Proof.
  intros Hinit Hsend Hmid Hwait Hresp.
  assert (Htry : try_direct r env = (r1, None, t ++ [DirectSend; DirectWait])).
  { unfold try_direct. rewrite Hinit, Hsend, Hmid, Hwait, Hresp. reflexivity. }
  split; [|split; [exact Htry|]].
  - unfold _init_direct_api in Hinit.
    destruct (direct_client r); [by simplify_eq|].
    destruct (direct_connect env) as [[|]|]; by simplify_eq.
  - unfold from_direct. simpl. rewrite Htry. reflexivity.
Qed.

(** An exception of the direct API is counted once. *)
Lemma raising_direct_api_is_counted r env r1 t e :
  _init_direct_api r env = (r1, true, t) ->
  direct_send env = Raises e ->
  try_direct r env
  = (set_direct_api_failures (direct_api_failures r1 + 1) r1, None,
     t ++ [DirectSend]).
Proof.
  intros Hinit Hsend. unfold try_direct. by rewrite Hinit, Hsend.
Qed.

(** The same holds for the WebSocket API. *)
Lemma silent_websocket_api_is_not_counted r env r1 t mid resp :
  _init_websocket_api r env = (r1, true, t) ->
  ws_send env = Returns mid -> truthy_str mid = true ->
  ws_wait env = Returns resp -> truthy_str resp = false ->
  try_websocket r env = (r1, None, t ++ [WsSend; WsWait]).
Proof.
  intros Hinit Hsend Hmid Hwait Hresp.
  unfold try_websocket. by rewrite Hinit, Hsend, Hmid, Hwait, Hresp.
Qed.

(** In the browser block it is the other way round: an exception of
    [browser_client.send_message] ends the call without touching
    [browser_failures]. *)
Lemma raising_browser_is_not_counted r env r1 t e :
  _init_browser encrypt_json r env = (r1, true, t) ->
  browser_send env = Raises e ->
  try_browser encrypt_json r env
  = (r1, Failure ("Error: " +:+ e), t ++ [BrowserSend]).
Proof.
  intros Hinit Hsend. unfold try_browser. by rewrite Hinit, Hsend.
Qed.

(** *** Stickiness *)

(** C4. Stickiness rests on one success counter for both socket
    strategies, not on a success of the strategy that is preferred.  With
    no pinned strategy and a positive global success counter: the direct
    API is selected whenever its client exists and its
    counter is below threshold; failing that, the WebSocket API is selected
    whenever its client exists and its counter is below threshold.  The
    counter that enables both rules is shared: any answer of either socket
    strategy increments it, and nothing else does. *)
Theorem stickiness_follows_global_counter r :
  method r = AUTO ->
  0 < successful_api_calls r ->
  (direct_client r = true ->
   direct_api_failures r < max_direct_api_failures r ->
   _determine_method r = (DIRECT_API, r))
  /\ (ws_client r = true ->
      websocket_failures r < max_websocket_failures r ->
      direct_client r = false
      \/ max_direct_api_failures r <= direct_api_failures r ->
      _determine_method r = (WEBSOCKET_API, r))
  /\ (forall text env,
        successful_api_calls (fst (fst (send_message encrypt_json r text env)))
        = successful_api_calls r
          + counted (snd (fst (send_message encrypt_json r text env)))).
Proof.
  intros Hm Hpos. apply Z.ltb_lt in Hpos.
  split; [|split].
  - intros Hc Hlt. apply Z.ltb_lt in Hlt.
    unfold _determine_method. by rewrite Hm, Hc, Hpos, Hlt.
  - intros Hc Hlt Hd. apply Z.ltb_lt in Hlt.
    unfold _determine_method. rewrite Hm, Hc, Hpos, Hlt. simpl.
    destruct Hd as [-> | Hd]; [done|].
    apply Z.ltb_ge in Hd. rewrite Hd. by rewrite andb_false_r.
  - intros text env.
    pose proof (send_message_accounting r text env) as Hacc.
    destruct (send_message encrypt_json r text env) as [[r' x] t].
    apply Hacc.
Qed.

End RouterFacts.

(** *** Concrete sessions *)

(** Three calls with nothing reachable take a fresh router (thresholds 3)
    to the point where the breaker resets. *)
Lemma breaker_reset_restarts_from_first_witness :
  let r :=
    fst (Router.run null_cipher
           (map (Router.Send "hello") [offline; offline; offline])
           fresh_router) in
  Router._determine_method r = (Router.DIRECT_API, reset_counters r)
  /\ Router.direct_api_failures (reset_counters r) = 0
  /\ Router.websocket_failures (reset_counters r) = 0
  /\ Router.browser_failures (reset_counters r) = 0
  /\ Router.send_message null_cipher r "hello" offline
     = Router.from_direct null_cipher Router.DIRECT_API
         (Router.set_total_api_calls (Router.total_api_calls r + 1)
            (Router.set_last_method_used (Some Router.DIRECT_API)
               (reset_counters r))) offline
  /\ first_strategy (snd (Router.send_message null_cipher r "hello" offline))
     = Some Router.DIRECT_API.
Proof.
  intros r.
  apply (breaker_reset_restarts_from_first null_cipher r "hello" offline);
    vm_compute; done.
Defined.

(** Three calls in which both socket strategies time out and the browser
    does not start: a fresh router (thresholds 3) ends with the counters
    at 0, 0 and 3, and the fourth selection resets nothing. *)
Lemma uncounted_failures_never_reset_witness :
  let r :=
    fst (Router.run null_cipher
           (map (Router.Send "hello") [timeouts; timeouts; timeouts])
           fresh_router) in
  snd (Router.run null_cipher
         (map (Router.Send "hello") [timeouts; timeouts; timeouts])
         fresh_router)
  = replicate 3 (Router.Failure "Error: Failed to initialize browser client")
  /\ Router.direct_api_failures r = 0
  /\ Router.websocket_failures r = 0
  /\ Router.browser_failures r = 3
  /\ Router._determine_method r = (Router.DIRECT_API, r)
  /\ r <> reset_counters r.
Proof.
  intros r.
  pose proof (uncounted_failures_never_reset null_cipher 3 "u1" empty_store
                fresh_router "hello" [timeouts; timeouts; timeouts]
                eq_refl eq_refl eq_refl)
    as (Hres & Hd & Hw & Hb & Hsel & Hno).
  repeat split; try assumption. apply Hno. reflexivity.
Defined.

Example three_offline_rounds :
  let r :=
    fst (Router.run null_cipher
           (map (Router.Send "hello") [offline; offline; offline])
           fresh_router) in
  (Router.direct_api_failures r, Router.websocket_failures r,
   Router.browser_failures r) = (3, 3, 3).
Proof. reflexivity. Qed.

Lemma browser_success_is_not_counted_witness :
  Router.successful_api_calls
    (fst (fst (Router.send_message null_cipher fresh_router "hello"
                 only_browser_answers)))
  = Router.successful_api_calls fresh_router
  /\ Router.browser_failures
       (fst (fst (Router.send_message null_cipher fresh_router "hello"
                    only_browser_answers))) = 0
  /\ within Router.BROWSER_AUTOMATION
       (snd (Router.send_message null_cipher fresh_router "hello"
               only_browser_answers)).
Proof.
  apply (browser_success_is_not_counted null_cipher fresh_router "hello"
           only_browser_answers
           (fst (fst (Router.send_message null_cipher fresh_router "hello"
                        only_browser_answers)))
           "hi"
           (snd (Router.send_message null_cipher fresh_router "hello"
                   only_browser_answers))).
  vm_compute. reflexivity.
Defined.

(** A call answered by the browser: the response is returned, and the
    statistics show one call and no success. *)
Example browser_answer_statistics :
  let '(r', res, _) :=
    Router.send_message null_cipher fresh_router "hello" only_browser_answers in
  res = Router.Success Router.BROWSER_AUTOMATION "hi"
  /\ Router.total_api_calls r' = 1
  /\ Router.successful_api_calls r' = 0.
Proof. vm_compute. done. Qed.

Lemma silent_direct_api_is_not_counted_witness :
  Router.direct_api_failures (Router.set_direct_client true fresh_router)
  = Router.direct_api_failures fresh_router
  /\ Router.try_direct fresh_router direct_silent_websocket_answers
     = (Router.set_direct_client true fresh_router, None,
        [Router.DirectConnect] ++ [Router.DirectSend; Router.DirectWait])
  /\ Router.from_direct null_cipher Router.DIRECT_API fresh_router
       direct_silent_websocket_answers
     = (let '(r2, x, t2) :=
          Router.from_websocket null_cipher Router.WEBSOCKET_API
            (Router.set_last_method_used (Some Router.WEBSOCKET_API)
               (Router.set_direct_client true fresh_router))
            direct_silent_websocket_answers in
        (r2, x, ([Router.DirectConnect]
                 ++ [Router.DirectSend; Router.DirectWait]) ++ t2)).
Proof.
  apply (silent_direct_api_is_not_counted null_cipher fresh_router
           direct_silent_websocket_answers
           (Router.set_direct_client true fresh_router)
           [Router.DirectConnect] (Some "7f3c") None); reflexivity.
Defined.

(** The whole call in which the direct API times out: the WebSocket API
    answers, and the direct API's counter still reads 0. *)
Example direct_timeout_session :
  let '(r', res, t) :=
    Router.send_message null_cipher fresh_router "hello"
      direct_silent_websocket_answers in
  res = Router.Success Router.WEBSOCKET_API "hi"
  /\ t = [Router.DirectConnect; Router.DirectSend; Router.DirectWait;
          Router.WsConnect; Router.WsSend; Router.WsWait]
  /\ Router.direct_api_failures r' = 0.
Proof. vm_compute. done. Qed.

(** The primary strategy cannot connect and the token strategy answers:
    the answer is returned, the primary counter reads 1 and the token
    counter 0. *)
Example escalation_session :
  let '(r', res, t) :=
    Router.send_message null_cipher fresh_router "hello" websocket_answers in
  Router.returned res = "hello-response"
  /\ Router.direct_api_failures r' = 1
  /\ Router.websocket_failures r' = 0
  /\ t = [Router.DirectConnect; Router.WsConnect; Router.WsSend; Router.WsWait].
Proof. vm_compute. done. Qed.

Example contains_error_marker :
  contains "Error:" "Error: no input element" = true
  /\ contains "Error:" "Timeout waiting for response from Replit Agent."
     = false.
Proof. split; reflexivity. Qed.

(** C4 as stated fails.  First session: the only strategy that ever
    answered is the WebSocket API and its counter is below threshold, yet
    the next selection is the direct API.  Second session: the only
    strategy that ever answered is the direct API, yet after a [close()]
    and a failed call the selection sticks to the WebSocket API, although
    the direct API is below its threshold and comes first in the order. *)
Lemma stickiness_is_not_per_strategy :
  (let '(r1, res, _) :=
     Router.send_message null_cipher fresh_router "hello"
       direct_silent_websocket_answers in
   res = Router.Success Router.WEBSOCKET_API "hi"
   /\ Router.websocket_failures r1 < Router.max_websocket_failures r1
   /\ fst (Router._determine_method r1) = Router.DIRECT_API
   /\ fst (Router._determine_method r1) <> Router.WEBSOCKET_API)
  /\ (let '(r2, rs) :=
        Router.run null_cipher
          [Router.Send "hello" direct_answers; Router.Close;
           Router.Send "again" only_websocket_connects] fresh_router in
      rs = [Router.Success Router.DIRECT_API "hi";
            Router.Failure "Error: Failed to initialize browser client"]
      /\ Router.direct_api_failures r2 < Router.max_direct_api_failures r2
      /\ fst (Router._determine_method r2) = Router.WEBSOCKET_API).
Proof. vm_compute. repeat split; congruence. Qed.

(** Both rules at work.  After a call that the WebSocket API answered
    with the direct client connected, the selection is the direct API.
    After the second session above (an answer of the direct API, a
    [close()], a call in which only the WebSocket client connects) the
    selection is the WebSocket API. *)
Lemma stickiness_follows_global_counter_witness :
  let r1 :=
    fst (fst (Router.send_message null_cipher fresh_router "hello"
                direct_silent_websocket_answers)) in
  let r2 :=
    fst (Router.run null_cipher
           [Router.Send "hello" direct_answers; Router.Close;
            Router.Send "again" only_websocket_connects] fresh_router) in
  Router._determine_method r1 = (Router.DIRECT_API, r1)
  /\ Router._determine_method r2 = (Router.WEBSOCKET_API, r2)
  /\ (forall text env,
        Router.successful_api_calls
          (fst (fst (Router.send_message null_cipher r2 text env)))
        = Router.successful_api_calls r2
          + counted (snd (fst (Router.send_message null_cipher r2 text env)))).
Proof.
  intros r1 r2.
  pose proof (stickiness_follows_global_counter null_cipher r1
                eq_refl eq_refl) as (Hdirect & _ & _).
  pose proof (stickiness_follows_global_counter null_cipher r2
                eq_refl eq_refl) as (_ & Hsocket & Hcount).
  split; [apply Hdirect; reflexivity|].
  split; [apply Hsocket; [reflexivity|reflexivity|left; reflexivity]|].
  exact Hcount.
Defined.

(** ** Persistent socket transport *)

Section WebSocketFacts.

Import WebSocketClient.

(** *** Reconnection *)

(** C7. For the [k]-th reconnection attempt, [1 <= k <= max], the client
    backs off for [min(base * 2^(k-1), cap)] and then tries to connect;
    once the attempts already made have reached the maximum, [reconnect]
    puts the client in the [ERROR] state and returns [False] without
    sleeping or connecting. *)
Theorem reconnect_policy c l k :
  reconnect_attempts c = k - 1 ->
  1 <= k ->
  (k <= max_reconnect_attempts c ->
   reconnect c l
   = (let '(c2, ok) :=
        connect (set_state BACKING_OFF (set_reconnect_attempts k c)) l in
      (c2, ok,
       Some (Z.min (backoff_time c * 2 ^ (k - 1)) (max_backoff_time c)))))
  /\ (max_reconnect_attempts c < k ->
      reconnect c l = (set_state ERROR c, false, None)).
Proof.
  intros Hk Hpos. unfold reconnect. split; intros Hmax.
  - destruct (Z.leb_spec (max_reconnect_attempts c) (reconnect_attempts c));
      [lia|].
    rewrite Hk. replace (k - 1 + 1) with k by lia. simpl.
    by destruct (connect _ l).
  - destruct (Z.leb_spec (max_reconnect_attempts c) (reconnect_attempts c));
      [done|lia].
Qed.

(** The delay never exceeds the cap. *)
Lemma reconnect_delay_capped c l d :
  snd (reconnect c l) = Some d -> d <= max_backoff_time c.
Proof.
  unfold reconnect. case_match; [done|].
  destruct (connect _ l). simpl. intros [= <-]. lia.
Qed.

(** *** Waiting for an answer *)

Lemma process_message_dom now f c :
  dom (responses (fst (process_message now f c))) = dom (responses c).
Proof.
  destruct f as [mid chunk|mid|]; simpl; [| |done];
    destruct (responses c !! mid) eqn:E; simpl; try done;
    apply dom_insert_lookup_L; eauto.
Qed.

Lemma during_dom acts : forall c,
  dom (responses (fst (during acts c))) = dom (responses c).
Proof.
  induction acts as [|[now f|s] acts IH]; intros c; simpl; [done| |].
  - pose proof (process_message_dom now f c) as Hstep.
    destruct (process_message now f c) as [c1 ev]. simpl in Hstep.
    specialize (IH c1). destruct (during acts c1) as [c2 evs]. simpl in *.
    congruence.
  - by rewrite IH.
Qed.

Lemma poll_dom ticks : forall c mid start timeout c' res,
  poll ticks c mid start timeout = Some (c', res) ->
  dom (responses c') = dom (responses c).
Proof.
  induction ticks as [|tk ticks IH]; intros c mid start timeout c' res;
    simpl; (destruct (responses c !! mid) as [p|]; [|by intros [= <- _]]);
    (destruct (complete p); [by intros [= <- _]|]); [done|].
  destruct (timeout <? reading tk - start); [by intros [= <- _]|].
  destruct (bool_decide (state c = ERROR) || bool_decide (state c = CLOSED));
    [by intros [= <- _]|].
  intros Hpoll. apply IH in Hpoll. by rewrite Hpoll, during_dom.
Qed.

(** [wait_for_response] never removes an entry of [self.responses],
    however it returns. *)
Lemma wait_for_response_keeps_registrations c mid timeout start ticks c' res :
  wait_for_response c mid timeout start ticks = Some (c', res) ->
  dom (responses c') = dom (responses c).
Proof.
  unfold wait_for_response. destruct (responses c !! mid);
    [apply poll_dom|by intros [= <- _]].
Qed.

(** C5. In the persistent-socket client a request that was registered is
    still registered after [wait_for_response] has returned, whatever it
    returned; in particular after a timeout.  Nothing is cleaned up. *)
Theorem timed_out_request_stays_registered c mid timeout start ticks c' res :
  is_Some (responses c !! mid) ->
  wait_for_response c mid timeout start ticks = Some (c', res) ->
  is_Some (responses c' !! mid)
  /\ size (responses c') = size (responses c).
Proof.
  intros Hreg Hwait.
  apply wait_for_response_keeps_registrations in Hwait.
  split.
  - apply elem_of_dom. rewrite Hwait. by apply elem_of_dom.
  - by rewrite <- !size_dom, Hwait.
Qed.

(** *** Request identifiers *)

Section Identifiers.

Variable hash : string -> Z.

(** C9. Two [send_message] calls with the same text whose clock readings
    fall in the same millisecond generate the same message id; the second
    registration replaces the first, so whatever the first request had
    accumulated is lost. *)
Theorem same_millisecond_same_message_id c text u k env1 env2 :
  clock_id env1 ÷ 1000 = clock_id env2 ÷ 1000 ->
  state c = CONNECTED ->
  transmit env1 = Returns tt ->
  transmit env2 = Returns tt ->
  let mid := generate_message_id hash (clock_id env1) text in
  let c1 := fst (send_message hash c text None u k env1) in
  snd (send_message hash c text None u k env1) = Some mid
  /\ snd (send_message hash c1 text None u k env2) = Some mid
  /\ forall now chunk,
       responses
         (fst (send_message hash
                 (fst (process_message now (agentResponse mid chunk) c1))
                 text None u k env2)) !! mid
       = Some {| content := EmptyString; complete := false;
                 created_at := clock_created env2;
                 updated_at := clock_updated env2 |}.
Proof.
  intros Hms Hst Ht1 Ht2 mid c1.
  assert (Hid2 : generate_message_id hash (clock_id env2) text = mid).
  { unfold mid, generate_message_id. by rewrite Hms. }
  assert (Hsend : forall c0 env,
            state c0 = CONNECTED -> transmit env = Returns tt ->
            snd (send_message hash c0 text None u k env)
            = Some (generate_message_id hash (clock_id env) text)
            /\ state (fst (send_message hash c0 text None u k env)) = CONNECTED
            /\ responses (fst (send_message hash c0 text None u k env))
               !! generate_message_id hash (clock_id env) text
               = Some {| content := EmptyString; complete := false;
                         created_at := clock_created env;
                         updated_at := clock_updated env |}).
  { intros c0 env Hc0 Htr. unfold send_message.
    destruct (present u || present k); simpl; rewrite Hc0; simpl;
      rewrite Htr; simpl; by rewrite lookup_insert_eq. }
  destruct (Hsend c env1 Hst Ht1) as (Hr1 & Hs1 & _).
  fold c1 in Hs1.
  split; [exact Hr1|]. split.
  - destruct (Hsend c1 env2 Hs1 Ht2) as (Hr2 & _ & _). by rewrite Hr2, Hid2.
  - intros now chunk.
    assert (Hs2 : state (fst (process_message now (agentResponse mid chunk) c1))
                  = CONNECTED).
    { simpl. by destruct (responses c1 !! mid). }
    destruct (Hsend _ env2 Hs2 Ht2) as (_ & _ & Hreg).
    by rewrite Hid2 in Hreg.
Qed.

End Identifiers.

(** *** Streaming *)

Lemma append_nil_r (s : string) : s +:+ EmptyString = s.
Proof.
  induction s as [|a s IH]; [done|].
  change (String a (s +:+ EmptyString) = String a s). by rewrite IH.
Qed.

Lemma append_assoc (s1 s2 s3 : string) :
  (s1 +:+ s2) +:+ s3 = s1 +:+ (s2 +:+ s3).
Proof.
  induction s1 as [|a s1 IH]; [done|].
  change (String a ((s1 +:+ s2) +:+ s3) = String a (s1 +:+ (s2 +:+ s3))).
  by rewrite IH.
Qed.

Lemma consistent_app mid ev : forall buf evs,
  consistent mid buf ev ->
  consistent mid (buf +:+ join (updates_for mid ev)) evs ->
  consistent mid buf (ev ++ evs).
Proof.
  induction ev as [|[cb m chunk|cb m text|m text] ev IH]; intros buf evs;
    simpl.
  - by rewrite append_nil_r.
  - destruct (String.eqb m mid); simpl; [|by apply IH].
    intros H1 H2. apply IH; [done|]. by rewrite append_assoc.
  - intros [H1 H2] H3. split; [done|by apply IH].
  - by apply IH.
Qed.

Lemma consistent_split mid ev1 : forall buf cb text ev2,
  consistent mid buf (ev1 ++ Complete cb mid text :: ev2) ->
  text = buf +:+ join (updates_for mid ev1).
Proof.
  induction ev1 as [|[cb' m chunk|cb' m text'|m text'] ev1 IH];
    intros buf cb text ev2; simpl.
  - intros [H _]. rewrite append_nil_r. by apply H.
  - destruct (String.eqb m mid); simpl; intros H; apply IH in H; [|done].
    by rewrite <- append_assoc.
  - intros [_ H]. by apply IH in H.
  - intros H. by apply IH in H.
Qed.

(** One message: the request stays registered with the same handlers, its
    buffer grows by exactly what its update callback was given, and a
    completion callback of the request is given the buffer. *)
Lemma process_message_buffer now f c mid p h cb :
  responses c !! mid = Some p ->
  handlers c !! mid = Some h ->
  on_update h = Some cb ->
  exists p1,
    responses (fst (process_message now f c)) !! mid = Some p1
    /\ handlers (fst (process_message now f c)) = handlers c
    /\ content p1
       = content p +:+ join (updates_for mid (snd (process_message now f c)))
    /\ consistent mid (content p) (snd (process_message now f c)).
Proof.
  intros Hp Hh Hcb.
  destruct f as [m chunk|m|]; simpl.
  - destruct (decide (m = mid)) as [->|Hne].
    + rewrite Hp, Hh. destruct h as [u k]. simpl in Hcb. subst u. simpl.
      rewrite lookup_insert_eq, String.eqb_refl. simpl.
      eexists. split; [done|]. split; [done|]. simpl.
      by rewrite append_nil_r.
    + destruct (responses c !! m) as [q|] eqn:Hq; simpl.
      * rewrite lookup_insert_ne by done.
        exists p. split; [done|]. split; [done|].
        apply String.eqb_neq in Hne.
        destruct (handlers c !! m) as [[[cb'|] k']|]; simpl;
          rewrite ?Hne, append_nil_r; done.
      * exists p. by rewrite append_nil_r.
  - destruct (decide (m = mid)) as [->|Hne].
    + rewrite Hp, Hh. simpl. rewrite lookup_insert_eq.
      eexists. split; [done|]. split; [done|].
      destruct h as [u [k|]]; simpl; by rewrite append_nil_r.
    + destruct (responses c !! m) as [q|] eqn:Hq; simpl.
      * rewrite lookup_insert_ne by done.
        exists p. split; [done|]. split; [done|].
        destruct (handlers c !! m) as [[u' [k'|]]|]; simpl;
          by rewrite append_nil_r.
      * exists p. by rewrite append_nil_r.
  - exists p. by rewrite append_nil_r.
Qed.

Lemma process_messages_consistent frames : forall c mid p h cb,
  responses c !! mid = Some p ->
  handlers c !! mid = Some h ->
  on_update h = Some cb ->
  consistent mid (content p) (snd (process_messages frames c)).
Proof.
  induction frames as [|[now f] frames IH]; intros c mid p h cb Hp Hh Hcb;
    simpl; [done|].
  destruct (process_message_buffer now f c mid p h cb Hp Hh Hcb)
    as (p1 & Hp1 & Hh1 & Hbuf & Hcons).
  destruct (process_message now f c) as [c1 ev]. simpl in *.
  rewrite <- Hh1 in Hh.
  specialize (IH c1 mid p1 h cb Hp1 Hh Hcb).
  destruct (process_messages frames c1) as [c2 evs]. simpl in *.
  apply consistent_app; [done|]. by rewrite <- Hbuf.
Qed.

(** In the persistent-socket client, the text given to the completion
    callback of a request is its buffer at registration followed by the
    chunks given so far to its update callback. *)
Lemma websocket_completion_text frames c mid p h cb_u ev1 cb text ev2 :
  responses c !! mid = Some p ->
  handlers c !! mid = Some h ->
  on_update h = Some cb_u ->
  snd (process_messages frames c) = ev1 ++ Complete cb mid text :: ev2 ->
  text = content p +:+ join (updates_for mid ev1).
Proof.
  intros Hp Hh Hcb Hev.
  pose proof (process_messages_consistent frames c mid p h cb_u Hp Hh Hcb)
    as Hcons.
  rewrite Hev in Hcons. by apply consistent_split in Hcons.
Qed.

End WebSocketFacts.

(** ** Token socket transport *)

Section DirectAPIFacts.

Import DirectAPIClient.

(** Every call made on behalf of a stored completion carries the request
    and the text it was invoked with. *)
Lemma invoke_events : forall k mid text e,
  e ∈ invoke k mid text ->
  (exists cb, e = Complete cb mid text) \/ e = SetResult mid text.
Proof.
  fix IH 1. intros [cb|[k|]] mid text e; simpl.
  - intros ->%list_elem_of_singleton. left. by eexists.
  - rewrite elem_of_app, list_elem_of_singleton. intros [He| ->]; [|by right].
    exact (IH k mid text e He).
  - intros ->%list_elem_of_singleton. by right.
Qed.

Lemma process_message_completion f c cb mid text :
  Complete cb mid text ∈ snd (process_message f c) ->
  f = agent_response (Some mid) text.
Proof.
  destruct f as [|m chunk|m text'|]; simpl; try by intros ?%elem_of_nil.
  - destruct m as [m|]; simpl; [|by intros ?%elem_of_nil].
    destruct (negb (String.eqb m EmptyString)); [|by intros ?%elem_of_nil].
    destruct (message_callbacks c !! m) as [[[u|] k t]|]; simpl;
      try by intros ?%elem_of_nil.
    by intros ?%list_elem_of_singleton.
  - destruct m as [m|]; simpl; [|by intros ?%elem_of_nil].
    destruct (negb (String.eqb m EmptyString)); [|by intros ?%elem_of_nil].
    destruct (message_callbacks c !! m) as [[u [k|] t]|]; simpl;
      try by intros ?%elem_of_nil.
    intros [[cb' He]|He]%invoke_events; by simplify_eq.
Qed.

(** In the token-socket client, whatever a completion callback is given is
    the text of an [agent:response] message for that request. *)
Lemma direct_completion_text frames : forall c cb mid text,
  Complete cb mid text ∈ snd (process_messages frames c) ->
  agent_response (Some mid) text ∈ frames.
Proof.
  induction frames as [|f frames IH]; intros c cb mid text; simpl.
  - by intros ?%elem_of_nil.
  - pose proof (process_message_completion f c cb mid text) as Hstep.
    destruct (process_message f c) as [c1 ev].
    specialize (IH c1 cb mid text).
    destruct (process_messages frames c1) as [c2 evs]. simpl in *.
    rewrite elem_of_app. intros [He|He].
    + rewrite (Hstep He). left.
    + right. by apply IH.
Qed.

(** [wait_for_response] always removes the registration of the request,
    whether an answer arrived or the wait timed out. *)
Lemma direct_wait_for_response_deregisters c mid arrivals :
  message_callbacks (fst (fst (wait_for_response c mid arrivals))) !! mid
  = None.
Proof.
  unfold wait_for_response.
  destruct (message_callbacks c !! mid) eqn:E; [|done].
  destruct (await arrivals _ mid) as [[c2 r] evs]. simpl.
  apply lookup_delete_eq.
Qed.

(** With nothing arriving in time the wait returns [None]. *)
Lemma direct_wait_for_response_timeout c mid :
  snd (fst (wait_for_response c mid [])) = None.
Proof.
  unfold wait_for_response. by destruct (message_callbacks c !! mid).
Qed.

End DirectAPIFacts.

(** ** Streaming across the transports *)

(** C6, as amended.  In the persistent-socket client, for a request
    registered with an update callback and an empty buffer, the text given
    to the completion callback is the concatenation, in order, of the
    chunks given before to the update callback of that request (the
    completion message has no text of its own).  In the token-socket
    client, the text given to the completion callback is the text of an
    [agent:response] message for that request, whatever was streamed
    before. *)
Theorem completion_text_by_transport frames c mid p h cb_u :
  WebSocketClient.responses c !! mid = Some p ->
  WebSocketClient.content p = EmptyString ->
  WebSocketClient.handlers c !! mid = Some h ->
  WebSocketClient.on_update h = Some cb_u ->
  (forall ev1 cb text ev2,
     snd (WebSocketClient.process_messages frames c)
     = ev1 ++ Complete cb mid text :: ev2 ->
     text = join (updates_for mid ev1))
  /\ (forall d dframes cb mid' text,
        Complete cb mid' text ∈ snd (DirectAPIClient.process_messages dframes d) ->
        DirectAPIClient.agent_response (Some mid') text ∈ dframes).
Proof.
  intros Hp Hbuf Hh Hcb. split.
  - intros ev1 cb text ev2 Hev.
    rewrite (websocket_completion_text frames c mid p h cb_u ev1 cb text ev2
               Hp Hh Hcb Hev), Hbuf.
    reflexivity.
  - intros d dframes. apply direct_completion_text.
Qed.

(** ** Concrete runs of the transports *)

(** The third attempt of a client with the default settings backs off for
    4 seconds; after the fifth, [reconnect] gives up. *)
Lemma reconnect_policy_witness :
  WebSocketClient.reconnect
    (WebSocketClient.set_reconnect_attempts 2 connected_client) good_link
  = (let '(c2, ok) :=
       WebSocketClient.connect
         (WebSocketClient.set_state WebSocketClient.BACKING_OFF
            (WebSocketClient.set_reconnect_attempts 3
               (WebSocketClient.set_reconnect_attempts 2 connected_client)))
         good_link in
     (c2, ok, Some (Z.min (1 * 2 ^ (3 - 1)) 30)))
  /\ WebSocketClient.reconnect
       (WebSocketClient.set_reconnect_attempts 5 connected_client) good_link
     = (WebSocketClient.set_state WebSocketClient.ERROR
          (WebSocketClient.set_reconnect_attempts 5 connected_client),
        false, None).
Proof.
  split.
  - apply (proj1 (reconnect_policy
                    (WebSocketClient.set_reconnect_attempts 2 connected_client)
                    good_link 3 eq_refl ltac:(lia))).
    vm_compute. discriminate.
  - apply (proj2 (reconnect_policy
                    (WebSocketClient.set_reconnect_attempts 5 connected_client)
                    good_link 6 eq_refl ltac:(lia))).
    vm_compute. reflexivity.
Defined.

(** The delays of the five attempts allowed by default. *)
Example default_backoff_delays :
  map (fun n =>
         snd (WebSocketClient.reconnect
                (WebSocketClient.set_reconnect_attempts n connected_client)
                good_link))
      [0; 1; 2; 3; 4; 5]
  = [Some 1; Some 2; Some 4; Some 8; Some 16; None].
Proof. reflexivity. Qed.

Example sample_message_id :
  WebSocketClient.generate_message_id sample_hash 1700000000000100 "hello"
  = "msg_1700000000000_4242".
Proof. reflexivity. Qed.

(** A request is sent, nothing arrives, and the first clock reading after
    the 60 seconds of the timeout ends the wait with [None]: the request
    is still in [self.responses]. *)
Lemma timed_out_request_stays_registered_witness :
  let c :=
    fst (WebSocketClient.send_message sample_hash connected_client "hello"
           None None None (sending_at 1700000000000100)) in
  is_Some (WebSocketClient.responses c !! "msg_1700000000000_4242")
  /\ size (WebSocketClient.responses c) = size (WebSocketClient.responses c).
Proof.
  intros c.
  apply (timed_out_request_stays_registered c "msg_1700000000000_4242"
           60000000 1700000000000200
           [{| WebSocketClient.reading := 1700000060000300;
               WebSocketClient.sleep := [] |}]
           c (Returns None)).
  - vm_compute. by eexists.
  - vm_compute. reflexivity.
Defined.

(** Two requests that time out leave two entries behind. *)
Example timeouts_accumulate :
  let c1 :=
    fst (WebSocketClient.send_message sample_hash connected_client "hello"
           None None None (sending_at 1700000000000100)) in
  let c2 :=
    fst (WebSocketClient.send_message sample_hash c1 "hello"
           None None None (sending_at 1700000070000100)) in
  WebSocketClient.wait_for_response c2 "msg_1700000070000_4242" 60000000
    1700000070000200
    [{| WebSocketClient.reading := 1700000130000300;
        WebSocketClient.sleep := [] |}]
  = Some (c2, Returns None)
  /\ size (WebSocketClient.responses c2) = 2%nat.
Proof. vm_compute. done. Qed.

(** The same two timeouts on the token-socket client leave nothing behind. *)
Example direct_timeout_cleans_up :
  let '(c', r, _) :=
    DirectAPIClient.wait_for_response direct_client_with_request "7f3c" [] in
  r = None /\ DirectAPIClient.message_callbacks c' = ∅.
Proof. vm_compute. done. Qed.

Lemma same_millisecond_same_message_id_witness :
  let mid := "msg_1700000000000_4242" in
  let c1 :=
    fst (WebSocketClient.send_message sample_hash connected_client "hello"
           None None None (sending_at 1700000000000100)) in
  snd (WebSocketClient.send_message sample_hash connected_client "hello"
         None None None (sending_at 1700000000000100)) = Some mid
  /\ snd (WebSocketClient.send_message sample_hash c1 "hello"
            None None None (sending_at 1700000000000400)) = Some mid
  /\ forall now chunk,
       WebSocketClient.responses
         (fst (WebSocketClient.send_message sample_hash
                 (fst (WebSocketClient.process_message now
                         (WebSocketClient.agentResponse mid chunk) c1))
                 "hello" None None None (sending_at 1700000000000400))) !! mid
       = Some {| WebSocketClient.content := EmptyString;
                 WebSocketClient.complete := false;
                 WebSocketClient.created_at := 1700000000000400;
                 WebSocketClient.updated_at := 1700000000000400 |}.
Proof.
  apply (same_millisecond_same_message_id sample_hash connected_client "hello"
           None None (sending_at 1700000000000100)
           (sending_at 1700000000000400)); reflexivity.
Defined.

(** C6 as stated fails on the token-socket client: a chunk ["Hel"] is
    given to the update callback, the final message carries ["lo"], and
    the completion callback is given ["lo"], not ["Hello"]. *)
Lemma direct_completion_drops_streamed_chunks :
  snd (DirectAPIClient.process_messages
         [DirectAPIClient.agent_stream (Some "7f3c") "Hel";
          DirectAPIClient.agent_response (Some "7f3c") "lo"]
         direct_client_with_request)
  = [Update 1%nat "7f3c" "Hel"; Complete 2%nat "7f3c" "lo"]
  /\ "lo" <> join (updates_for "7f3c" [Update 1%nat "7f3c" "Hel"]) +:+ "lo".
Proof. split; [reflexivity|discriminate]. Qed.

(** What the router gets from [wait_for_response] in the same exchange. *)
Example direct_wait_returns_final_text :
  snd (fst (DirectAPIClient.wait_for_response direct_client_with_request
              "7f3c"
              [DirectAPIClient.agent_stream (Some "7f3c") "Hel";
               DirectAPIClient.agent_response (Some "7f3c") "lo"]))
  = Some "lo".
Proof. reflexivity. Qed.

Lemma completion_text_by_transport_witness :
  let c :=
    fst (WebSocketClient.send_message sample_hash connected_client "hello"
           (Some "r1") (Some 1%nat) (Some 2%nat) (sending_at 1700000000000100)) in
  let frames :=
    [(1700000001000000, WebSocketClient.agentResponse "r1" "Hel");
     (1700000002000000, WebSocketClient.agentResponse "r1" "lo");
     (1700000003000000, WebSocketClient.agentResponseComplete "r1")] in
  (forall ev1 cb text ev2,
     snd (WebSocketClient.process_messages frames c)
     = ev1 ++ Complete cb "r1" text :: ev2 ->
     text = join (updates_for "r1" ev1))
  /\ (forall d dframes cb mid' text,
        Complete cb mid' text ∈ snd (DirectAPIClient.process_messages dframes d) ->
        DirectAPIClient.agent_response (Some mid') text ∈ dframes).
Proof.
  intros c frames.
  apply (completion_text_by_transport frames c "r1"
           {| WebSocketClient.content := EmptyString; WebSocketClient.complete := false;
              WebSocketClient.created_at := 1700000000000100;
              WebSocketClient.updated_at := 1700000000000100 |}
           {| WebSocketClient.on_update := Some 1%nat;
              WebSocketClient.on_complete := Some 2%nat |} 1%nat);
    reflexivity.
Defined.

(** The same exchange on the persistent-socket client ends with the whole
    text. *)
Example websocket_stream_session :
  let c :=
    fst (WebSocketClient.send_message sample_hash connected_client "hello"
           (Some "r1") (Some 1%nat) (Some 2%nat) (sending_at 1700000000000100)) in
  snd (WebSocketClient.process_messages
         [(1700000001000000, WebSocketClient.agentResponse "r1" "Hel");
          (1700000002000000, WebSocketClient.agentResponse "r1" "lo");
          (1700000003000000, WebSocketClient.agentResponseComplete "r1")] c)
  = [Update 1%nat "r1" "Hel"; Update 1%nat "r1" "lo";
     Complete 2%nat "r1" "Hello"].
Proof. reflexivity. Qed.

(** * Further properties *)

(** ** Router: selection *)

Section RouterSelection.

Import Router.

Lemma determine_method_not_auto r : fst (_determine_method r) <> AUTO.
Proof.
  unfold _determine_method. case_bool_decide as Hm; simpl; [|done].
  repeat case_match; done.
Qed.

(** In automatic mode with a positive direct threshold, the strategy that
    [_determine_method] returns is one of the three real strategies and,
    in the router it leaves behind, that strategy's failure counter is
    below its threshold: a strategy at or over its threshold is never
    selected. *)
Theorem selection_is_below_threshold r :
  method r = AUTO ->
  0 < max_direct_api_failures r ->
  fst (_determine_method r) <> AUTO
  /\ failures_of (fst (_determine_method r)) (snd (_determine_method r))
     < threshold_of (fst (_determine_method r)) (snd (_determine_method r)).
Proof.
  intros Hm Hpos. split; [apply determine_method_not_auto|].
  unfold _determine_method. rewrite Hm. simpl.
  destruct (direct_client r && (0 <? successful_api_calls r)
            && (direct_api_failures r <? max_direct_api_failures r)) eqn:E1.
  { simpl. apply andb_true_iff in E1 as [_ E1]. by apply Z.ltb_lt. }
  destruct (ws_client r && (0 <? successful_api_calls r)
            && (websocket_failures r <? max_websocket_failures r)) eqn:E2.
  { simpl. apply andb_true_iff in E2 as [_ E2]. by apply Z.ltb_lt. }
  destruct (direct_api_failures r <? max_direct_api_failures r) eqn:E3.
  { simpl. by apply Z.ltb_lt. }
  destruct (websocket_failures r <? max_websocket_failures r) eqn:E4.
  { simpl. by apply Z.ltb_lt. }
  destruct (browser_failures r <? max_browser_failures r) eqn:E5.
  { simpl. by apply Z.ltb_lt. }
  simpl. done.
Qed.

(** [close()] only clears the three client references; doing it twice is
    the same as once; and the selection that follows no longer depends on
    earlier successes: it is the first strategy, in the fixed order, whose
    counter is below its threshold. *)
Theorem close_forgets_stickiness r :
  method r = AUTO ->
  close (close r) = close r
  /\ settings_kept r (close r)
  /\ (direct_api_failures (close r), websocket_failures (close r),
      browser_failures (close r), successful_api_calls (close r),
      total_api_calls (close r))
     = (direct_api_failures r, websocket_failures r, browser_failures r,
        successful_api_calls r, total_api_calls r)
  /\ (forall s,
        fst (_determine_method (close (set_successful_api_calls s r)))
        = fst (_determine_method (close r)))
  /\ (direct_api_failures r < max_direct_api_failures r ->
      _determine_method (close r) = (DIRECT_API, close r))
  /\ (max_direct_api_failures r <= direct_api_failures r ->
      websocket_failures r < max_websocket_failures r ->
      _determine_method (close r) = (WEBSOCKET_API, close r)).
Proof.
  intros Hm. split; [done|]. split; [done|]. split; [done|].
  split; [|split].
  - intros s. unfold _determine_method. simpl. rewrite Hm. simpl.
    repeat case_match; done.
  - intros Hlt. apply Z.ltb_lt in Hlt.
    unfold _determine_method. simpl. by rewrite Hm, Hlt.
  - intros Hge Hlt. apply Z.ltb_ge in Hge. apply Z.ltb_lt in Hlt.
    unfold _determine_method. simpl. by rewrite Hm, Hge, Hlt.
Qed.

End RouterSelection.

(** ** Router: what a call changes *)

Section RouterEffects.

Import Router.

Variable encrypt_json : gmap string json -> outcome (list Byte.byte).

Ltac effect :=
  unfold settings_kept, step_of; simpl; repeat split; try done; try lia.

Lemma try_direct_effect r env :
  let r' := fst (fst (try_direct r env)) in
  settings_kept r r'
  /\ total_api_calls r' = total_api_calls r
  /\ last_method_used r' = last_method_used r
  /\ websocket_failures r' = websocket_failures r
  /\ browser_failures r' = browser_failures r
  /\ step_of (direct_api_failures r) (direct_api_failures r').
Proof.
  unfold try_direct, _init_direct_api.
  destruct (direct_client r); [|destruct (direct_connect env) as [[|]|]];
    simpl; try (by effect);
    (destruct (direct_send env) as [mid|]; simpl; [|by effect];
     destruct (truthy_str mid); simpl; [|by effect];
     destruct (direct_wait env) as [resp|]; simpl; [|by effect];
     destruct (truthy_str resp); simpl; by effect).
Qed.

Lemma _init_websocket_api_effect r env :
  let r' := fst (fst (_init_websocket_api r env)) in
  settings_kept r r'
  /\ total_api_calls r' = total_api_calls r
  /\ last_method_used r' = last_method_used r
  /\ direct_api_failures r' = direct_api_failures r
  /\ browser_failures r' = browser_failures r
  /\ (if snd (fst (_init_websocket_api r env))
      then websocket_failures r' = websocket_failures r
      else websocket_failures r' = websocket_failures r + 1).
Proof.
  unfold _init_websocket_api, _connect_websocket.
  destruct (ws_client r); [destruct (ws_is_connected env);
    [by effect|destruct (ws_close env); [|by effect]]|];
    destruct (ws_connect env) as [[|]|]; by effect.
Qed.

Lemma try_websocket_effect r env :
  let r' := fst (fst (try_websocket r env)) in
  settings_kept r r'
  /\ total_api_calls r' = total_api_calls r
  /\ last_method_used r' = last_method_used r
  /\ direct_api_failures r' = direct_api_failures r
  /\ browser_failures r' = browser_failures r
  /\ step_of (websocket_failures r) (websocket_failures r').
Proof.
  unfold try_websocket.
  pose proof (_init_websocket_api_effect r env) as Hinit.
  destruct (_init_websocket_api r env) as [[r1 ok] t]. simpl in Hinit.
  destruct Hinit as ((?&?&?&?&?)&?&?&?&?&Hw).
  destruct ok; simpl in Hw |- *; [|effect; congruence].
  destruct (ws_send env) as [mid|]; simpl; [|effect; congruence].
  destruct (truthy_str mid); simpl; [|effect; congruence].
  destruct (ws_wait env) as [resp|]; simpl; [|effect; congruence].
  destruct (truthy_str resp); simpl; effect; congruence.
Qed.

Lemma remember_auth_effect a now w r :
  let r' := remember_auth encrypt_json a now w r in
  settings_kept r r'
  /\ total_api_calls r' = total_api_calls r
  /\ last_method_used r' = last_method_used r
  /\ direct_api_failures r' = direct_api_failures r
  /\ websocket_failures r' = websocket_failures r
  /\ browser_failures r' = browser_failures r.
Proof. unfold remember_auth. destruct (truthy a); by effect. Qed.

Lemma _init_browser_effect r env :
  let r' := fst (fst (_init_browser encrypt_json r env)) in
  settings_kept r r'
  /\ total_api_calls r' = total_api_calls r
  /\ last_method_used r' = last_method_used r
  /\ direct_api_failures r' = direct_api_failures r
  /\ websocket_failures r' = websocket_failures r
  /\ (if snd (fst (_init_browser encrypt_json r env))
      then browser_failures r' = browser_failures r
      else browser_failures r' = browser_failures r + 1).
Proof.
  unfold _init_browser.
  destruct (browser_client r && browser_initialized env); [by effect|].
  destruct (browser_new env) as [[]|]; [|by effect].
  destruct (browser_start env) as [[|]|]; try by effect.
  destruct (browser_extract_on_start env) as [a|]; [|by effect].
  cbn [fst snd].
  pose proof (remember_auth_effect a (clock_on_start env)
                (writable_on_start env) (set_browser_client true r)) as H.
  simpl in H. exact H.
Qed.

Lemma try_browser_effect r env :
  let r' := fst (fst (try_browser encrypt_json r env)) in
  settings_kept r r'
  /\ total_api_calls r' = total_api_calls r
  /\ last_method_used r' = last_method_used r
  /\ direct_api_failures r' = direct_api_failures r
  /\ websocket_failures r' = websocket_failures r
  /\ step_of (browser_failures r) (browser_failures r').
Proof.
  unfold try_browser.
  pose proof (_init_browser_effect r env) as Hinit.
  destruct (_init_browser encrypt_json r env) as [[r1 ok] t]. simpl in Hinit.
  destruct Hinit as ((?&?&?&?&?)&?&?&?&?&Hb).
  destruct ok; simpl in Hb |- *; [|effect; congruence].
  destruct (browser_send env) as [resp|]; simpl; [|effect; congruence].
  destruct (truthy_str resp && negb (contains "Error:" (py_str resp))); simpl;
    [|effect; congruence].
  destruct (browser_extract env) as [a|]; simpl; [|effect; congruence].
  pose proof (remember_auth_effect a (clock env) (writable env)
                (set_browser_failures 0 r1)) as Hr.
  set (r' := remember_auth encrypt_json a (clock env) (writable env)
               (set_browser_failures 0 r1)) in *.
  unfold settings_kept in Hr. simpl in Hr.
  destruct Hr as ((?&?&?&?&?)&?&?&?&?&Hzero).
  unfold settings_kept, step_of. repeat split; try congruence.
  right. right. exact Hzero.
Qed.

Ltac close_effect :=
  unfold settings_kept, step_of in *; simpl in *;
  repeat match goal with H : _ /\ _ |- _ => destruct H end;
  repeat split; first [congruence | lia].

Lemma from_browser_effect m r env :
  let r' := fst (fst (from_browser encrypt_json m r env)) in
  settings_kept r r'
  /\ total_api_calls r' = total_api_calls r
  /\ direct_api_failures r' = direct_api_failures r
  /\ websocket_failures r' = websocket_failures r
  /\ step_of (browser_failures r) (browser_failures r').
Proof.
  unfold from_browser. case_bool_decide; [|by effect].
  pose proof (try_browser_effect r env) as Hb.
  destruct (try_browser encrypt_json r env) as [[r1 x] t]. close_effect.
Qed.

Lemma from_websocket_effect m r env :
  let r' := fst (fst (from_websocket encrypt_json m r env)) in
  settings_kept r r'
  /\ total_api_calls r' = total_api_calls r
  /\ direct_api_failures r' = direct_api_failures r
  /\ step_of (websocket_failures r) (websocket_failures r')
  /\ step_of (browser_failures r) (browser_failures r').
Proof.
  unfold from_websocket. case_bool_decide.
  - pose proof (try_websocket_effect r env) as Hw.
    destruct (try_websocket r env) as [[r1 [x|]] t]; [close_effect|].
    match goal with
    | |- context [from_browser encrypt_json ?m' ?r' env] =>
        pose proof (from_browser_effect m' r' env) as Hb;
        destruct (from_browser encrypt_json m' r' env) as [[r2 x] t2]
    end.
    close_effect.
  - pose proof (from_browser_effect m r env) as Hb.
    destruct (from_browser encrypt_json m r env) as [[r2 x] t2]. close_effect.
Qed.

Lemma from_direct_effect m r env :
  let r' := fst (fst (from_direct encrypt_json m r env)) in
  settings_kept r r'
  /\ total_api_calls r' = total_api_calls r
  /\ step_of (direct_api_failures r) (direct_api_failures r')
  /\ step_of (websocket_failures r) (websocket_failures r')
  /\ step_of (browser_failures r) (browser_failures r').
Proof.
  unfold from_direct. case_bool_decide.
  - pose proof (try_direct_effect r env) as Hd.
    destruct (try_direct r env) as [[r1 [x|]] t]; [close_effect|].
    match goal with
    | |- context [from_websocket encrypt_json ?m' ?r' env] =>
        pose proof (from_websocket_effect m' r' env) as Hw;
        destruct (from_websocket encrypt_json m' r' env) as [[r2 x] t2]
    end.
    close_effect.
  - pose proof (from_websocket_effect m r env) as Hw.
    destruct (from_websocket encrypt_json m r env) as [[r2 x] t2].
    close_effect.
Qed.

Lemma determine_method_effect r :
  let r' := snd (_determine_method r) in
  settings_kept r r'
  /\ total_api_calls r' = total_api_calls r
  /\ successful_api_calls r' = successful_api_calls r
  /\ ((direct_api_failures r', websocket_failures r', browser_failures r')
      = (direct_api_failures r, websocket_failures r, browser_failures r)
      \/ (direct_api_failures r', websocket_failures r', browser_failures r')
         = (0, 0, 0)).
Proof.
  unfold _determine_method.
  repeat case_match; simpl; unfold settings_kept; simpl; tauto.
Qed.

Lemma send_message_keeps_sane r text env :
  sane r ->
  let r' := fst (fst (send_message encrypt_json r text env)) in
  sane r'
  /\ settings_kept r r'
  /\ total_api_calls r' = total_api_calls r + 1
  /\ direct_api_failures r' <= direct_api_failures r + 1
  /\ websocket_failures r' <= websocket_failures r + 1
  /\ browser_failures r' <= browser_failures r + 1.
Proof.
  intros (Hd & Hw & Hb & Hs & Hst).
  pose proof (send_message_accounting encrypt_json r text env) as Hacc.
  unfold send_message in *.
  pose proof (determine_method_effect r) as Hsel.
  destruct (_determine_method r) as [m r0]. simpl in Hsel.
  match goal with
  | |- context [from_direct encrypt_json m ?r1 env] =>
      pose proof (from_direct_effect m r1 env) as Heff;
      destruct (from_direct encrypt_json m r1 env) as [[r2 x] t]
  end.
  simpl in Heff |- *. destruct Hacc as [Hacc _].
  destruct Hsel as ((?&?&?&?&?)&?&?&Hc).
  destruct Heff as ((?&?&?&?&?)&?&Hsd&Hsw&Hsb).
  assert (0 <= counted x <= 1) by (destruct x as [[]|]; simpl; lia).
  unfold sane, settings_kept, step_of in *.
  destruct Hc as [Hc|Hc]; simplify_eq/=; repeat split; try congruence; lia.
Qed.

(** One call of [send_message] adds exactly one to [total_api_calls],
    leaves the user, the pinned method and the three thresholds as they
    were, and, on a router whose counters and statistics are not negative,
    leaves every failure counter between zero and one more than before
    and the successes between zero and the total. *)
Theorem send_message_bookkeeping r text env :
  sane r ->
  let r' := fst (fst (send_message encrypt_json r text env)) in
  sane r'
  /\ settings_kept r r'
  /\ total_api_calls r' = total_api_calls r + 1
  /\ direct_api_failures r' <= direct_api_failures r + 1
  /\ websocket_failures r' <= websocket_failures r + 1
  /\ browser_failures r' <= browser_failures r + 1.
Proof. apply send_message_keeps_sane. Qed.

(** Over a whole session of [send_message] and [close] calls, the counters
    stay non-negative, the successes never exceed the calls, the settings
    never change, and [total_api_calls] grows by the number of
    [send_message] calls, each of which returns one result. *)
Theorem session_statistics ops : forall r,
  sane r ->
  sane (fst (run encrypt_json ops r))
  /\ settings_kept r (fst (run encrypt_json ops r))
  /\ total_api_calls (fst (run encrypt_json ops r))
     = total_api_calls r + sends ops
  /\ Z.of_nat (length (snd (run encrypt_json ops r))) = sends ops.
Proof.
  induction ops as [|[text env|] ops IH]; intros r Hsane.
  - simpl. split; [exact Hsane|]. unfold settings_kept.
    repeat split; try done; lia.
  - pose proof (send_message_keeps_sane r text env Hsane) as Hstep.
    cbn [run sends].
    destruct (send_message encrypt_json r text env) as [[r1 res] t].
    simpl in Hstep. destruct Hstep as (Hs1 & Hk1 & Ht1 & _).
    specialize (IH r1 Hs1).
    destruct (run encrypt_json ops r1) as [r2 rs]. cbn [fst snd] in IH |- *.
    destruct IH as (Hs2 & Hk2 & Ht2 & Hl2).
    split; [exact Hs2|]. unfold settings_kept in *.
    destruct Hk1 as (?&?&?&?&?). destruct Hk2 as (?&?&?&?&?).
    cbn [length]. rewrite Nat2Z.inj_succ.
    repeat split; try congruence; lia.
  - cbn [run sends]. apply (IH (close r)). exact Hsane.
Qed.

End RouterEffects.

(** ** Router: what a call returns *)

Section RouterResults.

Import Router.

Variable encrypt_json : gmap string json -> outcome (list Byte.byte).

Lemma truthy_str_text o : truthy_str o = true -> py_str o <> EmptyString.
Proof.
  destruct o as [s|]; simpl; [|done].
  intros H ->. by rewrite String.eqb_refl in H.
Qed.

Lemma prefix_append (p s : string) : String.prefix p (p +:+ s) = true.
Proof.
  induction p as [|a p IH]; [by destruct s|].
  change (String a p +:+ s) with (String a (p +:+ s)). cbn [String.prefix].
  destruct (Ascii.ascii_dec a a); [exact IH|done].
Qed.

Lemma error_prefix e : String.prefix "Error: " ("Error: " +:+ e) = true.
Proof. apply prefix_append. Qed.

Lemma try_direct_answer r env :
  match try_direct r env with
  | (_, Some x, _) =>
      exists o, x = Success DIRECT_API (py_str o) /\ truthy_str o = true
  | _ => True
  end.
Proof.
  unfold try_direct.
  destruct (_init_direct_api r env) as [[r1 ok] t].
  destruct ok; [|done].
  destruct (direct_send env) as [mid|]; [|done].
  destruct (truthy_str mid); [|done].
  destruct (direct_wait env) as [resp|]; [|done].
  destruct (truthy_str resp) eqn:E; [|done]. by exists resp.
Qed.

Lemma try_websocket_answer r env :
  match try_websocket r env with
  | (_, Some x, _) =>
      exists o, x = Success WEBSOCKET_API (py_str o) /\ truthy_str o = true
  | _ => True
  end.
Proof.
  unfold try_websocket.
  destruct (_init_websocket_api r env) as [[r1 ok] t].
  destruct ok; [|done].
  destruct (ws_send env) as [mid|]; [|done].
  destruct (truthy_str mid); [|done].
  destruct (ws_wait env) as [resp|]; [|done].
  destruct (truthy_str resp) eqn:E; [|done]. by exists resp.
Qed.

Lemma try_browser_reported r env :
  last_method_used r = Some BROWSER_AUTOMATION ->
  match try_browser encrypt_json r env with
  | (r', x, _) => reported r' x
  end.
Proof.
  intros Hlast.
  pose proof (try_browser_effect encrypt_json r env) as Heff.
  destruct (try_browser encrypt_json r env) as [[r' x] t] eqn:Htry.
  cbn [fst] in Heff. destruct Heff as (_&_&Hl&_). rewrite Hlast in Hl.
  unfold try_browser in Htry.
  destruct (_init_browser encrypt_json r env) as [[r1 ok] t1].
  destruct ok; cbn [negb] in Htry;
    [|simplify_eq; split; [exact Hl|apply error_prefix]].
  destruct (browser_send env) as [resp|];
    [|simplify_eq; split; [exact Hl|apply error_prefix]].
  destruct (truthy_str resp && negb (contains "Error:" (py_str resp))) eqn:E;
    [|simplify_eq; split; [exact Hl|apply error_prefix]].
  apply andb_true_iff in E as [E _].
  destruct (browser_extract env) as [a|]; simplify_eq;
    [|split; [exact Hl|apply error_prefix]].
  split; [done|]. split; [exact Hl|by apply truthy_str_text].
Qed.

Lemma from_websocket_reported m r env :
  m = WEBSOCKET_API \/ m = BROWSER_AUTOMATION ->
  last_method_used r = Some m ->
  match from_websocket encrypt_json m r env with
  | (r', x, _) => reported r' x
  end.
Proof.
  intros Hm Hlast. unfold from_websocket, from_browser.
  destruct Hm as [-> | ->]; simpl.
  - pose proof (try_websocket_answer r env) as Hans.
    pose proof (try_websocket_effect r env) as Heff.
    destruct (try_websocket r env) as [[r1 [x|]] t]; simpl in Heff.
    + destruct Hans as (o & -> & Ho). destruct Heff as (_&_&Hl&_).
      simpl. rewrite Hl, Hlast. repeat split; [done|by apply truthy_str_text].
    + match goal with
      | |- context [try_browser encrypt_json ?r' env] =>
          pose proof (try_browser_reported r' env eq_refl) as Hb;
          destruct (try_browser encrypt_json r' env) as [[r2 x] t2]
      end.
      exact Hb.
  - by apply try_browser_reported.
Qed.

Lemma from_direct_reported m r env :
  m <> AUTO ->
  last_method_used r = Some m ->
  match from_direct encrypt_json m r env with
  | (r', x, _) => reported r' x
  end.
Proof.
  intros Hm Hlast. unfold from_direct.
  destruct m; simpl; try done.
  - pose proof (try_direct_answer r env) as Hans.
    pose proof (try_direct_effect r env) as Heff.
    destruct (try_direct r env) as [[r1 [x|]] t]; simpl in Heff.
    + destruct Hans as (o & -> & Ho). destruct Heff as (_&_&Hl&_).
      simpl. rewrite Hl, Hlast. repeat split; [done|by apply truthy_str_text].
    + match goal with
      | |- context [from_websocket encrypt_json ?m' ?r' env] =>
          pose proof (from_websocket_reported m' r' env
                        (or_introl eq_refl) eq_refl) as Hw;
          destruct (from_websocket encrypt_json m' r' env) as [[r2 x] t2]
      end.
      exact Hw.
  - by apply from_websocket_reported; [left|].
  - by apply from_websocket_reported; [right|].
Qed.

(** Whatever the transports do, [send_message] returns either the
    non-empty answer of one of the three strategies, and then
    [last_method_used] names that strategy, or a text that starts with
    ["Error: "], and then [last_method_used] is the browser strategy.  The
    closing ["Failed to get a response ... through any method."] is never
    returned. *)
Theorem result_names_its_strategy r text env :
  match send_message encrypt_json r text env with
  | (r', x, _) => reported r' x
  end.
Proof.
  unfold send_message.
  pose proof (determine_method_not_auto r) as Hm.
  destruct (_determine_method r) as [m r0]. simpl in Hm.
  by apply from_direct_reported.
Qed.

Lemma not_before_sublist m t l :
  t `sublist_of` l -> not_before m l -> not_before m t.
Proof.
  unfold not_before. rewrite !Forall_forall. intros Hsub Hl c Hc.
  apply Hl. eapply elem_of_sublist; eauto.
Qed.

(** No call makes an operation of a strategy that comes before the
    selected one; and a pinned strategy is returned as it is, with no
    breaker reset, whatever the counters say. *)
Theorem never_before_the_selected_strategy r text env :
  not_before (fst (_determine_method r))
    (snd (send_message encrypt_json r text env))
  /\ (method r <> AUTO -> _determine_method r = (method r, r)).
Proof.
  split.
  - unfold send_message. destruct (_determine_method r) as [m r0]. simpl.
    destruct m.
    + unfold not_before. apply Forall_forall. intros c _. simpl. lia.
    + eapply not_before_sublist;
        [exact (from_websocket_trace encrypt_json WEBSOCKET_API _ env)|].
      unfold not_before. by repeat constructor.
    + eapply not_before_sublist;
        [exact (from_browser_trace encrypt_json BROWSER_AUTOMATION _ env)|].
      unfold not_before. by repeat constructor.
    + unfold from_direct, from_websocket, from_browser. simpl.
      by constructor.
  - intros Hm. unfold _determine_method. by case_bool_decide.
Qed.

(** The operations of one call are a subsequence of the fixed sequence
    (direct: connect, send, wait; WebSocket: is_connected, close, connect,
    send, wait; browser: start, extract, send, extract), so none is made
    twice and none of an earlier strategy follows one of a later. *)
Theorem operations_follow_escalation_order r text env :
  snd (send_message encrypt_json r text env)
  `sublist_of` direct_calls ++ websocket_calls ++ browser_calls
  /\ NoDup (snd (send_message encrypt_json r text env)).
Proof.
  split; [apply send_message_trace|].
  eapply sublist_NoDup; [|apply send_message_trace].
  apply (bool_decide_unpack _). by vm_compute.
Qed.

(** *** Credentials found by the browser *)

Lemma try_browser_credentials r env r' m resp t a :
  try_browser encrypt_json r env = (r', Success m resp, t) ->
  browser_extract env = Returns a ->
  truthy a = true ->
  auth_data r' = a
  /\ TokenManager.get_user_tokens (user_id r) (token_manager r') = Returns a.
Proof.
  intros Htry Hext Ha.
  pose proof (_init_browser_effect encrypt_json r env) as Hinit.
  unfold try_browser in Htry.
  destruct (_init_browser encrypt_json r env) as [[r1 ok] t1].
  simpl in Hinit. destruct Hinit as ((Hu&_)&_).
  destruct ok; cbn [negb] in Htry; [|done].
  destruct (browser_send env) as [o|]; [|done].
  destruct (truthy_str o && negb (contains "Error:" (py_str o))); [|done].
  rewrite Hext in Htry. simplify_eq.
  unfold remember_auth. rewrite Ha. simpl. split; [done|].
  rewrite <- Hu. apply get_after_store.
Qed.

Lemma from_websocket_browser_origin m r env r' resp t :
  from_websocket encrypt_json m r env
  = (r', Success BROWSER_AUTOMATION resp, t) ->
  exists r0 t0,
    user_id r0 = user_id r
    /\ try_browser encrypt_json r0 env
       = (r', Success BROWSER_AUTOMATION resp, t0).
Proof.
  unfold from_websocket, from_browser. case_bool_decide.
  - pose proof (try_websocket_answer r env) as Hans.
    pose proof (try_websocket_effect r env) as Heff.
    destruct (try_websocket r env) as [[r1 [x|]] t1]; simpl in Heff.
    + destruct Hans as (o & -> & _). done.
    + simpl.
      match goal with
      | |- context [try_browser encrypt_json ?r2 env] =>
          destruct (try_browser encrypt_json r2 env) as [[r3 x] t3] eqn:E;
          intros [= -> -> <-]; exists r2, t3
      end.
      split; [|done]. simpl. by destruct Heff as ((?&_)&_).
  - case_bool_decide; [|done]. intros Htry. by exists r, t.
Qed.

(** When the browser strategy answers and its client yields a non-empty
    authentication bundle, the router holds that bundle afterwards and the
    credential store returns it for the router's user. *)
Theorem browser_answer_persists_credentials r text env r' resp t a :
  send_message encrypt_json r text env
  = (r', Success BROWSER_AUTOMATION resp, t) ->
  browser_extract env = Returns a ->
  truthy a = true ->
  auth_data r' = a
  /\ TokenManager.get_user_tokens (user_id r) (token_manager r') = Returns a.
Proof.
  intros Hsend Hext Ha.
  assert (exists r0 t0,
            user_id r0 = user_id r
            /\ try_browser encrypt_json r0 env
               = (r', Success BROWSER_AUTOMATION resp, t0))
    as (r0 & t0 & Hu & Htry).
  { unfold send_message in Hsend.
    pose proof (determine_method_effect r) as Hsel.
    destruct (_determine_method r) as [m r1]. simpl in Hsel.
    destruct Hsel as ((Hu1&_)&_).
    unfold from_direct in Hsend. case_bool_decide.
    - pose proof (try_direct_answer
                    (set_total_api_calls (total_api_calls r1 + 1)
                       (set_last_method_used (Some m) r1)) env) as Hans.
      pose proof (try_direct_effect
                    (set_total_api_calls (total_api_calls r1 + 1)
                       (set_last_method_used (Some m) r1)) env) as Heff.
      destruct (try_direct _ env) as [[r2 [x|]] t2]; simpl in Heff.
      + destruct Hans as (o & -> & _). done.
      + destruct (from_websocket encrypt_json WEBSOCKET_API _ env)
          as [[r3 x] t3] eqn:E.
        simplify_eq.
        apply from_websocket_browser_origin in E as (r0 & t0 & Hu0 & Htry).
        exists r0, t0. split; [|done].
        destruct Heff as ((Hu2&_)&_). simpl in *. congruence.
    - apply from_websocket_browser_origin in Hsend as (r0 & t0 & Hu0 & Htry).
      exists r0, t0. split; [|done]. simpl in *. congruence. }
  rewrite <- Hu.
  by apply (try_browser_credentials r0 env r' BROWSER_AUTOMATION resp t0 a).
Qed.

End RouterResults.

(** ** Credential store: validity, isolation, persistence *)

Section TokenManagerMore.

Variable encrypt_json : gmap string json -> outcome (list Byte.byte).
Variable decrypt_json : list Byte.byte -> outcome (gmap string json).

(** A bundle stored at time [t] is valid at time [now] exactly when
    [now - t < max_age]; a user that was deleted, or never stored, has no
    valid tokens. *)
Theorem stored_tokens_age u b t w w' max_age now tm :
  TokenManager.is_token_valid u max_age now
    (fst (TokenManager.store_user_tokens encrypt_json u b t w tm))
  = Returns (now - t <? max_age)
  /\ TokenManager.is_token_valid u max_age now
       (fst (TokenManager.delete_user_tokens encrypt_json u w' tm))
     = Returns false
  /\ TokenManager.is_token_valid u max_age now
       {| TokenManager.tokens := ∅; TokenManager.tokens_file := TokenManager.Absent |}
     = Returns false.
Proof.
  split; [|split].
  - unfold TokenManager.is_token_valid, TokenManager.store_user_tokens.
    rewrite save_tokens_preserves_tokens. simpl.
    by rewrite lookup_insert_eq.
  - unfold TokenManager.is_token_valid, TokenManager.delete_user_tokens.
    destruct (TokenManager.tokens tm !! u) eqn:E.
    + rewrite save_tokens_preserves_tokens. simpl.
      by rewrite lookup_delete_eq.
    + simpl. by rewrite E.
  - unfold TokenManager.is_token_valid. simpl. by rewrite lookup_empty.
Qed.

(** Storing or deleting the tokens of one user changes neither what
    [get_user_tokens] returns for any other user nor whether that user's
    tokens are valid. *)
Theorem other_users_are_untouched u v b t w max_age now tm :
  u <> v ->
  TokenManager.get_user_tokens v
    (fst (TokenManager.store_user_tokens encrypt_json u b t w tm))
  = TokenManager.get_user_tokens v tm
  /\ TokenManager.get_user_tokens v
       (fst (TokenManager.delete_user_tokens encrypt_json u w tm))
     = TokenManager.get_user_tokens v tm
  /\ TokenManager.is_token_valid v max_age now
       (fst (TokenManager.store_user_tokens encrypt_json u b t w tm))
     = TokenManager.is_token_valid v max_age now tm
  /\ TokenManager.is_token_valid v max_age now
       (fst (TokenManager.delete_user_tokens encrypt_json u w tm))
     = TokenManager.is_token_valid v max_age now tm.
Proof.
  intros Hne.
  assert (Hstore : TokenManager.tokens
            (fst (TokenManager.store_user_tokens encrypt_json u b t w tm)) !! v
          = TokenManager.tokens tm !! v).
  { unfold TokenManager.store_user_tokens.
    rewrite save_tokens_preserves_tokens. simpl.
    by rewrite lookup_insert_ne. }
  assert (Hdel : TokenManager.tokens
            (fst (TokenManager.delete_user_tokens encrypt_json u w tm)) !! v
          = TokenManager.tokens tm !! v).
  { unfold TokenManager.delete_user_tokens.
    destruct (TokenManager.tokens tm !! u); [|done].
    rewrite save_tokens_preserves_tokens. simpl.
    by rewrite lookup_delete_ne. }
  unfold TokenManager.get_user_tokens, TokenManager.is_token_valid.
  by rewrite Hstore, Hdel.
Qed.

Lemma save_tokens_outcome w tm :
  if snd (TokenManager.save_tokens encrypt_json w tm)
  then in_sync encrypt_json (fst (TokenManager.save_tokens encrypt_json w tm))
  else TokenManager.tokens_file (fst (TokenManager.save_tokens encrypt_json w tm))
       = TokenManager.tokens_file tm
       \/ cut_short encrypt_json
            (fst (TokenManager.save_tokens encrypt_json w tm)).
Proof.
  unfold TokenManager.save_tokens, in_sync, cut_short.
  destruct (encrypt_json (TokenManager.tokens tm)) as [data|] eqn:E;
    [|by left].
  destruct w as [| |kept]; simpl.
  - by exists data.
  - by left.
  - right. by exists data, kept.
Qed.

Lemma save_tokens_broken kept tm data :
  encrypt_json (TokenManager.tokens tm) = Returns data ->
  TokenManager.save_tokens encrypt_json (TokenManager.Broken kept) tm
  = (TokenManager.set_tokens_file (TokenManager.Stored (take kept data)) tm,
     false).
Proof. intros E. unfold TokenManager.save_tokens. by rewrite E. Qed.

Lemma store_user_tokens_outcome u b t w tm :
  TokenManager.get_user_tokens u
    (fst (TokenManager.store_user_tokens encrypt_json u b t w tm))
  = Returns b
  /\ (if snd (TokenManager.store_user_tokens encrypt_json u b t w tm)
      then in_sync encrypt_json
             (fst (TokenManager.store_user_tokens encrypt_json u b t w tm))
      else TokenManager.tokens_file
             (fst (TokenManager.store_user_tokens encrypt_json u b t w tm))
           = TokenManager.tokens_file tm
           \/ cut_short encrypt_json
                (fst (TokenManager.store_user_tokens encrypt_json u b t w tm))).
Proof.
  split; [apply get_after_store|].
  unfold TokenManager.store_user_tokens.
  apply (save_tokens_outcome w
           (TokenManager.set_tokens
              (<[u := JDict [("data", b); ("stored_at", JNum t)]]>
                 (TokenManager.tokens tm)) tm)).
Qed.

(** [store_user_tokens] always puts the bundle into the mapping in memory.
    When it returns [True] the file holds an encryption of that mapping.
    When it returns [False] the file is either as before, or was emptied
    by the [open] and holds only the first bytes of the new encryption:
    with a write that breaks off after [kept] bytes the call returns
    [False] and those bytes are all that is left of the file. *)
Theorem store_reports_what_was_written u b t w tm :
  TokenManager.get_user_tokens u
    (fst (TokenManager.store_user_tokens encrypt_json u b t w tm))
  = Returns b
  /\ (if snd (TokenManager.store_user_tokens encrypt_json u b t w tm)
      then in_sync encrypt_json
             (fst (TokenManager.store_user_tokens encrypt_json u b t w tm))
      else TokenManager.tokens_file
             (fst (TokenManager.store_user_tokens encrypt_json u b t w tm))
           = TokenManager.tokens_file tm
           \/ cut_short encrypt_json
                (fst (TokenManager.store_user_tokens encrypt_json u b t w tm)))
  /\ (forall kept,
        match encrypt_json
                (TokenManager.tokens
                   (fst (TokenManager.store_user_tokens encrypt_json u b t
                           (TokenManager.Broken kept) tm))) with
        | Returns data =>
            snd (TokenManager.store_user_tokens encrypt_json u b t
                   (TokenManager.Broken kept) tm) = false
            /\ TokenManager.tokens_file
                 (fst (TokenManager.store_user_tokens encrypt_json u b t
                         (TokenManager.Broken kept) tm))
               = TokenManager.Stored (take kept data)
        | Raises _ =>
            TokenManager.tokens_file
              (fst (TokenManager.store_user_tokens encrypt_json u b t
                      (TokenManager.Broken kept) tm))
            = TokenManager.tokens_file tm
        end).
Proof.
  pose proof (store_user_tokens_outcome u b t w tm) as [Hget Hfile].
  split; [exact Hget|]. split; [exact Hfile|].
  intros kept. unfold TokenManager.store_user_tokens.
  set (tm1 := TokenManager.set_tokens _ tm).
  rewrite save_tokens_preserves_tokens.
  destruct (encrypt_json (TokenManager.tokens tm1)) as [data|e] eqn:E.
  - by rewrite (save_tokens_broken kept tm1 data E).
  - unfold TokenManager.save_tokens. by rewrite E.
Qed.

(** [delete_user_tokens] returns [False] and changes nothing for a user
    that is not stored.  For a stored user the entry leaves the mapping in
    memory in any case; [True] means that the file holds an encryption of
    that mapping, [False] that the file is either as before (the entry is
    still in it) or was emptied by the [open] and holds only the first
    bytes of the new encryption. *)
Theorem delete_reports_what_was_written u w tm :
  match TokenManager.tokens tm !! u with
  | None => TokenManager.delete_user_tokens encrypt_json u w tm = (tm, false)
  | Some _ =>
      TokenManager.tokens
        (fst (TokenManager.delete_user_tokens encrypt_json u w tm))
      = delete u (TokenManager.tokens tm)
      /\ (if snd (TokenManager.delete_user_tokens encrypt_json u w tm)
          then in_sync encrypt_json
                 (fst (TokenManager.delete_user_tokens encrypt_json u w tm))
          else TokenManager.tokens_file
                 (fst (TokenManager.delete_user_tokens encrypt_json u w tm))
               = TokenManager.tokens_file tm
               \/ cut_short encrypt_json
                    (fst (TokenManager.delete_user_tokens encrypt_json u w tm)))
      /\ (forall kept data,
            encrypt_json (delete u (TokenManager.tokens tm)) = Returns data ->
            TokenManager.delete_user_tokens encrypt_json u
              (TokenManager.Broken kept) tm
            = ({| TokenManager.tokens := delete u (TokenManager.tokens tm);
                  TokenManager.tokens_file :=
                    TokenManager.Stored (take kept data) |}, false))
  end.
Proof.
  unfold TokenManager.delete_user_tokens.
  destruct (TokenManager.tokens tm !! u); [|done].
  split; [by rewrite save_tokens_preserves_tokens|]. split.
  - apply (save_tokens_outcome w
             (TokenManager.set_tokens (delete u (TokenManager.tokens tm)) tm)).
  - intros kept data E.
    by rewrite (save_tokens_broken kept
                  (TokenManager.set_tokens (delete u (TokenManager.tokens tm)) tm)
                  data E).
Qed.

(** If the cipher decrypts what it encrypted for the mapping that was
    saved, a manager constructed later on the file left by a successful
    [store_user_tokens] holds the same mapping and returns the stored
    bundle. *)
Theorem stored_tokens_survive_restart u b t w tm tm' :
  TokenManager.store_user_tokens encrypt_json u b t w tm = (tm', true) ->
  (forall data,
     encrypt_json (TokenManager.tokens tm') = Returns data ->
     decrypt_json data = Returns (TokenManager.tokens tm')) ->
  exists tm2,
    TokenManager.init decrypt_json (Returns tt) (Returns tt)
      (TokenManager.tokens_file tm') = Returns tm2
    /\ TokenManager.tokens tm2 = TokenManager.tokens tm'
    /\ TokenManager.get_user_tokens u tm2 = Returns b.
Proof.
  intros Hstore Hcipher.
  pose proof (store_user_tokens_outcome u b t w tm) as [Hget Hsync].
  rewrite Hstore in Hget, Hsync. simpl in Hget, Hsync.
  destruct Hsync as (data & Henc & Hfile).
  eexists. split; [reflexivity|].
  assert (Htok : TokenManager.tokens
            (TokenManager.load_tokens decrypt_json
               {| TokenManager.tokens := ∅;
                  TokenManager.tokens_file := TokenManager.tokens_file tm' |})
          = TokenManager.tokens tm').
  { unfold TokenManager.load_tokens. simpl. rewrite Hfile.
    by rewrite (Hcipher data Henc). }
  split; [exact Htok|].
  unfold TokenManager.get_user_tokens in *. by rewrite Htok.
Qed.

End TokenManagerMore.

(** ** Persistent socket transport: connecting, sending, waiting *)

Section WebSocketMore.

Import WebSocketClient.

Lemma open_socket_outcome c l :
  responses (fst (open_socket c l)) = responses c
  /\ handlers (fst (open_socket c l)) = handlers c
  /\ (if snd (open_socket c l)
      then state (fst (open_socket c l)) = CONNECTED
           /\ reconnect_attempts (fst (open_socket c l)) = 0
      else state (fst (open_socket c l)) = NO_CONNECTION
           /\ reconnect_attempts (fst (open_socket c l))
              = reconnect_attempts c).
Proof.
  unfold open_socket.
  destruct (dial l); [destruct (handshake l)|]; simpl; done.
Qed.

Lemma connect_outcome c l :
  responses (fst (connect c l)) = responses c
  /\ handlers (fst (connect c l)) = handlers c
  /\ match state c with
     | CONNECTED | CONNECTING => connect c l = (c, true)
     | _ =>
         if snd (connect c l)
         then state (fst (connect c l)) = CONNECTED
              /\ reconnect_attempts (fst (connect c l)) = 0
         else (state (fst (connect c l)) = ERROR
               \/ state (fst (connect c l)) = NO_CONNECTION)
              /\ reconnect_attempts (fst (connect c l))
                 = reconnect_attempts c
     end.
Proof.
  unfold connect.
  destruct (state c) eqn:Hst; simpl; try done;
    (destruct (String.eqb (client_id c) EmptyString
               || String.eqb (session_id c) EmptyString);
     [unfold _extract_connection_params;
      destruct (extracted l) as [[cid sid] cluster];
      destruct (negb (String.eqb cid EmptyString)
                && negb (String.eqb sid EmptyString));
      [|simpl; by eauto]|]);
    match goal with
    | |- context [open_socket ?c' l] =>
        pose proof (open_socket_outcome c' l) as (Hr & Hh & Ho);
        destruct (open_socket c' l) as [c2 ok]
    end;
    simpl in *; destruct ok; intuition.
Qed.

(** [connect] never touches the registered requests.  On a client found
    [CONNECTED] or [CONNECTING] it returns [True] and changes nothing (in
    the second case without there being a connection).  Otherwise it
    returns [True] exactly when the client ends [CONNECTED], with the
    reconnection counter back at zero, and [False] with the client in
    [ERROR] (no connection parameters) or [NO_CONNECTION] (the socket or
    the handshake failed) and the counter unchanged. *)
Theorem connect_outcomes c l :
  responses (fst (connect c l)) = responses c
  /\ handlers (fst (connect c l)) = handlers c
  /\ match state c with
     | CONNECTED | CONNECTING => connect c l = (c, true)
     | _ =>
         if snd (connect c l)
         then state (fst (connect c l)) = CONNECTED
              /\ reconnect_attempts (fst (connect c l)) = 0
         else (state (fst (connect c l)) = ERROR
               \/ state (fst (connect c l)) = NO_CONNECTION)
              /\ reconnect_attempts (fst (connect c l))
                 = reconnect_attempts c
     end.
Proof. apply connect_outcome. Qed.

(** [reconnect] either gives up at once (counter at its maximum: state
    [ERROR], nothing else changed), or sleeps and connects; a successful
    attempt leaves the client [CONNECTED] with the counter at zero, so the
    next series of attempts starts again from the base delay; a failed one
    leaves the counter one higher.  The registered requests are never
    touched. *)
Theorem reconnect_outcomes c l :
  responses (fst (fst (reconnect c l))) = responses c
  /\ handlers (fst (fst (reconnect c l))) = handlers c
  /\ match reconnect c l with
     | (c', _, None) =>
         c' = set_state ERROR c
         /\ max_reconnect_attempts c <= reconnect_attempts c
     | (c', true, Some _) =>
         state c' = CONNECTED /\ reconnect_attempts c' = 0
     | (c', false, Some _) =>
         (state c' = ERROR \/ state c' = NO_CONNECTION)
         /\ reconnect_attempts c' = reconnect_attempts c + 1
     end.
Proof.
  unfold reconnect.
  destruct (Z.leb_spec (max_reconnect_attempts c) (reconnect_attempts c)).
  { simpl. done. }
  match goal with
  | |- context [connect ?c' l] =>
      pose proof (connect_outcome c' l) as (Hr & Hh & Ho);
      destruct (connect c' l) as [c2 ok]
  end.
  simpl in *. destruct ok; intuition.
Qed.

(** *** Sending *)

(** [send_message] registers the request before it makes sure of the
    connection: whether it returns the message id or [None], the request
    is registered afterwards with an empty buffer.  Handlers are replaced
    only when a callback is given; otherwise those of an earlier request
    with the same id stay in place. *)
Theorem send_message_registers_first hash c text mid u k env :
  let id :=
    match mid with
    | Some m => m
    | None => generate_message_id hash (clock_id env) text
    end in
  let c' := fst (send_message hash c text mid u k env) in
  responses c' !! id
  = Some {| content := EmptyString; complete := false;
            created_at := clock_created env;
            updated_at := clock_updated env |}
  /\ (snd (send_message hash c text mid u k env) = None
      \/ snd (send_message hash c text mid u k env) = Some id)
  /\ (if present u || present k
      then handlers c' !! id = Some {| on_update := u; on_complete := k |}
      else handlers c' = handlers c).
Proof.
  intros id c'. subst c'. unfold send_message. fold id.
  match goal with
  | |- context [connect ?c1 (link env)] =>
      pose proof (connect_outcome c1 (link env)) as (Hr & Hh & _);
      set (c2 := c1) in *
  end.
  assert (Hreg : responses c2 !! id
                 = Some {| content := EmptyString; complete := false;
                           created_at := clock_created env;
                           updated_at := clock_updated env |}).
  { subst c2. destruct (present u || present k); simpl;
      by rewrite lookup_insert_eq. }
  assert (Hhd : if present u || present k
                then handlers c2 !! id
                     = Some {| on_update := u; on_complete := k |}
                else handlers c2 = handlers c).
  { subst c2. destruct (present u || present k); simpl;
      [by rewrite lookup_insert_eq|done]. }
  clearbody c2.
  case_bool_decide.
  - destruct (transmit env); simpl; auto.
  - destruct (connect c2 (link env)) as [c3 ok]. simpl in Hr, Hh.
    rewrite <- Hr in Hreg.
    assert (Hhd' : if present u || present k
                   then handlers c3 !! id
                        = Some {| on_update := u; on_complete := k |}
                   else handlers c3 = handlers c).
    { destruct (present u || present k); by rewrite Hh. }
    destruct ok; [destruct (transmit env)|]; simpl; auto.
Qed.

(** *** The listener *)

Lemma process_message_frame now f c :
  handlers (fst (process_message now f c)) = handlers c
  /\ state (fst (process_message now f c)) = state c
  /\ reconnect_attempts (fst (process_message now f c))
     = reconnect_attempts c
  /\ (forall mid, frame_id f <> Some mid ->
        responses (fst (process_message now f c)) !! mid = responses c !! mid)
  /\ Forall (fun e => frame_id f = Some (event_id e))
       (snd (process_message now f c)).
Proof.
  destruct f as [m chunk|m|]; simpl.
  - destruct (responses c !! m) as [p|]; simpl; [|done].
    repeat split; try done.
    + intros mid Hne. rewrite lookup_insert_ne; [done|congruence].
    + destruct (handlers c !! m) as [[[cb|] k]|]; by repeat constructor.
  - destruct (responses c !! m) as [p|]; simpl; [|done].
    repeat split; try done.
    + intros mid Hne. rewrite lookup_insert_ne; [done|congruence].
    + destruct (handlers c !! m) as [[u [cb|]]|]; by repeat constructor.
  - done.
Qed.

(** The listener changes nothing but buffers and completion flags: the
    handlers, the connection state and the set of registered requests are
    as before; and messages that do not name a request leave its entry as
    it was and cause no call of its callbacks. *)
Theorem listener_isolation frames : forall c mid,
  Forall (fun nf => frame_id (snd nf) <> Some mid) frames ->
  handlers (fst (process_messages frames c)) = handlers c
  /\ state (fst (process_messages frames c)) = state c
  /\ dom (responses (fst (process_messages frames c))) = dom (responses c)
  /\ responses (fst (process_messages frames c)) !! mid = responses c !! mid
  /\ Forall (fun e => event_id e <> mid) (snd (process_messages frames c)).
Proof.
  induction frames as [|[now f] frames IH]; intros c mid Hall; [done|].
  apply Forall_cons in Hall as [Hf Hall]. simpl in Hf.
  pose proof (process_message_frame now f c) as (Hh & Hs & _ & Hr & He).
  pose proof (process_message_dom now f c) as Hd.
  cbn [process_messages].
  destruct (process_message now f c) as [c1 ev]. simpl in *.
  specialize (IH c1 mid Hall).
  destruct (process_messages frames c1) as [c2 evs]. simpl in *.
  destruct IH as (IHh & IHs & IHd & IHr & IHe).
  repeat split; try congruence.
  - rewrite IHr. by apply Hr.
  - apply Forall_app. split; [|done].
    eapply Forall_impl; [exact He|]. simpl. intros e Heq Hmid.
    apply Hf. by rewrite Heq, Hmid.
Qed.

(** *** What [wait_for_response] returns *)

Lemma join_app l1 l2 : join (l1 ++ l2) = join l1 +:+ join l2.
Proof.
  induction l1 as [|x l1 IH]; [done|].
  cbn [app join]. by rewrite IH, append_assoc.
Qed.

Lemma chunks_for_app mid a b :
  chunks_for mid (a ++ b) = chunks_for mid a ++ chunks_for mid b.
Proof.
  induction a as [|[now [m chunk|m|]|s] a IH]; simpl; try done.
  destruct (String.eqb m mid); simpl; by rewrite IH.
Qed.

Lemma during_buffer mid acts : forall c p,
  responses c !! mid = Some p ->
  exists p',
    responses (fst (during acts c)) !! mid = Some p'
    /\ content p' = content p +:+ join (chunks_for mid acts).
Proof.
  induction acts as [|[now f|s] acts IH]; intros c p Hp.
  - exists p. by rewrite append_nil_r.
  - cbn [during].
    assert (exists p1,
              responses (fst (process_message now f c)) !! mid = Some p1
              /\ content p1
                 = content p +:+ join (chunks_for mid [Arrives now f]))
      as (p1 & Hp1 & Hc1).
    { destruct f as [m chunk|m|]; simpl.
      - destruct (String.eqb_spec m mid) as [->|Hne].
        + rewrite Hp. simpl. rewrite lookup_insert_eq.
          eexists. split; [done|]. simpl. by rewrite append_nil_r.
        + destruct (responses c !! m); simpl;
            rewrite ?lookup_insert_ne by done;
            exists p; by rewrite append_nil_r.
      - destruct (decide (m = mid)) as [->|Hne].
        + rewrite Hp. simpl. rewrite lookup_insert_eq.
          eexists. split; [done|]. simpl. by rewrite append_nil_r.
        + destruct (responses c !! m); simpl;
            rewrite ?lookup_insert_ne by done;
            exists p; by rewrite append_nil_r.
      - exists p. by rewrite append_nil_r. }
    destruct (process_message now f c) as [c1 ev]. simpl in Hp1.
    destruct (IH c1 p1 Hp1) as (p' & Hp' & Hc').
    destruct (during acts c1) as [c2 evs]. cbn [fst] in *.
    exists p'. split; [done|].
    change (Arrives now f :: acts) with ([Arrives now f] ++ acts).
    by rewrite chunks_for_app, join_app, <- append_assoc, <- Hc1.
  - cbn [during]. destruct (IH (set_state s c) p Hp) as (p' & Hp' & Hc').
    by exists p'.
Qed.

Lemma poll_text mid start timeout ticks : forall c p c' text,
  responses c !! mid = Some p ->
  poll ticks c mid start timeout = Some (c', Returns (Some text)) ->
  exists n p',
    (n <= length ticks)%nat
    /\ text
       = content p +:+ join (chunks_for mid (concat (sleep <$> take n ticks)))
    /\ responses c' !! mid = Some p'
    /\ complete p' = true
    /\ content p' = text.
Proof.
  induction ticks as [|tk ticks IH]; intros c p c' text Hp; simpl;
    rewrite Hp; destruct (complete p) eqn:Hc.
  - intros [= <- <-]. exists 0%nat, p. simpl. rewrite append_nil_r.
    repeat split; try done; lia.
  - done.
  - intros [= <- <-]. exists 0%nat, p. simpl. rewrite append_nil_r.
    repeat split; try done; lia.
  - destruct (timeout <? reading tk - start); [done|].
    destruct (bool_decide (state c = ERROR) || bool_decide (state c = CLOSED));
      [done|].
    intros Hpoll.
    destruct (during_buffer mid (sleep tk) c p Hp) as (p1 & Hp1 & Hc1).
    destruct (IH _ p1 c' text Hp1 Hpoll) as (n & p' & Hn & Ht & Hp' & Hd & Hx).
    exists (S n), p'. repeat split; try done; [lia|].
    simpl. by rewrite chunks_for_app, join_app, <- append_assoc, <- Hc1.
Qed.

(** When [wait_for_response] returns a text, the request is complete and
    the text is its buffer: what the buffer held when the wait began
    followed by every chunk that arrived for the request during the polls
    that were made, in order of arrival (chunks that arrive in the same
    sleep as the completion message, even after it, are included). *)
Theorem wait_for_response_returns_the_buffer c mid timeout start ticks p c'
    text :
  responses c !! mid = Some p ->
  wait_for_response c mid timeout start ticks
  = Some (c', Returns (Some text)) ->
  exists n p',
    (n <= length ticks)%nat
    /\ text
       = content p +:+ join (chunks_for mid (concat (sleep <$> take n ticks)))
    /\ responses c' !! mid = Some p'
    /\ complete p' = true
    /\ content p' = text.
Proof.
  intros Hp. unfold wait_for_response. rewrite Hp.
  by apply poll_text.
Qed.

End WebSocketMore.

(** ** Token socket transport: sending, waiting, late messages *)

Section DirectAPIMore.

Import DirectAPIClient.

Lemma invoke_ids k mid text :
  Forall (fun e => event_id e = mid) (invoke k mid text).
Proof.
  apply Forall_forall. intros e He.
  apply invoke_events in He as [[cb ->]| ->]; done.
Qed.

Lemma resolved_other mid evs :
  Forall (fun e => event_id e <> mid) evs -> resolved mid evs = None.
Proof.
  induction evs as [|[cb m c|cb m t|m t] evs IH]; intros Hall; [done|..];
    apply Forall_cons in Hall as [He Hall]; simpl in *; auto.
  apply String.eqb_neq in He. rewrite He. auto.
Qed.

Lemma resolved_wrapper o mid text :
  resolved mid (invoke (Wrapper o) mid text) = Some text.
Proof.
  simpl.
  assert (Hall : Forall (fun e => (exists cb, e = Complete cb mid text)
                                  \/ e = SetResult mid text)
                   match o with
                   | Some k' => invoke k' mid text
                   | None => []
                   end).
  { destruct o as [k|]; [|constructor].
    apply Forall_forall. intros e He. exact (invoke_events k mid text e He). }
  induction Hall as [|e l [[cb ->]| ->] _ IH]; simpl;
    rewrite ?String.eqb_refl; done.
Qed.

Lemma process_message_registered f c :
  Forall (fun e => is_Some (message_callbacks c !! event_id e))
    (snd (process_message f c))
  /\ (forall mid, message_callbacks c !! mid = None ->
        message_callbacks (fst (process_message f c)) !! mid = None)
  /\ (forall mid, Forall (fun e => event_id e <> mid) (snd (process_message f c)) ->
        message_callbacks (fst (process_message f c)) !! mid
        = message_callbacks c !! mid).
Proof.
  destruct f as [|m chunk|m text|]; simpl; try done.
  - destruct m as [s|]; simpl; [|done].
    destruct (negb (String.eqb s EmptyString)); [|done].
    destruct (message_callbacks c !! s) as [[[cb|] k ts]|] eqn:E; simpl;
      try done.
    repeat split; try done. repeat constructor. simpl. by rewrite E.
  - destruct m as [s|]; simpl; [|done].
    destruct (negb (String.eqb s EmptyString)); [|done].
    destruct (message_callbacks c !! s) as [[u [k|] ts]|] eqn:E; simpl;
      try done.
    split; [|split].
    + eapply Forall_impl; [apply invoke_ids|].
      simpl. intros e ->. by rewrite E.
    + intros mid Hmid. rewrite lookup_delete_ne; [done|congruence].
    + intros mid Hall. destruct (decide (s = mid)) as [->|Hne];
        [|by rewrite lookup_delete_ne].
      exfalso.
      assert (Hin : SetResult mid text ∈ invoke k mid text
                    \/ exists cb, Complete cb mid text ∈ invoke k mid text).
      { destruct k as [cb|o]; simpl.
        - right. exists cb. by apply list_elem_of_singleton.
        - left. apply elem_of_app. right. by apply list_elem_of_singleton. }
      rewrite Forall_forall in Hall.
      destruct Hin as [Hin|[cb Hin]]; by apply Hall in Hin.
Qed.

(** A message for a request that is not registered changes nothing and
    calls nothing; the listener never registers a request, so an answer
    that arrives after the request was removed is dropped, and so is every
    later one. *)
Theorem unregistered_request_is_ignored frames : forall c mid,
  message_callbacks c !! mid = None ->
  message_callbacks (fst (process_messages frames c)) !! mid = None
  /\ Forall (fun e => event_id e <> mid) (snd (process_messages frames c)).
Proof.
  induction frames as [|f frames IH]; intros c mid Hmid; [done|].
  pose proof (process_message_registered f c) as (Hev & Hkeep & _).
  cbn [process_messages].
  destruct (process_message f c) as [c1 ev]. simpl in *.
  destruct (IH c1 mid (Hkeep mid Hmid)) as [IH1 IH2].
  destruct (process_messages frames c1) as [c2 evs]. simpl in *.
  split; [done|]. apply Forall_app. split; [|done].
  eapply Forall_impl; [exact Hev|]. simpl. intros e [x Hx] Heq.
  rewrite Heq in Hx. congruence.
Qed.

Lemma await_first mid arrivals : forall c cbs o,
  mid <> EmptyString ->
  message_callbacks c !! mid = Some cbs ->
  on_complete cbs = Some (Wrapper o) ->
  snd (fst (await arrivals c mid)) = first_response mid arrivals.
Proof.
  induction arrivals as [|f arrivals IH]; intros c cbs o Hmid Hc Ho; [done|].
  cbn [await].
  assert (Hcase :
    (exists text, f = agent_response (Some mid) text)
    \/ (first_response mid (f :: arrivals) = first_response mid arrivals
        /\ resolved mid (snd (process_message f c)) = None
        /\ message_callbacks (fst (process_message f c)) !! mid = Some cbs)).
  { destruct f as [|m chunk|m text|].
    - right. by simpl.
    - right. split; [done|]. simpl.
      destruct m as [s|]; simpl; [|by auto].
      destruct (negb (String.eqb s EmptyString)); [|by auto].
      destruct (message_callbacks c !! s) as [[[cb|] k ts]|]; by auto.
    - destruct m as [s|]; [|right; by simpl].
      destruct (String.eqb_spec s mid) as [->|Hne]; [left; by eexists|].
      right.
      split; [simpl; apply String.eqb_neq in Hne; by rewrite Hne|].
      pose proof (process_message_registered
                    (agent_response (Some s) text) c) as (_ & _ & Hsame).
      assert (Hev : Forall (fun e => event_id e <> mid)
                      (snd (process_message (agent_response (Some s) text) c))).
      { simpl. destruct (negb (String.eqb s EmptyString)); [|constructor].
        destruct (message_callbacks c !! s) as [[u [k|] ts]|];
          try constructor.
        eapply Forall_impl; [apply invoke_ids|]. simpl. congruence. }
      split; [by apply resolved_other|].
      rewrite (Hsame mid Hev). exact Hc.
    - right. by simpl. }
  destruct Hcase as [[text ->]|(Hfirst & Hres & Hkeep)].
  - simpl. apply String.eqb_neq in Hmid. rewrite Hmid. simpl.
    rewrite Hc. destruct cbs as [u k ts]. simpl in Ho. subst k.
    rewrite resolved_wrapper. simpl. by rewrite String.eqb_refl.
  - rewrite Hfirst.
    destruct (process_message f c) as [c1 ev]. simpl in Hres, Hkeep.
    rewrite Hres.
    specialize (IH c1 cbs o Hmid Hkeep Ho).
    by destruct (await arrivals c1 mid) as [[c2 r] evs].
Qed.

(** For a registered request, [wait_for_response] returns the text of the
    first [agent:response] message for it among the messages that arrive
    before the deadline, [None] when there is none; either way the request
    is no longer registered afterwards. *)
Theorem wait_for_response_returns_first_answer c mid arrivals cbs :
  mid <> EmptyString ->
  message_callbacks c !! mid = Some cbs ->
  snd (fst (wait_for_response c mid arrivals)) = first_response mid arrivals
  /\ message_callbacks (fst (fst (wait_for_response c mid arrivals))) !! mid
     = None.
Proof.
  intros Hmid Hc. split; [|apply direct_wait_for_response_deregisters].
  unfold wait_for_response. rewrite Hc.
  match goal with
  | |- context [await arrivals ?c1 mid] =>
      pose proof (await_first mid arrivals c1 _ (on_complete cbs) Hmid
                    (lookup_insert_eq _ _ _) eq_refl) as Hfirst;
      destruct (await arrivals c1 mid) as [[c2 r] evs]
  end.
  exact Hfirst.
Qed.

(** [send_message] with a fresh id leaves a registration exactly when it
    returns the id: then the client is connected and the request is
    registered with the caller's callbacks; when it raises, because the
    connection could not be made or the transmission failed, the
    registrations are what they were before the call. *)
Theorem send_message_registers_on_success c text u k env :
  message_callbacks c !! uuid env = None ->
  match send_message c text u k env with
  | (c', Returns id) =>
      id = uuid env
      /\ initialized c' = true /\ ws c' = true
      /\ message_callbacks c'
         = <[id := {| on_update := u;
                      on_complete := UserCallback <$> k;
                      timestamp := now env |}]> (message_callbacks c)
  | (c', Raises _) => message_callbacks c' = message_callbacks c
  end.
Proof.
  intros Hfresh. unfold send_message.
  destruct (negb (initialized c) || negb (ws c)) eqn:Hconn.
  - unfold connect. destruct (reconnect env) as [[|]|]; simpl; try done.
    destruct (transmit env); simpl; [done|].
    by rewrite delete_insert_eq, delete_id.
  - apply orb_false_iff in Hconn as [Hi Hw].
    apply negb_false_iff in Hi, Hw.
    destruct (transmit env); simpl; [done|].
    by rewrite delete_insert_eq, delete_id.
Qed.

End DirectAPIMore.

(** ** Text formatting *)

Section Formatting.

Local Open Scope nat_scope.

Lemma format_short (text : unicode) :
  length text <= Utils.MAX_LENGTH ->
  Utils.format_response_for_telegram text = text.
Proof.
  intros Hlen. unfold Utils.format_response_for_telegram.
  destruct text as [|c rest]; [done|].
  destruct (Nat.leb_spec (length (c :: rest)) Utils.MAX_LENGTH); [done|lia].
Qed.

Lemma format_long (text : unicode) :
  Utils.MAX_LENGTH < length text ->
  Utils.format_response_for_telegram text
  = take (Utils.MAX_LENGTH - 3) text ++ ascii_text "...".
Proof.
  intros Hlen. unfold Utils.format_response_for_telegram.
  destruct text as [|c rest]; [simpl in Hlen; lia|].
  destruct (Nat.leb_spec (length (c :: rest)) Utils.MAX_LENGTH); [lia|done].
Qed.

Lemma format_length (text : unicode) :
  length (Utils.format_response_for_telegram text) <= Utils.MAX_LENGTH.
Proof.
  destruct (Nat.le_gt_cases (length text) Utils.MAX_LENGTH) as [Hle|Hgt].
  - by rewrite format_short.
  - rewrite format_long by done.
    rewrite length_app, length_take.
    change (length (ascii_text "...")) with 3.
    unfold Utils.MAX_LENGTH in *. lia.
Qed.

(** Counting characters as Python does, by code points,
    [format_response_for_telegram] never returns more than 4000
    characters; it returns a text of at most 4000 characters unchanged and
    otherwise the first 3997 characters followed by three dots, 4000
    characters in all; applying it twice is the same as applying it
    once. *)
Theorem format_response_fits (text : unicode) :
  length (Utils.format_response_for_telegram text) <= 4000
  /\ (if length text <=? 4000
      then Utils.format_response_for_telegram text = text
      else Utils.format_response_for_telegram text
           = take 3997 text ++ ascii_text "..."
           /\ length (Utils.format_response_for_telegram text) = 4000)
  /\ Utils.format_response_for_telegram
       (Utils.format_response_for_telegram text)
     = Utils.format_response_for_telegram text.
Proof.
  split; [apply format_length|]. split.
  - destruct (Nat.leb_spec (length text) 4000) as [Hle|Hgt].
    + by apply format_short.
    + rewrite format_long by done. split; [done|].
      rewrite length_app, length_take.
      change (length (ascii_text "...")) with 3.
      unfold Utils.MAX_LENGTH. lia.
  - apply format_short, format_length.
Qed.

Lemma concat_filter_nonempty (l : list unicode) :
  concat (List.filter TelegramBot.nonempty l) = concat l.
Proof.
  induction l as [|x l IH]; [done|]. cbn [List.filter].
  destruct x as [|c x]; simpl; by rewrite IH.
Qed.

Lemma concat_slices n (text : unicode) m : forall k,
  concat (List.map (fun i => take n (drop (i * n) text)) (seq k m))
  = take (m * n) (drop (k * n) text).
Proof.
  induction m as [|m IH]; intros k.
  - by rewrite take_0.
  - cbn [seq List.map concat]. rewrite IH.
    replace (S k * n) with (k * n + n) by lia.
    rewrite <- drop_drop, take_take_drop. reflexivity.
Qed.

Lemma segments_whole (text : unicode) :
  concat (TelegramBot.segments text) = text.
Proof.
  unfold TelegramBot.segments.
  rewrite concat_filter_nonempty, concat_slices, drop_0.
  apply take_ge. unfold TelegramBot.SEGMENT.
  pose proof (Nat.div_mod_eq (length text + (4000 - 1)) 4000).
  pose proof (Nat.mod_upper_bound (length text + (4000 - 1)) 4000).
  lia.
Qed.

Lemma segments_single (text : unicode) :
  1 <= length text <= TelegramBot.SEGMENT ->
  TelegramBot.segments text = [text].
Proof.
  intros [Hpos Hle]. unfold TelegramBot.segments.
  assert (Hone : (length text + (TelegramBot.SEGMENT - 1))
                 / TelegramBot.SEGMENT = 1).
  { unfold TelegramBot.SEGMENT in *. symmetry.
    apply Nat.div_unique with (r := length text - 1); lia. }
  rewrite Hone. cbn [seq List.map List.filter Nat.mul].
  rewrite drop_0, take_ge by done.
  destruct text; [simpl in Hpos; lia|done].
Qed.

(** The fallback of [handle_message] loses nothing of the text it is
    given: the segments, put together in order, are the text, and each has
    between 1 and 4000 characters (code points).  The text
    [handle_message] gives it has already been through
    [format_response_for_telegram], so that text always goes out as one
    single segment. *)
Theorem fallback_segments (text : unicode) :
  concat (TelegramBot.segments text) = text
  /\ Forall (fun chunk => 1 <= length chunk <= 4000)
       (TelegramBot.segments text)
  /\ (forall blank response,
        TelegramBot.segments (TelegramBot.final_text blank response)
        = [TelegramBot.final_text blank response]).
Proof.
  split; [apply segments_whole|]. split.
  - unfold TelegramBot.segments. apply Forall_forall. intros chunk Hin.
    apply list_elem_of_In, filter_In in Hin as [Hin Hne].
    apply in_map_iff in Hin as (k & <- & _).
    split.
    + destruct (take _ _); [done|simpl; lia].
    + rewrite length_take. unfold TelegramBot.SEGMENT. lia.
  - intros blank response. apply segments_single.
    unfold TelegramBot.final_text.
    destruct (Utils.format_response_for_telegram response) as [|c rest] eqn:E.
    + simpl. split; [vm_compute; lia|]. vm_compute. lia.
    + cbn [TelegramBot.nonempty negb orb].
      destruct (blank (c :: rest)).
      * split; vm_compute; lia.
      * split; [simpl; lia|]. rewrite <- E. apply format_length.
Qed.

End Formatting.

(** ** Streaming updates of the bot *)

Section Streaming.

Import TelegramBot.

Lemma update_callback_buffer content now ok s :
  response_buffer (fst (update_callback content now ok s))
  = response_buffer s ++ content.
Proof.
  unfold update_callback.
  by destruct (UPDATE_INTERVAL <=? now - last_update_time s).
Qed.

Lemma updates_app l1 l2 s :
  updates (l1 ++ l2) s
  = (fst (updates l2 (fst (updates l1 s))),
     snd (updates l1 s) ++ snd (updates l2 (fst (updates l1 s)))).
Proof.
  revert s. induction l1 as [|[[content now] ok] l1 IH]; intros s.
  - simpl. by destruct (updates l2 s).
  - cbn [app updates].
    destruct (update_callback content now ok s) as [s1 e].
    rewrite IH. destruct (updates l1 s1) as [s2 es]. cbn [fst snd].
    by rewrite app_assoc.
Qed.

Lemma updates_buffer chunks : forall s,
  response_buffer (fst (updates chunks s))
  = response_buffer s ++ concat (map (fun c => fst (fst c)) chunks).
Proof.
  induction chunks as [|[[content now] ok] rest IH]; intros s.
  - simpl. by rewrite app_nil_r.
  - cbn [updates].
    pose proof (update_callback_buffer content now ok s) as Hbuf.
    destruct (update_callback content now ok s) as [s1 e].
    specialize (IH s1).
    destruct (updates rest s1) as [s2 es]. cbn [fst] in *.
    rewrite IH, Hbuf. cbn [map concat fst]. by rewrite app_assoc.
Qed.

Lemma updates_spaced chunks : forall s,
  spaced (last_update_time s) (snd (updates chunks s)).
Proof.
  induction chunks as [|[[content now] ok] rest IH]; intros s; [done|].
  cbn [updates]. unfold update_callback.
  destruct (Z.leb_spec UPDATE_INTERVAL (now - last_update_time s)) as [Hle|_].
  - match goal with
    | |- context [updates rest ?s1] =>
        specialize (IH s1); destruct (updates rest s1) as [s2 es]
    end.
    cbn [snd app spaced at_time accepted last_update_time] in *.
    split; [exact Hle|exact IH].
  - match goal with
    | |- context [updates rest ?s1] =>
        specialize (IH s1); destruct (updates rest s1) as [s2 es]
    end.
    cbn [snd app last_update_time] in *. exact IH.
Qed.

Lemma updates_shown chunks : forall s,
  Forall (fun e =>
            exists k content,
              chunks !! k = Some (content, at_time e, accepted e)
              /\ shown e
                 = Utils.format_response_for_telegram
                     (response_buffer s
                      ++ concat (take (S k)
                                   (map (fun c => fst (fst c)) chunks))))
    (snd (updates chunks s)).
Proof.
  induction chunks as [|[[content now] ok] rest IH]; intros s;
    [by constructor|].
  cbn [updates].
  pose proof (update_callback_buffer content now ok s) as Hbuf.
  destruct (update_callback content now ok s) as [s1 e] eqn:Hstep.
  specialize (IH s1).
  destruct (updates rest s1) as [s2 es]. cbn [fst snd] in *.
  apply Forall_app. split.
  - unfold update_callback in Hstep.
    destruct (UPDATE_INTERVAL <=? now - last_update_time s);
      injection Hstep as _ <-; [|by constructor].
    constructor; [|by constructor].
    exists 0%nat, content. split; [done|].
    cbn [map take concat fst shown]. by rewrite app_nil_r.
  - eapply Forall_impl; [exact IH|].
    intros e' (k & content' & Hk & Hshown). exists (S k), content'.
    split; [exact Hk|].
    rewrite Hshown, Hbuf. cbn [map take concat fst]. by rewrite app_assoc.
Qed.

Lemma updates_due chunks : forall s k content now ok,
  chunks !! k = Some (content, now, ok) ->
  UPDATE_INTERVAL
  <= now - last_update_time (fst (updates (take k chunks) s)) ->
  {| at_time := now;
     shown := Utils.format_response_for_telegram
                (response_buffer s
                 ++ concat (take (S k) (map (fun c => fst (fst c)) chunks)));
     accepted := ok |} ∈ snd (updates chunks s).
Proof.
  intros s k content now ok Hk Hdue.
  rewrite <- (take_drop_middle chunks k _ Hk) at 2.
  rewrite updates_app. cbn [snd]. apply elem_of_app. right.
  pose proof (updates_buffer (take k chunks) s) as Hbuf.
  set (s1 := fst (updates (take k chunks) s)) in *.
  cbn [updates]. unfold update_callback.
  apply Z.leb_le in Hdue. rewrite Hdue.
  destruct (updates (drop (S k) chunks) _) as [s2 es]. cbn [snd app].
  apply elem_of_cons. left. f_equal.
  rewrite Hbuf. f_equal. rewrite <- app_assoc. f_equal.
  rewrite firstn_map.
  rewrite (take_S_r chunks k _ Hk), map_app, concat_app. simpl.
  by rewrite app_nil_r.
Qed.

(** While a response streams in, [update_callback] keeps every chunk in
    the buffer whether or not an edit is made or fails.  Every edit it
    attempts is made at the arrival of a chunk and shows the formatted
    buffer with that chunk in it, at most 4000 characters; every edit is
    attempted at least one second after the last edit that went through;
    and a chunk that arrives at least one second after the last edit that
    went through is always followed by an edit. *)
Theorem streaming_updates chunks s :
  response_buffer (fst (updates chunks s))
  = response_buffer s ++ concat (map (fun c => fst (fst c)) chunks)
  /\ Forall (fun e =>
               (length (shown e) <= 4000)%nat
               /\ exists k content,
                    chunks !! k = Some (content, at_time e, accepted e)
                    /\ shown e
                       = Utils.format_response_for_telegram
                           (response_buffer s
                            ++ concat (take (S k)
                                         (map (fun c => fst (fst c)) chunks))))
       (snd (updates chunks s))
  /\ spaced (last_update_time s) (snd (updates chunks s))
  /\ (forall k content now ok,
        chunks !! k = Some (content, now, ok) ->
        UPDATE_INTERVAL
        <= now - last_update_time (fst (updates (take k chunks) s)) ->
        {| at_time := now;
           shown := Utils.format_response_for_telegram
                      (response_buffer s
                       ++ concat (take (S k)
                                    (map (fun c => fst (fst c)) chunks)));
           accepted := ok |} ∈ snd (updates chunks s)).
Proof.
  split; [apply updates_buffer|]. split; [|split].
  - eapply Forall_impl; [apply updates_shown|].
    intros e (k & content & Hk & Hshown). split; [|by exists k, content].
    rewrite Hshown. apply format_length.
  - apply updates_spaced.
  - apply updates_due.
Qed.

End Streaming.

(** ** Concrete sessions for the further properties *)

Lemma selection_is_below_threshold_witness :
  fst (Router._determine_method fresh_router) <> Router.AUTO
  /\ failures_of (fst (Router._determine_method fresh_router))
       (snd (Router._determine_method fresh_router))
     < threshold_of (fst (Router._determine_method fresh_router))
         (snd (Router._determine_method fresh_router)).
Proof.
  apply (selection_is_below_threshold fresh_router); [reflexivity|].
  vm_compute. reflexivity.
Defined.

(** After an answer of the direct API the router holds a direct client;
    [close()] drops it, and the selection that follows is the first
    strategy of the plain order. *)
Lemma close_forgets_stickiness_witness :
  let r :=
    fst (fst (Router.send_message null_cipher fresh_router "hello"
                direct_answers)) in
  Router.direct_client r = true
  /\ Router.close (Router.close r) = Router.close r
  /\ Router._determine_method (Router.close r)
     = (Router.DIRECT_API, Router.close r).
Proof.
  intros r. split; [reflexivity|].
  pose proof (close_forgets_stickiness r eq_refl)
    as (Hidem & _ & _ & _ & Hfirst & _).
  split; [exact Hidem|]. apply Hfirst. vm_compute. reflexivity.
Defined.

Lemma send_message_bookkeeping_witness :
  let r' :=
    fst (fst (Router.send_message null_cipher fresh_router "hello" offline)) in
  sane r'
  /\ settings_kept fresh_router r'
  /\ Router.total_api_calls r' = Router.total_api_calls fresh_router + 1
  /\ Router.direct_api_failures r'
     <= Router.direct_api_failures fresh_router + 1
  /\ Router.websocket_failures r'
     <= Router.websocket_failures fresh_router + 1
  /\ Router.browser_failures r' <= Router.browser_failures fresh_router + 1.
Proof.
  apply (send_message_bookkeeping null_cipher fresh_router "hello" offline).
  unfold sane. vm_compute. repeat split; discriminate.
Defined.

Lemma session_statistics_witness :
  let ops :=
    [Router.Send "hello" offline; Router.Close;
     Router.Send "hello" direct_answers] in
  sane (fst (Router.run null_cipher ops fresh_router))
  /\ settings_kept fresh_router (fst (Router.run null_cipher ops fresh_router))
  /\ Router.total_api_calls (fst (Router.run null_cipher ops fresh_router))
     = Router.total_api_calls fresh_router + sends ops
  /\ Z.of_nat (length (snd (Router.run null_cipher ops fresh_router)))
     = sends ops.
Proof.
  intros ops.
  apply (session_statistics null_cipher ops fresh_router).
  unfold sane. vm_compute. repeat split; discriminate.
Defined.

(** A router pinned to the WebSocket API selects it whatever its counters
    are. *)
Lemma never_before_the_selected_strategy_witness :
  let r :=
    Router.mk "u1" empty_store Router.WEBSOCKET_API false false false None
      0 3 7 3 0 3 0 0 JNull in
  Router._determine_method r = (Router.WEBSOCKET_API, r)
  /\ not_before Router.WEBSOCKET_API
       (snd (Router.send_message null_cipher r "hello" websocket_answers)).
Proof.
  intros r.
  pose proof (never_before_the_selected_strategy null_cipher r "hello"
                websocket_answers) as [Hnot Hpinned].
  split; [apply Hpinned; discriminate|exact Hnot].
Defined.

Lemma browser_answer_persists_credentials_witness :
  let r' :=
    fst (fst (Router.send_message null_cipher fresh_router "hello"
                browser_answers_with_bundle)) in
  Router.auth_data r' = sample_bundle
  /\ TokenManager.get_user_tokens (Router.user_id fresh_router)
       (Router.token_manager r') = Returns sample_bundle.
Proof.
  intros r'.
  apply (browser_answer_persists_credentials null_cipher fresh_router "hello"
           browser_answers_with_bundle r' "hi"
           (snd (Router.send_message null_cipher fresh_router "hello"
                   browser_answers_with_bundle))
           sample_bundle);
    vm_compute; reflexivity.
Defined.

Lemma no_permanent_lockout_witness :
  let r :=
    fst (Router.run null_cipher
           (map (Router.Send "hello") [offline; offline; offline])
           fresh_router) in
  Router.direct_api_failures r = 3
  /\ Router.websocket_failures r = 3
  /\ Router.browser_failures r = 3
  /\ Router._determine_method r = (Router.DIRECT_API, reset_counters r)
  /\ forall text' env,
       first_strategy (snd (Router.send_message null_cipher r text' env))
       = Some Router.DIRECT_API.
Proof.
  apply (no_permanent_lockout null_cipher 3 "u1" empty_store fresh_router
           "hello" [offline; offline; offline]); reflexivity.
Defined.

Lemma socket_success_is_counted_witness :
  let r' :=
    fst (fst (Router.send_message null_cipher fresh_router "hello"
                direct_answers)) in
  Router.successful_api_calls r'
  = Router.successful_api_calls fresh_router + 1
  /\ counter_cleared r' (Router.Success Router.DIRECT_API "hi")
  /\ within Router.DIRECT_API
       (snd (Router.send_message null_cipher fresh_router "hello"
               direct_answers)).
Proof.
  intros r'.
  apply (socket_success_is_counted null_cipher fresh_router "hello"
           direct_answers r' Router.DIRECT_API "hi"
           (snd (Router.send_message null_cipher fresh_router "hello"
                   direct_answers))).
  - vm_compute. reflexivity.
  - left. reflexivity.
Defined.

Lemma other_users_are_untouched_witness :
  TokenManager.get_user_tokens "u2"
    (fst (TokenManager.store_user_tokens null_cipher "u1" (JStr "t-1")
            1700000300 TokenManager.Written store_with_u2))
  = TokenManager.get_user_tokens "u2" store_with_u2
  /\ TokenManager.get_user_tokens "u2"
       (fst (TokenManager.delete_user_tokens null_cipher "u1" TokenManager.Written
               store_with_u2))
     = TokenManager.get_user_tokens "u2" store_with_u2
  /\ TokenManager.is_token_valid "u2" 43200 1700000400
       (fst (TokenManager.store_user_tokens null_cipher "u1" (JStr "t-1")
               1700000300 TokenManager.Written store_with_u2))
     = TokenManager.is_token_valid "u2" 43200 1700000400 store_with_u2
  /\ TokenManager.is_token_valid "u2" 43200 1700000400
       (fst (TokenManager.delete_user_tokens null_cipher "u1" TokenManager.Written
               store_with_u2))
     = TokenManager.is_token_valid "u2" 43200 1700000400 store_with_u2.
Proof.
  apply (other_users_are_untouched null_cipher "u1" "u2" (JStr "t-1")
           1700000300 TokenManager.Written 43200 1700000400 store_with_u2).
  discriminate.
Defined.

Lemma stored_tokens_survive_restart_witness :
  exists tm2,
    TokenManager.init
      (recalling (TokenManager.tokens store_with_u2))
      (Returns tt) (Returns tt) (TokenManager.tokens_file store_with_u2)
    = Returns tm2
    /\ TokenManager.tokens tm2 = TokenManager.tokens store_with_u2
    /\ TokenManager.get_user_tokens "u2" tm2 = Returns sample_bundle.
Proof.
  apply (stored_tokens_survive_restart null_cipher
           (recalling (TokenManager.tokens store_with_u2))
           "u2" sample_bundle 1700000000 TokenManager.Written empty_store store_with_u2).
  - reflexivity.
  - intros data _. reflexivity.
Defined.

(** Messages for request ["r2"] leave a registered request ["r1"] as it
    was. *)
Lemma listener_isolation_witness :
  let c :=
    fst (WebSocketClient.send_message sample_hash connected_client "hello"
           (Some "r1") (Some 1%nat) (Some 2%nat) (sending_at 1700000000000100)) in
  let frames :=
    [(1700000001000000, WebSocketClient.agentResponse "r2" "Hel");
     (1700000002000000, WebSocketClient.other);
     (1700000003000000, WebSocketClient.agentResponseComplete "r2")] in
  WebSocketClient.handlers (fst (WebSocketClient.process_messages frames c))
  = WebSocketClient.handlers c
  /\ WebSocketClient.state (fst (WebSocketClient.process_messages frames c))
     = WebSocketClient.state c
  /\ dom (WebSocketClient.responses
            (fst (WebSocketClient.process_messages frames c)))
     = dom (WebSocketClient.responses c)
  /\ WebSocketClient.responses
       (fst (WebSocketClient.process_messages frames c)) !! "r1"
     = WebSocketClient.responses c !! "r1"
  /\ Forall (fun e => event_id e <> "r1")
       (snd (WebSocketClient.process_messages frames c)).
Proof.
  intros c frames.
  apply (listener_isolation frames c "r1").
  repeat constructor; discriminate.
Defined.

(** Two chunks and the completion message arrive during the first sleep:
    the wait returns the whole text. *)
Lemma wait_for_response_returns_the_buffer_witness :
  let c :=
    fst (WebSocketClient.send_message sample_hash connected_client "hello"
           (Some "r1") None None (sending_at 1700000000000100)) in
  let ticks :=
    [{| WebSocketClient.reading := 1700000000000300;
        WebSocketClient.sleep :=
          [WebSocketClient.Arrives 1700000000050000
             (WebSocketClient.agentResponse "r1" "Hel");
           WebSocketClient.Arrives 1700000000060000
             (WebSocketClient.agentResponse "r1" "lo");
           WebSocketClient.Arrives 1700000000070000
             (WebSocketClient.agentResponseComplete "r1")] |}] in
  exists n p',
    (n <= length ticks)%nat
    /\ "Hello"
       = EmptyString
         +:+ join (chunks_for "r1"
                     (concat (WebSocketClient.sleep <$> take n ticks)))
    /\ WebSocketClient.responses
         (fst (WebSocketClient.during
                 [WebSocketClient.Arrives 1700000000050000
                    (WebSocketClient.agentResponse "r1" "Hel");
                  WebSocketClient.Arrives 1700000000060000
                    (WebSocketClient.agentResponse "r1" "lo");
                  WebSocketClient.Arrives 1700000000070000
                    (WebSocketClient.agentResponseComplete "r1")] c)) !! "r1"
       = Some p'
    /\ WebSocketClient.complete p' = true
    /\ WebSocketClient.content p' = "Hello".
Proof.
  intros c ticks.
  apply (wait_for_response_returns_the_buffer c "r1" 60000000
           1700000000000200 ticks
           {| WebSocketClient.content := EmptyString;
              WebSocketClient.complete := false;
              WebSocketClient.created_at := 1700000000000100;
              WebSocketClient.updated_at := 1700000000000100 |}
           (fst (WebSocketClient.during
                   [WebSocketClient.Arrives 1700000000050000
                      (WebSocketClient.agentResponse "r1" "Hel");
                    WebSocketClient.Arrives 1700000000060000
                      (WebSocketClient.agentResponse "r1" "lo");
                    WebSocketClient.Arrives 1700000000070000
                      (WebSocketClient.agentResponseComplete "r1")] c))
           "Hello"); reflexivity.
Defined.

Lemma unregistered_request_is_ignored_witness :
  let frames :=
    [DirectAPIClient.agent_stream (Some "9a1e") "Hel";
     DirectAPIClient.agent_response (Some "9a1e") "lo"] in
  DirectAPIClient.message_callbacks
    (fst (DirectAPIClient.process_messages frames direct_client_with_request))
  !! "9a1e" = None
  /\ Forall (fun e => event_id e <> "9a1e")
       (snd (DirectAPIClient.process_messages frames
               direct_client_with_request)).
Proof.
  intros frames.
  apply (unregistered_request_is_ignored frames direct_client_with_request
           "9a1e").
  reflexivity.
Defined.

Lemma wait_for_response_returns_first_answer_witness :
  let arrivals :=
    [DirectAPIClient.agent_stream (Some "7f3c") "Hel";
     DirectAPIClient.agent_response (Some "9a1e") "other";
     DirectAPIClient.agent_response (Some "7f3c") "lo";
     DirectAPIClient.agent_response (Some "7f3c") "late"] in
  snd (fst (DirectAPIClient.wait_for_response direct_client_with_request
              "7f3c" arrivals))
  = first_response "7f3c" arrivals
  /\ DirectAPIClient.message_callbacks
       (fst (fst (DirectAPIClient.wait_for_response
                    direct_client_with_request "7f3c" arrivals))) !! "7f3c"
     = None.
Proof.
  intros arrivals.
  apply (wait_for_response_returns_first_answer direct_client_with_request
           "7f3c" arrivals
           {| DirectAPIClient.on_update := Some 1%nat;
              DirectAPIClient.on_complete :=
                Some (DirectAPIClient.UserCallback 2%nat);
              DirectAPIClient.timestamp := 1700000000000000 |}).
  - discriminate.
  - reflexivity.
Defined.

Lemma send_message_registers_on_success_witness :
  let env :=
    {| DirectAPIClient.reconnect := Returns true;
       DirectAPIClient.uuid := "9a1e";
       DirectAPIClient.now := 1700000001000000;
       DirectAPIClient.transmit := Returns tt |} in
  match DirectAPIClient.send_message direct_client_with_request "again"
          None None env with
  | (c', Returns id) =>
      id = "9a1e"
      /\ DirectAPIClient.initialized c' = true
      /\ DirectAPIClient.ws c' = true
      /\ DirectAPIClient.message_callbacks c'
         = <[id := {| DirectAPIClient.on_update := None;
                      DirectAPIClient.on_complete :=
                        DirectAPIClient.UserCallback <$> None;
                      DirectAPIClient.timestamp := 1700000001000000 |}]>
             (DirectAPIClient.message_callbacks direct_client_with_request)
  | (c', Raises _) =>
      DirectAPIClient.message_callbacks c'
      = DirectAPIClient.message_callbacks direct_client_with_request
  end.
Proof.
  intros env.
  apply (send_message_registers_on_success direct_client_with_request "again"
           None None env).
  reflexivity.
Defined.

(** A write that breaks off after two bytes while the tokens of ["u1"]
    are stored: the call returns [False], and the file, which held the
    four bytes of the store of ["u2"], is left with two. *)
Example broken_write_truncates_the_file :
  TokenManager.tokens_file saved_store
  = TokenManager.Stored [Byte.x67; Byte.x41; Byte.x42; Byte.x43]
  /\ snd (TokenManager.store_user_tokens four_bytes "u1" (JStr "t-1")
            1700000300 (TokenManager.Broken 2) saved_store) = false
  /\ TokenManager.tokens_file
       (fst (TokenManager.store_user_tokens four_bytes "u1" (JStr "t-1")
               1700000300 (TokenManager.Broken 2) saved_store))
     = TokenManager.Stored [Byte.x67; Byte.x41].
Proof. repeat split. Qed.

Lemma delete_reports_what_was_written_witness :
  TokenManager.delete_user_tokens four_bytes "u2" (TokenManager.Broken 1)
    saved_store
  = ({| TokenManager.tokens := delete "u2" (TokenManager.tokens saved_store);
        TokenManager.tokens_file := TokenManager.Stored [Byte.x67] |}, false).
Proof.
  pose proof (delete_reports_what_was_written four_bytes "u2"
                (TokenManager.Broken 1) saved_store) as H.
  change (TokenManager.tokens saved_store !! "u2")
    with (Some (JDict [("data", sample_bundle); ("stored_at", JNum 1700000000)]))
    in H.
  destruct H as (_ & _ & Hbroken).
  exact (Hbroken 1%nat [Byte.x67; Byte.x41; Byte.x42; Byte.x43] eq_refl).
Defined.

(** Characters are counted, not bytes: 2001 times [é] is returned as it
    is. *)
Example format_counts_characters :
  Utils.format_response_for_telegram (replicate 2001 233%N)
  = replicate 2001 233%N.
Proof.
  apply format_short. rewrite length_replicate. unfold Utils.MAX_LENGTH. lia.
Qed.

(** The first chunk comes too early to be shown; the second is shown with
    the first before it. *)
Lemma streaming_updates_witness :
  {| TelegramBot.at_time := 1700000001200000;
     TelegramBot.shown := [72; 233; 108; 108; 111]%N;
     TelegramBot.accepted := true |}
  ∈ snd (TelegramBot.updates two_chunks stream_start).
Proof.
  pose proof (streaming_updates two_chunks stream_start)
    as (_ & _ & _ & Hdue).
  apply (Hdue 1%nat [108; 108; 111]%N 1700000001200000 true eq_refl).
  vm_compute. discriminate.
Defined.
